(** * Long-screenshot splitting, hotel lookup and map rendering: a shallow
      embedding of [src/split_long_image.py], [src/geocode.py] and
      [src/render_map.py], and the properties of their runs.

    Layout of the development:
    - the model of [split_long_image.py]: Python helpers, the exceptions
      and the two monads, 8-bit PIL images with lazily decoded pixels, the
      numpy operations on one row, [compute_edge_strength],
      [find_safe_split_point] and the orchestrator [split_long_image],
      which records what it prints and what it does to the file system;
      then the vocabulary of its statements and the sample inputs;
    - the model of [geocode.py] (module [Geocode]): JSON values and the
      Python operations the script applies to them, the surroundings as
      oracles, the trace of events, [search_hotel], [process_csv] and
      [main];
    - the model of [render_map.py] (module [RenderMap]);
    - lemmas on ranges, on the scan, on running [IO] programs and on the
      plan of a split;
    - the claims;
    - further properties of the three scripts. *)

From Stdlib Require Import ZArith QArith Qabs List Lia Bool String Sorted.
From stdpp Require Import base list.
Import ListNotations.

Local Open Scope Z_scope.

(** ** Python helpers *)

(** [range(a, b)] on Python integers. *)
Definition py_range (a b : Z) : list Z :=
  map (fun i => a + Z.of_nat i) (seq 0 (Z.to_nat (b - a))).

(** [enumerate(l, start)]. *)
Fixpoint enumerate {A} (l : list A) (start : Z) : list (Z * A) :=
  match l with
  | [] => []
  | x :: l' => (start, x) :: enumerate l' (start + 1)
  end.

(** [ceil(a / b)]: the quotient is a float, exact at the sizes an image can
    have, so the ceiling is that of the exact quotient; [None] stands for
    the [ZeroDivisionError] of [a / 0]. *)
Definition py_ceil_div (a b : Z) : option Z :=
  if b =? 0 then None else Some (- ((- a) / b)).

(** ** Exceptions and the two monads

    Pixel access can fail, so the analysis functions return a [Result]; the
    orchestrator also prints and touches the file system, which is state
    threaded through [IO]. *)
Inductive exn :=
  | OpenFailed          (* Image.open: missing or unidentifiable file *)
  | LoadFailed          (* PIL decodes lazily; damaged data raise on access *)
  | CropValueError      (* crop box with lower < upper *)
  | ZeroDivisionError
  | MkdirFailed
  | SaveFailed.

Inductive Result (A : Type) :=
  | Ok (a : A)
  | Raise (e : exn).
Arguments Ok {A} a.
Arguments Raise {A} e.

Class Monad (m : Type -> Type) := {
  ret : forall {A}, A -> m A;
  bind : forall {A B}, m A -> (A -> m B) -> m B
}.

Declare Scope monad_scope.
Delimit Scope monad_scope with monad.
Notation "'do' x <- c ; k" := (bind c (fun x => k))
  (at level 10, x name, c at level 100, k at level 200) : monad_scope.
Notation "'run' c ; k" := (bind c (fun _ => k))
  (at level 10, c at level 100, k at level 200) : monad_scope.
Local Open Scope monad_scope.

#[export] Instance Result_Monad : Monad Result := {|
  ret := fun A a => Ok a;
  bind := fun A B c k => match c with Ok a => k a | Raise e => Raise e end
|}.

(** [for x in l: acc.append(f(x))]. *)
Fixpoint mapM {m} `{Monad m} {A B} (f : A -> m B) (l : list A) : m (list B) :=
  match l with
  | [] => ret []
  | x :: l' => do y <- f x; do ys <- mapM f l'; ret (y :: ys)
  end.

(** [for x in l: f(x)]. *)
Fixpoint forM_ {m} `{Monad m} {A} (f : A -> m unit) (l : list A) : m unit :=
  match l with
  | [] => ret tt
  | x :: l' => run f x; forM_ f l'
  end.

(** ** Images

    A PIL image whose bands are 8 bits wide (modes L, P, LA, RGB, RGBA,
    CMYK, ...).  [Image.open] reads the header only: [width], [height] and
    [bands] are known at once, the pixel data are decoded at the first
    operation that needs them.  [pixels] is [None] when that decoding
    fails, else the rows, top to bottom, a pixel being the list of its band
    values. *)
Definition Pixel := list Z.

Record Image := {
  width : Z;
  height : Z;
  bands : nat;
  pixels : option (list (list Pixel))
}.

(** [img.load()]. *)
Definition load (img : Image) : Result (list (list Pixel)) :=
  match pixels img with
  | Some px => Ok px
  | None => Raise LoadFailed
  end.

(** PIL fills whatever a crop box takes from outside the image with
    zeros. *)
Definition blank_row (img : Image) : list Pixel :=
  repeat (repeat 0 (bands img)) (Z.to_nat (width img)).

Definition row_at (img : Image) (px : list (list Pixel)) (y : Z) : list Pixel :=
  if (0 <=? y) && (y <? height img)
  then nth (Z.to_nat y) px (blank_row img)
  else blank_row img.

(** [img.crop((0, y0, img.width, y1))]: the box is checked, the image is
    loaded, the rows [y0 .. y1 - 1] are copied. *)
Definition crop (img : Image) (y0 y1 : Z) : Result Image :=
  if y1 <? y0 then Raise CropValueError
  else
    do px <- load img;
    ret {| width := width img;
           height := y1 - y0;
           bands := bands img;
           pixels := Some (map (row_at img px) (py_range y0 y1)) |}.

(** ** numpy on one row

    [np.array(row)] has dtype uint8.  With one band it is a 2-d array and
    the script keeps working in uint8; with several bands it is a 3-d array
    and [np.mean(..., axis=2)] turns it into float64. *)

(** *** dtype uint8 / uint64 *)

(** [np.diff] on a uint8 vector: [a[i+1] - a[i]] in uint8, which wraps. *)
Fixpoint np_diff_u8 (a : list Z) : list Z :=
  match a with
  | x :: (y :: _) as tl => ((y - x) mod 256) :: np_diff_u8 tl
  | _ => []
  end.

(** [np.abs] on an unsigned dtype leaves every element as it is. *)
Definition np_abs_u8 (a : list Z) : list Z := a.

(** [np.sum] on uint8 accumulates in uint64. *)
Definition np_sum_u64 (a : list Z) : Z :=
  fold_left (fun acc v => (acc + v) mod 2 ^ 64) a 0.

(** ** Module constants *)
Record Config := {
  MAX_HEIGHT : Z;
  SPLIT_HEIGHT : Z;
  SEARCH_RANGE : Z;
  OVERLAP : Z
}.

(** The values written in the script. *)
Definition module_constants : Config :=
  {| MAX_HEIGHT := 3200; SPLIT_HEIGHT := 3000; SEARCH_RANGE := 100; OVERLAP := 50 |}.

(** ** What a run prints and does *)

(** A [pathlib.Path] with the two components the script reads. *)
Record Path := {
  path_name : string;
  stem : string;
  suffix : string
}.

(** One constructor per [print] call, holding the interpolated values. *)
Inductive Line :=
  | LoadingImage (p : string)
  | ImageSize (w h : Z)
  | NoNeedToSplit (h max_height : Z)
  | SplittingInto (n_splits : Z)
  | FindingPoints
  | SplitPoint (i target_y safe_y offset : Z)
  | SplittingTo (output_dir : string)
  | Part (i y_start y_end part_height : Z) (part_filename : string)
  | Done (n : Z).

Inductive FsEffect :=
  | Mkdir (dir : string)
  | Save (part_path : string) (part : Image) (quality : Z).

Record World := {
  stdout : list Line;
  fs_log : list FsEffect
}.

Definition empty_world : World := {| stdout := []; fs_log := [] |}.

(** How the surroundings answer: which files open as images, which
    directories can be made, which parts can be written. *)
Record Env := {
  image_at : string -> option Image;
  mkdir_ok : string -> bool;
  save_ok : string -> Image -> bool
}.

Definition IO (A : Type) : Type := World -> Result A * World.

#[export] Instance IO_Monad : Monad IO := {|
  ret := fun A a w => (Ok a, w);
  bind := fun A B c k w =>
    match c w with
    | (Ok a, w') => k a w'
    | (Raise e, w') => (Raise e, w')
    end
|}.

Definition lift {A} (r : Result A) : IO A := fun w => (r, w).

Definition raise {A} (e : exn) : IO A := lift (Raise e).

Definition print (l : Line) : IO unit :=
  fun w => (Ok tt, {| stdout := stdout w ++ [l]; fs_log := fs_log w |}).

Definition fs_do (e : FsEffect) : IO unit :=
  fun w => (Ok tt, {| stdout := stdout w; fs_log := fs_log w ++ [e] |}).

(** [f"{n:02d}"]. *)
Definition digit (d : Z) : string :=
  String (Ascii.ascii_of_nat (48 + Z.to_nat d)) EmptyString.

Fixpoint decimal (fuel : nat) (n : Z) : string :=
  match fuel with
  | O => EmptyString
  | S fuel' => if n <? 10 then digit n
               else (decimal fuel' (n / 10) ++ digit (n mod 10))%string
  end.

Definition format_02d (n : Z) : string :=
  if n <? 0 then ("-" ++ decimal (Z.to_nat (- n)) (- n))%string
  else if n <? 10 then ("0" ++ digit n)%string
  else decimal (Z.to_nat n) n.

Section Splitter.

(** *** dtype float64

    A float64 value is represented by the rational it denotes.  [fl] is the
    rounding numpy applies after each float64 operation (to nearest, ties
    to even, on 53 bits); it is a parameter of the development, so every
    result below holds whatever the rounding is.  Sums of band values are
    integers far below 2^53 and need no rounding. *)
Variable fl : Q -> Q.

(** [np.mean(row_array, axis=2)] for one pixel. *)
Definition np_mean (p : Pixel) : Q :=
  fl (inject_Z (fold_left Z.add p 0) / inject_Z (Z.of_nat (length p))).

(** [np.diff] on a float64 vector. *)
Fixpoint np_diff_f64 (a : list Q) : list Q :=
  match a with
  | x :: (y :: _) as tl => fl (y - x) :: np_diff_f64 tl
  | _ => []
  end.

Definition np_abs_f64 (a : list Q) : list Q := map Qabs a.

(** [np.sum] on a contiguous float64 vector.  numpy does not add from left
    to right: the inner loop of [add.reduce] adds the whole vector by
    pairwise summation ([DOUBLE_pairwise_sum], with [PW_BLOCKSIZE = 128]),
    and the result is added to the output, which starts as the identity 0.

    Fewer than 8 values are added from left to right, starting from zero.
    From 8 to 128 values, eight accumulators [r[0] .. r[7]] take the first
    eight values; every further whole block of eight is added to them lane
    by lane; the accumulators are then added as
    [((r0 + r1) + (r2 + r3)) + ((r4 + r5) + (r6 + r7))] and what is left,
    fewer than eight values, is added to that from left to right.  More
    than 128 values are cut in two at [n / 2] rounded down to a multiple
    of 8, and the sums of the two halves are added. *)
Record Lanes := {
  r_0 : Q; r_1 : Q; r_2 : Q; r_3 : Q; r_4 : Q; r_5 : Q; r_6 : Q; r_7 : Q
}.

(** [for (i = 8; i < n - (n % 8); i += 8) r[k] += a[i + k]], with the
    values not reached by the loop. *)
Fixpoint unrolled (r : Lanes) (a : list Q) : Lanes * list Q :=
  match a with
  | x0 :: x1 :: x2 :: x3 :: x4 :: x5 :: x6 :: x7 :: rest =>
      unrolled {| r_0 := fl (r_0 r + x0); r_1 := fl (r_1 r + x1);
                  r_2 := fl (r_2 r + x2); r_3 := fl (r_3 r + x3);
                  r_4 := fl (r_4 r + x4); r_5 := fl (r_5 r + x5);
                  r_6 := fl (r_6 r + x6); r_7 := fl (r_7 r + x7) |} rest
  | _ => (r, a)
  end.

(** The two branches for [n <= PW_BLOCKSIZE]. *)
Definition pairwise_block (a : list Q) : Q :=
  match a with
  | x0 :: x1 :: x2 :: x3 :: x4 :: x5 :: x6 :: x7 :: rest =>
      (* 8 <= n *)
      let (r, tail) :=
        unrolled {| r_0 := x0; r_1 := x1; r_2 := x2; r_3 := x3;
                    r_4 := x4; r_5 := x5; r_6 := x6; r_7 := x7 |} rest in
      fold_left (fun res v => fl (res + v)) tail
        (fl (fl (fl (r_0 r + r_1 r) + fl (r_2 r + r_3 r))
             + fl (fl (r_4 r + r_5 r) + fl (r_6 r + r_7 r))))
  | _ =>
      (* n < 8 *)
      fold_left (fun res v => fl (res + v)) a 0%Q
  end.

(** [n2 = n / 2; n2 -= n2 % 8]. *)
Definition half (n : nat) : nat := (n / 2 - (n / 2) mod 8)%nat.

(** The recursion of [pairwise_sum].  A half is shorter than the whole, so
    [fuel], which starts as the number of values, is never used up before
    a block of at most 128 values is reached ([pairwise_sum_unfold]
    below). *)
Fixpoint pairwise_sum (fuel : nat) (a : list Q) : Q :=
  match fuel with
  | S fuel' =>
      if (128 <? length a)%nat
      then fl (pairwise_sum fuel' (firstn (half (length a)) a)
               + pairwise_sum fuel' (skipn (half (length a)) a))
      else pairwise_block a
  | O => pairwise_block a
  end.

(** [np.sum(a)]: the reduction of an empty vector is the identity, and no
    addition is made. *)
Definition np_sum_f64 (a : list Q) : Q :=
  match a with
  | [] => 0%Q
  | _ => fl (0 + pairwise_sum (length a) a)
  end.

(** ** [compute_edge_strength] *)
Definition compute_edge_strength (img : Image) (y : Z) : Result Q :=
  (* row = img.crop((0, y, img.width, y + 1)) *)
  do px <- load img;
  let row := row_at img px y in
  if (1 <? bands img)%nat then
    (* len(row_array.shape) == 3 *)
    let row_pixels := map np_mean row in
    let diff := np_abs_f64 (np_diff_f64 row_pixels) in
    ret (np_sum_f64 diff)
  else
    let row_pixels := map (fun p => hd 0 p) row in
    let diff := np_abs_u8 (np_diff_u8 row_pixels) in
    ret (inject_Z (np_sum_u64 diff)).

(** ** [find_safe_split_point] *)

(** [edge_strength < min_edge], where [min_edge] starts as [float("inf")]
    ([None]) and later holds an edge strength seen before. *)
Definition lt_min_edge (e : Q) (min_edge : option Q) : bool :=
  match min_edge with
  | None => true
  | Some m => negb (Qle_bool m e)
  end.

(** The [for y in range(start_y, end_y)] loop on [(min_edge, best_y)]. *)
Fixpoint scan (img : Image) (ys : list Z) (st : option Q * Z) : Result (option Q * Z) :=
  match ys with
  | [] => ret st
  | y :: ys' =>
      do edge_strength <- compute_edge_strength img y;
      if lt_min_edge edge_strength (fst st)
      then scan img ys' (Some edge_strength, y)
      else scan img ys' st
  end.

Definition find_safe_split_point (img : Image) (target_y search_range : Z) : Result Z :=
  let start_y := Z.max 0 (target_y - search_range) in
  let end_y := Z.min (height img) (target_y + search_range) in
  do st <- scan img (py_range start_y end_y) (None, target_y);
  ret (snd st).

(** ** [split_long_image] *)
Variable cfg : Config.
Variable env : Env.

Definition Image_open (p : Path) : IO Image :=
  match image_at env (path_name p) with
  | Some img => ret img
  | None => raise OpenFailed
  end.

Definition mkdir (dir : string) : IO unit :=
  if mkdir_ok env dir then fs_do (Mkdir dir) else raise MkdirFailed.

Definition save (part : Image) (part_path : string) (quality : Z) : IO unit :=
  if save_ok env part_path part then fs_do (Save part_path part quality)
  else raise SaveFailed.

(** The crop box of part [i] (0-based), with the overlap. *)
Definition part_box (boundaries : list Z) (height i : Z) : Z * Z :=
  let len := Z.of_nat (length boundaries) in
  if i =? 0 then
    (0, Z.min (nth (Z.to_nat (i + 1)) boundaries 0 + OVERLAP cfg) height)
  else if i =? len - 2 then
    (Z.max (nth (Z.to_nat i) boundaries 0 - OVERLAP cfg) 0, height)
  else
    (Z.max (nth (Z.to_nat i) boundaries 0 - OVERLAP cfg) 0,
     Z.min (nth (Z.to_nat (i + 1)) boundaries 0 + OVERLAP cfg) height).

(** Body of the loop over [enumerate(target_split_points, 1)]. *)
Definition resolve_split_point (img : Image) (it : Z * Z) : IO Z :=
  let (i, target_y) := it in
  do safe_y <- lift (find_safe_split_point img target_y (SEARCH_RANGE cfg));
  run print (SplitPoint i target_y safe_y (safe_y - target_y));
  ret safe_y.

(** Body of the loop over [range(len(boundaries) - 1)]. *)
Definition write_part (img : Image) (input_path : Path) (output_dir : string)
    (boundaries : list Z) (i : Z) : IO unit :=
  let stem := stem input_path in
  let ext := suffix input_path in
  let (y_start, y_end) := part_box boundaries (height img) i in
  do part <- lift (crop img y_start y_end);
  let part_filename := (stem ++ "_part" ++ format_02d (i + 1) ++ ext)%string in
  let part_path := (output_dir ++ "/" ++ part_filename)%string in
  run save part part_path 95;
  let part_height := y_end - y_start in
  print (Part (i + 1) y_start y_end part_height part_filename).

Definition split_long_image (input_path : Path) (output_dir : string) : IO unit :=
  run print (LoadingImage (path_name input_path));
  do img <- Image_open input_path;
  let width := width img in
  let height := height img in
  run print (ImageSize width height);
  if height <=? MAX_HEIGHT cfg then
    print (NoNeedToSplit height (MAX_HEIGHT cfg))
  else
    do n_splits <- match py_ceil_div height (SPLIT_HEIGHT cfg) with
                   | Some n => ret n
                   | None => raise ZeroDivisionError
                   end;
    run print (SplittingInto n_splits);
    let target_split_points :=
      map (fun i => SPLIT_HEIGHT cfg * i) (py_range 1 n_splits) in
    run print FindingPoints;
    do actual_split_points <-
      mapM (resolve_split_point img) (enumerate target_split_points 1);
    run mkdir output_dir;
    run print (SplittingTo output_dir);
    let boundaries := [0] ++ actual_split_points ++ [height] in
    run forM_ (write_part img input_path output_dir boundaries)
              (py_range 0 (Z.of_nat (length boundaries) - 1));
    print (Done (Z.of_nat (length boundaries) - 1)).

End Splitter.

(** * Vocabulary of the statements

    Values read off the model and observations of a run, for use in the
    statements and proofs below. *)

(** ** Edge strength and window of a decoded image *)

Section AnalysisVocabulary.

Variable fl : Q -> Q.
Variable img : Image.

(** The value [compute_edge_strength] returns for row [y]. *)
Definition edge_of (y : Z) : Q :=
  match compute_edge_strength fl img y with
  | Ok e => e
  | Raise _ => 0%Q
  end.

(** The loop body once the row has been read. *)
Definition scan_step (st : option Q * Z) (y : Z) : option Q * Z :=
  if lt_min_edge (edge_of y) (fst st) then (Some (edge_of y), y) else st.

(** State of the scan after the rows [lo .. k-1]: nothing yet, or the
    first row of least edge strength among them. *)
Definition scanned (lo k target_y : Z) (st : option Q * Z) : Prop :=
  match fst st with
  | None => k <= lo /\ snd st = target_y
  | Some m =>
      m = edge_of (snd st) /\ lo <= snd st < k /\
      (forall y, lo <= y < k -> (m <= edge_of y)%Q) /\
      (forall y, lo <= y < snd st -> (m < edge_of y)%Q)
  end.

(** The window of [find_safe_split_point]. *)
Definition start_of (target_y search_range : Z) : Z :=
  Z.max 0 (target_y - search_range).

Definition end_of (target_y search_range : Z) : Z :=
  Z.min (height img) (target_y + search_range).

(** The row [find_safe_split_point] returns. *)
Definition safe_of (target_y search_range : Z) : Z :=
  match find_safe_split_point fl img target_y search_range with
  | Ok best => best
  | Raise _ => target_y
  end.

End AnalysisVocabulary.

(** ** Worlds *)

(** The world after printing [ls] and doing [es]. *)
Definition emit (ls : list Line) (es : list FsEffect) (w : World) : World :=
  {| stdout := stdout w ++ ls; fs_log := fs_log w ++ es |}.

(** A program that leaves the file system alone, whatever it returns. *)
Definition fs_silent {A} (c : IO A) : Prop :=
  forall w r w', c w = (r, w') -> fs_log w' = fs_log w.

(** A program that only adds to the record of file-system effects. *)
Definition fs_extends {A} (c : IO A) : Prop :=
  forall w r w', c w = (r, w') -> exists es, fs_log w' = fs_log w ++ es.


(** ** The plan of a split and the trace of its run *)

(** The boundary sequence built from the cuts [actual] of an image of
    height [h]. *)
Definition sequence_of (actual : list Z) (h : Z) : list Z := [0] ++ actual ++ [h].

Section RunVocabulary.

Variable fl : Q -> Q.
Variable cfg : Config.
Variable env : Env.

(** The lines the loop prints. *)
Fixpoint split_lines (k : Z) (ts actual : list Z) : list Line :=
  match ts, actual with
  | t :: ts', a :: actual' => SplitPoint k t a (a - t) :: split_lines (k + 1) ts' actual'
  | _, _ => []
  end.

Definition part_filename (input_path : Path) (i : Z) : string :=
  (stem input_path ++ "_part" ++ format_02d (i + 1) ++ suffix input_path)%string.

Definition part_line (input_path : Path) (boundaries : list Z) (h i : Z) : Line :=
  let (y_start, y_end) := part_box cfg boundaries h i in
  Part (i + 1) y_start y_end (y_end - y_start) (part_filename input_path i).

(** The rows [y0 .. y1 - 1] of a decoded image, as a new image. *)
Definition rows_of (img : Image) (px : list (list Pixel)) (box : Z * Z) : Image :=
  {| width := width img; height := snd box - fst box; bands := bands img;
     pixels := Some (map (row_at img px) (py_range (fst box) (snd box))) |}.

Definition part_effect (img : Image) (px : list (list Pixel)) (input_path : Path)
    (output_dir : string) (boundaries : list Z) (i : Z) : FsEffect :=
  Save (output_dir ++ "/" ++ part_filename input_path i)%string
       (rows_of img px (part_box cfg boundaries (height img) i)) 95.

(** [ceil(h / SPLIT_HEIGHT)] for a positive [SPLIT_HEIGHT]. *)
Definition n_splits_of (h : Z) : Z := - ((- h) / SPLIT_HEIGHT cfg).

Definition targets_of (h : Z) : list Z :=
  map (fun i => SPLIT_HEIGHT cfg * i) (py_range 1 (n_splits_of h)).

Definition actual_of (img : Image) : list Z :=
  map (fun t => safe_of fl img t (SEARCH_RANGE cfg)) (targets_of (height img)).

Definition boundaries_of (img : Image) : list Z :=
  [0] ++ actual_of img ++ [height img].

(** Constants under which every crop box of the plan is a box. *)
Definition well_configured : Prop :=
  0 <= MAX_HEIGHT cfg /\ 0 < SPLIT_HEIGHT cfg /\ 0 <= OVERLAP cfg /\
  2 * SEARCH_RANGE cfg <= SPLIT_HEIGHT cfg + 2 * OVERLAP cfg.

(** The crop box of part [i] of the plan, in one formula. *)
Definition box_of (img : Image) (i : Z) : Z * Z :=
  let bs := boundaries_of img in
  (if i =? 0 then 0 else Z.max (nth (Z.to_nat i) bs 0 - OVERLAP cfg) 0,
   if i =? n_splits_of (height img) - 1 then height img
   else Z.min (nth (Z.to_nat (i + 1)) bs 0 + OVERLAP cfg) (height img)).

Definition report (input_path : Path) (output_dir : string) (img : Image) : list Line :=
  let h := height img in
  [LoadingImage (path_name input_path); ImageSize (width img) h;
   SplittingInto (n_splits_of h); FindingPoints]
  ++ split_lines 1 (targets_of h) (actual_of img)
  ++ [SplittingTo output_dir]
  ++ map (part_line input_path (boundaries_of img) h) (py_range 0 (n_splits_of h))
  ++ [Done (n_splits_of h)].

Definition effects (input_path : Path) (output_dir : string) (img : Image)
    (px : list (list Pixel)) : list FsEffect :=
  Mkdir output_dir
  :: map (part_effect img px input_path output_dir (boundaries_of img))
         (py_range 0 (n_splits_of (height img))).

(** Everything after the analysis loop. *)
Definition write_phase (img : Image) (input_path : Path) (output_dir : string)
    (actual_split_points : list Z) : IO unit :=
  run mkdir env output_dir;
  run print (SplittingTo output_dir);
  let boundaries := [0] ++ actual_split_points ++ [height img] in
  run forM_ (write_part cfg env img input_path output_dir boundaries)
            (py_range 0 (Z.of_nat (length boundaries) - 1));
  print (Done (Z.of_nat (length boundaries) - 1)).

(** All the searches of the plan end normally. *)
Definition all_resolved (img : Image) : Prop :=
  exists n,
    py_ceil_div (height img) (SPLIT_HEIGHT cfg) = Some n /\
    forall i, 1 <= i < n ->
      exists safe_y,
        find_safe_split_point fl img (SPLIT_HEIGHT cfg * i) (SEARCH_RANGE cfg)
        = Ok safe_y.

End RunVocabulary.

(** ** What a run leaves behind *)

(** The [(y_start, y_end)] of the parts reported on stdout, in order. *)
Definition part_boxes (ls : list Line) : list (Z * Z) :=
  flat_map (fun l => match l with
                     | Part _ y_start y_end _ _ => [(y_start, y_end)]
                     | _ => []
                     end) ls.

(** The [(index, target_y, safe_y)] of the split points reported. *)
Definition split_points (ls : list Line) : list (Z * Z * Z) :=
  flat_map (fun l => match l with
                     | SplitPoint i target_y safe_y _ => [(i, target_y, safe_y)]
                     | _ => []
                     end) ls.

(** The images written, in order. *)
Definition saved_parts (es : list FsEffect) : list Image :=
  flat_map (fun e => match e with
                     | Save _ part _ => [part]
                     | Mkdir _ => []
                     end) es.

(** The boxes cover exactly the rows [0 .. h - 1]. *)
Definition covers (h : Z) (boxes : list (Z * Z)) : Prop :=
  forall y, 0 <= y < h <-> exists b, In b boxes /\ fst b <= y < snd b.

(** Each box starts no later than the one before it ends. *)
Definition chained (boxes : list (Z * Z)) : Prop :=
  forall k, (S k < length boxes)%nat ->
    fst (nth (S k) boxes (0, 0)) <= snd (nth k boxes (0, 0)).

(** The surroundings let the run through: the input opens as [img], the
    output directory can be made and every part can be written. *)
Definition cooperative (env : Env) (input_path : Path) (output_dir : string)
    (img : Image) : Prop :=
  image_at env (path_name input_path) = Some img /\
  mkdir_ok env output_dir = true /\
  forall q part, save_ok env q part = true.

(** ** The specification's edge strength

    Written from the words of the specification, to be compared with
    [compute_edge_strength]: the luminance of a pixel is the mean of its
    band values (the value itself when there is one band), and the edge
    strength of a row is the sum of the absolute differences of adjacent
    luminances. *)
Definition luminance (p : Pixel) : Q :=
  inject_Z (fold_left Z.add p 0) / inject_Z (Z.of_nat (length p)).

Fixpoint adjacent_differences (a : list Q) : list Q :=
  match a with
  | x :: (y :: _) as tl => Qabs (y - x) :: adjacent_differences tl
  | _ => []
  end.

Definition spec_edge_strength (img : Image) (px : list (list Pixel)) (y : Z) : Q :=
  fold_right Qplus 0%Q (adjacent_differences (map luminance (row_at img px y))).

(** ** Sample inputs *)

(** A one-band image whose pixel at column [x] of row [y] is [f x y]. *)
Definition gray_rows (w h : Z) (f : Z -> Z -> Z) : list (list Pixel) :=
  map (fun y => map (fun x => [f x y]) (py_range 0 w)) (py_range 0 h).

Definition gray_image (w h : Z) (f : Z -> Z -> Z) : Image :=
  {| width := w; height := h; bands := 1; pixels := Some (gray_rows w h f) |}.

(** Two pixels, the darker one on the right. *)
Definition falling_pair : Image := gray_image 2 1 (fun x _ => if x =? 0 then 10 else 5).

(** Ten rows of three pixels; rows 4 and 6 are uniform. *)
Definition strip_fn (x y : Z) : Z := if (y =? 4) || (y =? 6) then 7 else x * y.
Definition strip : Image := gray_image 3 10 strip_fn.

(** A 2 x 3600 screenshot whose only uniform row is row 2950. *)
Definition tall_fn (x y : Z) : Z := if y =? 2950 then 7 else x.
Definition tall : Image := gray_image 2 3600 tall_fn.

(** The same file with damaged pixel data. *)
Definition tall_damaged : Image :=
  {| width := 2; height := 3600; bands := 1; pixels := None |}.

(** A 1 x 2 image. *)
Definition tiny : Image := gray_image 1 2 (fun _ y => y).

Definition sample_path : Path :=
  {| path_name := "data/shot.png"; stem := "shot"; suffix := ".png" |}.

(** Surroundings where [sample_path] holds [img] and every directory and
    file can be written. *)
Definition friendly (img : Image) : Env :=
  {| image_at := fun p => if String.eqb p "data/shot.png" then Some img else None;
     mkdir_ok := fun _ => true;
     save_ok := fun _ _ => true |}.



(** Small constants with an overlap of one row. *)
Definition one_row_overlap : Config :=
  {| MAX_HEIGHT := 5; SPLIT_HEIGHT := 3; SEARCH_RANGE := 1; OVERLAP := 1 |}.


(** Floats that never round. *)
Definition exact (q : Q) : Q := q.

(** ** Rows of a one-band image *)

(** The band values of row [y], as the script reads them on the one-band
    path. *)
Definition gray_values (img : Image) (px : list (list Pixel)) (y : Z) : list Z :=
  map (fun p => hd 0 p) (row_at img px y).

(** The values never fall from left to right. *)
Fixpoint rising (l : list Z) : bool :=
  match l with
  | x :: (y :: _) as tl => (x <=? y) && rising tl
  | _ => true
  end.

(** ** Reading a part number back *)

Definition digit_value (c : Ascii.ascii) : Z := Z.of_nat (Ascii.nat_of_ascii c) - 48.

Fixpoint parse_decimal_from (acc : Z) (s : string) : Z :=
  match s with
  | EmptyString => acc
  | String c s' => parse_decimal_from (acc * 10 + digit_value c) s'
  end.

(** [int(s)] for a string of decimal digits. *)
Definition parse_decimal (s : string) : Z := parse_decimal_from 0 s.

(** The path a part is saved under. *)
Definition part_path (input_path : Path) (output_dir : string) (i : Z) : string :=
  (output_dir ++ "/" ++ part_filename input_path i)%string.

(** Surroundings like [friendly], except that the file [refused] cannot be
    written. *)
Definition disk_refusing (img : Image) (refused : string) : Env :=
  {| image_at := fun p => if String.eqb p "data/shot.png" then Some img else None;
     mkdir_ok := fun _ => true;
     save_ok := fun q _ => negb (String.eqb q refused) |}.

(** Surroundings like [friendly], except that no directory can be made. *)
Definition no_mkdir (img : Image) : Env :=
  {| image_at := fun p => if String.eqb p "data/shot.png" then Some img else None;
     mkdir_ok := fun _ => false;
     save_ok := fun _ _ => true |}.

(** * [geocode.py]: batch lookup of hotel coordinates

    The script reads rows from a CSV file, asks the Baidu Place API for each
    hotel and writes the records found as JSON.  The network, the file
    system, the clock and the few library functions whose result only
    matters through a test ([float], [str.strip], [Path.parent]) are
    oracles of the surroundings; everything the script decides itself is
    modelled here. *)

(** [for x in l: state = f(state, x)]. *)
Fixpoint foldM {m} `{Monad m} {S A} (f : S -> A -> m S) (l : list A) (s : S) : m S :=
  match l with
  | [] => ret s
  | x :: l' => do s' <- f s x; foldM f l' s'
  end.

Module Geocode.

Local Open Scope string_scope.
Local Open Scope list_scope.
Local Open Scope Z_scope.

(** ** Python values *)

(** A Python float. *)
Inductive pyfloat :=
  | Finite (q : Q)
  | PosInf
  | NegInf
  | NaN.

(** What [response.json()] returns: [None], [bool], [int], [float], [str],
    [list], [dict] (its entries in order, the first entry of a key being
    the one [get] finds). *)
#[local] Unset Elimination Schemes.
Inductive json :=
  | JNull
  | JBool (b : bool)
  | JInt (n : Z)
  | JFloat (f : pyfloat)
  | JStr (s : string)
  | JList (l : list json)
  | JDict (d : list (string * json)).
#[local] Set Elimination Schemes.

(** A dictionary with [str] keys. *)
Definition pydict := list (string * json).

Fixpoint assoc {A} (d : list (string * A)) (key : string) : option A :=
  match d with
  | [] => None
  | (k, v) :: d' => if String.eqb k key then Some v else assoc d' key
  end.

(** ** Exceptions *)

Inductive exn :=
  | ConfigMissing                      (* RuntimeError of validate_config *)
  | ApiError (status msg : json)       (* RuntimeError: status is not 0 *)
  | NetworkFailed (e : exn)            (* RuntimeError wrapping a RequestException *)
  | HotelNotFound (name city : string) (* ValueError: no result *)
  | EmptyCsv                           (* ValueError: no row *)
  | InputMissing (input_file : string) (* FileNotFoundError *)
  | ConnectionFailed                   (* RequestException raised by requests.get *)
  | HTTPError (status_code : Z)        (* RequestException of raise_for_status *)
  | JSONDecodeError                    (* RequestException of response.json() *)
  | BadFloat (s : string)              (* ValueError of float(s) *)
  | AttributeError
  | TypeError
  | KeyError
  | FormatError                        (* ValueError of format(str, ".6f") *)
  | OverflowError
  | SleepRefused                       (* time.sleep of a negative or huge delay *)
  | LibraryError                       (* anything else a library call raises *)
  | OSError.                           (* the file system refuses *)

(** The classes [except requests.RequestException] catches. *)
Definition is_request_exception (e : exn) : bool :=
  match e with
  | ConnectionFailed | HTTPError _ | JSONDecodeError => true
  | _ => false
  end.

Inductive Result (A : Type) :=
  | Ok (a : A)
  | Raise (e : exn).
Arguments Ok {A} a.
Arguments Raise {A} e.

#[export] Instance Result_Monad : Monad Result := {|
  ret := fun A a => Ok a;
  bind := fun A B c k => match c with Ok a => k a | Raise e => Raise e end
|}.

(** ** Operations on Python values *)

(** [v.get(key, default)]: only a [dict] has it. *)
Definition py_get (v : json) (key : string) (default : json) : Result json :=
  match v with
  | JDict d => Ok (match assoc d key with Some x => x | None => default end)
  | _ => Raise AttributeError
  end.

Definition is_zero (f : pyfloat) : bool :=
  match f with
  | Finite q => Qeq_bool q 0
  | _ => false
  end.

(** [v != 0]. *)
Definition ne_zero (v : json) : bool :=
  match v with
  | JInt n => negb (n =? 0)
  | JFloat f => negb (is_zero f)
  | JBool b => b
  | _ => true
  end.

(** [bool(v)]. *)
Definition truthy (v : json) : bool :=
  match v with
  | JNull => false
  | JBool b => b
  | JInt n => negb (n =? 0)
  | JFloat f => negb (is_zero f)
  | JStr s => negb (String.eqb s "")
  | JList l => match l with [] => false | _ => true end
  | JDict d => match d with [] => false | _ => true end
  end.

(** [v[0]]: the first element of a list, the first character of a string;
    a dict from JSON has no key [0], a number cannot be indexed. *)
Definition py_index0 (v : json) : Result json :=
  match v with
  | JList (x :: _) => Ok x
  | JList [] => Raise LibraryError
  | JStr (String c _) => Ok (JStr (String c EmptyString))
  | JStr EmptyString => Raise LibraryError
  | JDict _ => Raise KeyError
  | _ => Raise TypeError
  end.

(** [format(v, ".6f")]: numbers and booleans have it, unless an [int] is
    too large for a float. *)
Definition format_6f (v : json) : Result unit :=
  match v with
  | JInt n => if Z.abs n <? 2 ^ 1024 - 2 ^ 970 then Ok tt else Raise OverflowError
  | JFloat _ | JBool _ => Ok tt
  | JStr _ => Raise FormatError
  | JNull | JList _ | JDict _ => Raise TypeError
  end.

(** ** Surroundings, events and the [IO] monad *)

(** A CSV row as [csv.DictReader] gives it: a field the row is too short
    for is [None]. *)
Definition Row := list (string * option string).

Inductive Reason :=
  | Incomplete
  | Raised (e : exn).

(** An entry of [failed]. *)
Record Failure := {
  row : Z;
  reason : Reason;
  name : string;
  city : string
}.

Inductive Line :=
  | ReadingCsv (input_file : string)
  | RowCount (n : Z)
  | Skipping (i : Z) (name city : string)
  | Searching (i total : Z) (name city : string)
  | Found (lng lat : json)
  | NotFound (e : exn)
  | Separator
  | Finished
  | Succeeded (n : Z)
  | FailedCount (n : Z)
  | OutputFile (output_file : string)
  | FailedHeader
  | FailedItem (item : Failure)
  | ConfigError (e : exn)
  | Usage
  | Example
  | ErrorLine (e : exn).

Inductive HttpOutcome :=
  | GetRaises (e : exn)
  | Response (status_code : Z) (body : option json).

Inductive Event :=
  | Print (l : Line)
  | Get (url : string) (params : pydict) (timeout : pyfloat)
  | Sleep (delay : pyfloat)
  | Mkdir (dir : string)
  | WriteJson (output_file : string) (results : list pydict).

Record Env := {
  environ : string -> option string;
  parse_float : string -> option pyfloat;
  str_strip : string -> string;
  http_get : list Event -> string -> pydict -> pyfloat -> HttpOutcome;
  sleep_ok : pyfloat -> bool;
  file_exists : string -> bool;
  csv_rows : string -> option (list Row);
  path_parent : string -> string;
  mkdir_ok : string -> bool;
  write_ok : string -> bool
}.

(** The state is the trace of events so far, oldest first. *)
Definition IO (A : Type) : Type := list Event -> Result A * list Event.

#[export] Instance IO_Monad : Monad IO := {|
  ret := fun A a w => (Ok a, w);
  bind := fun A B c k w =>
    match c w with
    | (Ok a, w') => k a w'
    | (Raise e, w') => (Raise e, w')
    end
|}.

Definition lift {A} (r : Result A) : IO A := fun w => (r, w).

Definition raise {A} (e : exn) : IO A := lift (Raise e).

Definition emit (e : Event) : IO unit := fun w => (Ok tt, w ++ [e]).

Definition print (l : Line) : IO unit := emit (Print l).

Section Script.

Variable env : Env.

(** [float(s)]. *)
Definition py_float (s : string) : Result pyfloat :=
  match parse_float env s with
  | Some f => Ok f
  | None => Raise (BadFloat s)
  end.

(** [time.sleep(delay)]. *)
Definition sleep (delay : pyfloat) : IO unit :=
  if sleep_ok env delay then emit (Sleep delay) else raise SleepRefused.

(** [requests.get(url, params=params, timeout=timeout)]. *)
Definition requests_get (url : string) (params : pydict) (timeout : pyfloat)
    : IO (Z * option json) :=
  fun w =>
    match http_get env w url params timeout with
    | GetRaises e => (Raise e, w ++ [Get url params timeout])
    | Response status_code body => (Ok (status_code, body), w ++ [Get url params timeout])
    end.

Definition raise_for_status (response : Z * option json) : Result unit :=
  if (400 <=? fst response) && (fst response <? 600)
  then Raise (HTTPError (fst response))
  else Ok tt.

Definition response_json (response : Z * option json) : Result json :=
  match snd response with
  | Some data => Ok data
  | None => Raise JSONDecodeError
  end.

(** ** [get_config] and [validate_config] *)

Definition get_config (key default : string) : string :=
  match environ env key with
  | Some v => v
  | None => default
  end.

Definition validate_config : Result unit :=
  let ak := get_config "BAIDU_SERVER_AK" "" in
  if String.eqb ak "" || String.eqb ak "YOUR_SERVER_AK_HERE"
  then Raise ConfigMissing
  else Ok tt.

(** ** [search_hotel] *)

(** The body of the [try]. *)
Definition lookup (url : string) (params : pydict) (timeout : pyfloat)
    (name city : string) : IO pydict :=
  do response <- requests_get url params timeout;
  run lift (raise_for_status response);
  do data <- lift (response_json response);
  do status <- lift (py_get data "status" JNull);
  if ne_zero status then
    do msg <- lift (py_get data "message" (JStr "未知错误"));
    raise (ApiError status msg)
  else
    do results <- lift (py_get data "results" JNull);
    if negb (truthy results) then raise (HotelNotFound name city)
    else
      do poi <- lift (py_index0 results);
      do location <- lift (py_get poi "location" (JDict []));
      do uid <- lift (py_get poi "uid" JNull);
      do poi_name <- lift (py_get poi "name" (JStr name));
      do province <- lift (py_get poi "province" (JStr ""));
      do area <- lift (py_get poi "area" (JStr ""));
      do address <- lift (py_get poi "address" (JStr ""));
      do lng <- lift (py_get location "lng" JNull);
      do lat <- lift (py_get location "lat" JNull);
      do telephone <- lift (py_get poi "telephone" (JStr ""));
      do detail_info <- lift (py_get poi "detail_info" (JDict []));
      ret [("uid", uid); ("name", poi_name); ("city", JStr city);
           ("province", province); ("area", area); ("address", address);
           ("lng", lng); ("lat", lat); ("telephone", telephone);
           ("detail_info", detail_info)].

Definition search_hotel (name city : string) : IO pydict :=
  let api_base := get_config "BAIDU_PLACE_API_BASE" "https://api.map.baidu.com/place/v3" in
  let url := (api_base ++ "/region")%string in
  let params :=
    [("query", JStr name); ("region", JStr city); ("region_limit", JStr "true");
     ("filter", JStr "industry_type:hotel"); ("scope", JInt 1); ("page_size", JInt 1);
     ("output", JStr "json"); ("ak", JStr (get_config "BAIDU_SERVER_AK" ""))] in
  do timeout <- lift (py_float (get_config "REQUEST_TIMEOUT" "10"));
  fun w =>
    match lookup url params timeout name city w with
    | (Raise e, w') =>
        if is_request_exception e then (Raise (NetworkFailed e), w')
        else (Raise e, w')
    | ok => ok
    end.

(** ** [process_csv] *)

(** [row.get(key, "").strip()]. *)
Definition field (r : Row) (key : string) : Result string :=
  match assoc r key with
  | Some (Some v) => Ok (str_strip env v)
  | Some None => Raise AttributeError
  | None => Ok (str_strip env "")
  end.

(** [result[key]] for a key of the record. *)
Definition item (result : pydict) (key : string) : Result json :=
  match assoc result key with
  | Some v => Ok v
  | None => Raise KeyError
  end.

(** The [except Exception] branch; [results] is as the [try] left it. *)
Definition record_failure (delay : pyfloat) (i : Z) (name city : string) (e : exn)
    (results : list pydict) (failed : list Failure)
    : IO (list pydict * list Failure) :=
  run print (NotFound e);
  let failed := failed ++ [{| row := i; reason := Raised e; name := name; city := city |}] in
  run sleep delay;
  ret (results, failed).

(** What follows [results.append(result)] inside the [try]. *)
Definition report_found (delay : pyfloat) (result : pydict) : IO unit :=
  do lng <- lift (item result "lng");
  run lift (format_6f lng);
  do lat <- lift (item result "lat");
  run lift (format_6f lat);
  run print (Found lng lat);
  sleep delay.

(** One turn of the loop over [enumerate(rows, 1)]. *)
Definition process_row (total : Z) (delay : pyfloat)
    (st : list pydict * list Failure) (it : Z * Row) : IO (list pydict * list Failure) :=
  let (results, failed) := st in
  let (i, r) := it in
  do name <- lift (field r "name");
  do city <- lift (field r "city");
  if String.eqb name "" || String.eqb city "" then
    run print (Skipping i name city);
    ret (results,
         failed ++ [{| row := i; reason := Incomplete; name := name; city := city |}])
  else
    run print (Searching i total name city);
    fun w =>
      match search_hotel name city w with
      | (Ok result, w1) =>
          let results := results ++ [result] in
          match report_found delay result w1 with
          | (Ok _, w2) => (Ok (results, failed), w2)
          | (Raise e, w2) => record_failure delay i name city e results failed w2
          end
      | (Raise e, w1) => record_failure delay i name city e results failed w1
      end.

Definition mkdir (dir : string) : IO unit :=
  if mkdir_ok env dir then emit (Mkdir dir) else raise OSError.

(** [with open(output_path, "w") as f: json.dump(results, f, ...)]. *)
Definition write_json (output_file : string) (results : list pydict) : IO unit :=
  if write_ok env output_file then emit (WriteJson output_file results) else raise OSError.

Definition process_csv (input_file output_file : string)
    : IO (list pydict * list Failure) :=
  if negb (file_exists env input_file) then raise (InputMissing input_file)
  else
    run print (ReadingCsv input_file);
    do rows <- match csv_rows env input_file with
               | Some rows => ret rows
               | None => raise OSError
               end;
    match rows with
    | [] => raise EmptyCsv
    | _ =>
        run print (RowCount (Z.of_nat (length rows)));
        do delay <- lift (py_float (get_config "REQUEST_DELAY" "0.1"));
        do st <- foldM (process_row (Z.of_nat (length rows)) delay)
                       (enumerate rows 1) ([], []);
        let (results, failed) := st in
        run mkdir (path_parent env output_file);
        run write_json output_file results;
        run print Separator;
        run print Finished;
        run print (Succeeded (Z.of_nat (length results)));
        run print (FailedCount (Z.of_nat (length failed)));
        run print (OutputFile output_file);
        run match failed with
            | [] => ret tt
            | _ => run print FailedHeader; forM_ (fun it => print (FailedItem it)) failed
            end;
        ret (results, failed)
    end.

(** ** [main] *)

(** How [main] ends: by returning, or by [sys.exit(code)]. *)
Inductive Exit :=
  | Returns
  | SystemExit (code : Z).

Definition main (argv : list string) : list Event -> Exit * list Event :=
  fun w =>
    match validate_config with
    | Raise e => (SystemExit 1, w ++ [Print (ConfigError e)])
    | Ok _ =>
        match argv with
        | [] | [_] => (SystemExit 1, w ++ [Print Usage; Print Example])
        | _ :: input_file :: rest =>
            let output_file := match rest with
                               | output_file :: _ => output_file
                               | [] => "output/hotels.json"%string
                               end in
            match process_csv input_file output_file w with
            | (Ok _, w') => (Returns, w')
            | (Raise e, w') => (SystemExit 1, w' ++ [Print (ErrorLine e)])
            end
        end
    end.

End Script.

(** ** Observations of a trace *)

Definition requests_in (evs : list Event) : nat :=
  length (List.filter (fun e => match e with Get _ _ _ => true | _ => false end) evs).

Definition sleeps_in (evs : list Event) : nat :=
  length (List.filter (fun e => match e with Sleep _ => true | _ => false end) evs).

Definition writes_in (evs : list Event) : list (string * list pydict) :=
  flat_map (fun e => match e with WriteJson f r => [(f, r)] | _ => [] end) evs.

(** ** Vocabulary of the statements *)

(** A program that adds nothing to the trace. *)
Definition silent {A} (c : IO A) : Prop :=
  forall w r w', c w = (r, w') -> w' = w.

(** The [except requests.RequestException] clause, on the outcome of the
    [try]. *)
Definition wrapped {A} (r : Result A) : Result A :=
  match r with
  | Raise e => if is_request_exception e then Raise (NetworkFailed e) else Raise e
  | Ok a => Ok a
  end.

(** Rate limiting: no request is sent while the one before it has not been
    followed by a pause.  [throttle pending evs] is [None] when the trace
    breaks this, and otherwise tells whether a request is still waiting for
    its pause at the end. *)
Fixpoint throttle (pending : bool) (evs : list Event) : option bool :=
  match evs with
  | [] => Some pending
  | Get _ _ _ :: evs' => if pending then None else throttle true evs'
  | Sleep _ :: evs' => throttle false evs'
  | _ :: evs' => throttle pending evs'
  end.

(** What one turn of the loop that returns has done. *)
Definition turn_ok (i : Z) (rs : list pydict) (fs : list Failure) (evs : list Event) : Prop :=
  (length rs <= 1)%nat /\ (length fs <= 1)%nat /\ (1 <= length rs + length fs)%nat /\
  Forall (fun f => row f = i) fs /\
  (length rs <= requests_in evs)%nat /\
  (requests_in evs <= sleeps_in evs)%nat /\ (sleeps_in evs <= 1)%nat /\
  writes_in evs = [] /\ throttle false evs = Some false.

(** What the loop over [n] rows numbered from [k] has done when it ends. *)
Definition loop_ok (k : Z) (n : nat) (rs : list pydict) (fs : list Failure)
    (evs : list Event) : Prop :=
  (n <= length rs + length fs)%nat /\
  (length rs <= requests_in evs)%nat /\
  (requests_in evs <= sleeps_in evs)%nat /\ (sleeps_in evs <= n)%nat /\
  (length fs <= n)%nat /\
  Forall (fun f => k <= row f < k + Z.of_nat n) fs /\
  StronglySorted Z.lt (map row fs) /\
  writes_in evs = [] /\ throttle false evs = Some false.

(** The report that ends [process_csv]. *)
Definition summary (output_file : string) (results : list pydict) (failed : list Failure)
    : list Event :=
  [Print Separator; Print Finished;
   Print (Succeeded (Z.of_nat (length results)));
   Print (FailedCount (Z.of_nat (length failed)));
   Print (OutputFile output_file)]
  ++ match failed with
     | [] => []
     | _ => Print FailedHeader :: map (fun it => Print (FailedItem it)) failed
     end.

(** The requests of a trace: where each went and what it carried. *)
Definition gets_in (evs : list Event) : list (string * pydict) :=
  flat_map (fun e => match e with Get url params _ => [(url, params)] | _ => [] end) evs.

(** [traced Q c]: whatever [c] does, the events it adds satisfy [Q]. *)
Definition traced {A} (Q : list Event -> Prop) (c : IO A) : Prop :=
  forall w r w', c w = (r, w') -> exists evs, w' = w ++ evs /\ Q evs.

Section Vocabulary.

Variable env : Env.

(** What [lookup] does once the response is there. *)
Definition digest (name city : string) (response : Z * option json) : IO pydict :=
  run lift (raise_for_status response);
  do data <- lift (response_json response);
  do status <- lift (py_get data "status" JNull);
  if ne_zero status then
    do msg <- lift (py_get data "message" (JStr "未知错误"));
    raise (ApiError status msg)
  else
    do results <- lift (py_get data "results" JNull);
    if negb (truthy results) then raise (HotelNotFound name city)
    else
      do poi <- lift (py_index0 results);
      do location <- lift (py_get poi "location" (JDict []));
      do uid <- lift (py_get poi "uid" JNull);
      do poi_name <- lift (py_get poi "name" (JStr name));
      do province <- lift (py_get poi "province" (JStr ""));
      do area <- lift (py_get poi "area" (JStr ""));
      do address <- lift (py_get poi "address" (JStr ""));
      do lng <- lift (py_get location "lng" JNull);
      do lat <- lift (py_get location "lat" JNull);
      do telephone <- lift (py_get poi "telephone" (JStr ""));
      do detail_info <- lift (py_get poi "detail_info" (JDict []));
      ret [("uid", uid); ("name", poi_name); ("city", JStr city);
           ("province", province); ("area", area); ("address", address);
           ("lng", lng); ("lat", lat); ("telephone", telephone);
           ("detail_info", detail_info)].

(** The request of [search_hotel] for a hotel. *)
Definition url_of : string :=
  get_config env "BAIDU_PLACE_API_BASE" "https://api.map.baidu.com/place/v3" ++ "/region".

Definition params_of (name city : string) : pydict :=
  [("query", JStr name); ("region", JStr city); ("region_limit", JStr "true");
   ("filter", JStr "industry_type:hotel"); ("scope", JInt 1); ("page_size", JInt 1);
   ("output", JStr "json"); ("ak", JStr (get_config env "BAIDU_SERVER_AK" ""))].

(** The one request [process_csv] may send for a row: both fields are
    there and not empty once stripped, and the request is the one
    [search_hotel] builds for them from the configuration. *)
Definition asks_for (r : Row) (request : string * pydict) : Prop :=
  exists name city,
    field env r "name" = Ok name /\ field env r "city" = Ok city /\
    name <> "" /\ city <> "" /\
    request = (url_of, params_of name city).

(** A row with a field the file did not give. *)
Definition short (r : Row) : Prop :=
  assoc r "name" = Some None \/ assoc r "city" = Some None.

End Vocabulary.

(** ** Sample surroundings *)

(** A server that gives every request the same answer, a CSV file with the
    given rows, a key in the environment and a file system that agrees to
    everything. *)
Definition online (reply : HttpOutcome) (rows : list Row) : Env := {|
  environ := fun key => if String.eqb key "BAIDU_SERVER_AK" then Some "sk-1" else None;
  parse_float := fun s =>
    if String.eqb s "10" then Some (Finite 10)
    else if String.eqb s "0.1" then Some (Finite (1 # 10))
    else None;
  str_strip := fun s => s;
  http_get := fun _ _ _ _ => reply;
  sleep_ok := fun _ => true;
  file_exists := fun _ => true;
  csv_rows := fun _ => Some rows;
  path_parent := fun _ => "output";
  mkdir_ok := fun _ => true;
  write_ok := fun _ => true
|}.

(** The same without a key. *)
Definition unconfigured (reply : HttpOutcome) (rows : list Row) : Env := {|
  environ := fun _ => None;
  parse_float := parse_float (online reply rows);
  str_strip := fun s => s;
  http_get := fun _ _ _ _ => reply;
  sleep_ok := fun _ => true;
  file_exists := fun _ => true;
  csv_rows := fun _ => Some rows;
  path_parent := fun _ => "output";
  mkdir_ok := fun _ => true;
  write_ok := fun _ => true
|}.

Definition hit : json :=
  JDict [("status", JInt 0);
         ("results",
          JList [JDict [("uid", JStr "u1"); ("name", JStr "Grand Hotel");
                        ("location",
                         JDict [("lng", JFloat (Finite (1164 # 10)));
                                ("lat", JFloat (Finite (399 # 10)))])]])].

(** A first result without coordinates. *)
Definition hit_without_location : json :=
  JDict [("status", JInt 0);
         ("results", JList [JDict [("uid", JStr "u2"); ("name", JStr "Lost Inn")]])].

Definition hit_record : pydict :=
  [("uid", JStr "u1"); ("name", JStr "Grand Hotel"); ("city", JStr "Beijing");
   ("province", JStr ""); ("area", JStr ""); ("address", JStr "");
   ("lng", JFloat (Finite (1164 # 10))); ("lat", JFloat (Finite (399 # 10)));
   ("telephone", JStr ""); ("detail_info", JDict [])].

Definition lost_record : pydict :=
  [("uid", JStr "u2"); ("name", JStr "Lost Inn"); ("city", JStr "Beijing");
   ("province", JStr ""); ("area", JStr ""); ("address", JStr "");
   ("lng", JNull); ("lat", JNull);
   ("telephone", JStr ""); ("detail_info", JDict [])].

Definition grand_row : Row := [("name", Some "Grand"); ("city", Some "Beijing")].

(** A row the file gives no city: [csv.DictReader] fills it with [None]. *)
Definition short_row : Row := [("name", Some "Grand"); ("city", None)].

Definition nameless_row : Row := [("name", Some ""); ("city", Some "Beijing")].

End Geocode.

(** * The map renderer: [src/render_map.py]

    Strings are sequences of characters; the placeholder and the key are
    ASCII. *)

Module RenderMap.

Local Open Scope string_scope.
Local Open Scope list_scope.
Local Open Scope Z_scope.

Inductive exn :=
  | SystemExit (code : Z)   (* sys.exit(code): not an [Exception] *)
  | ReadError               (* the template cannot be read or decoded *)
  | OSError.                (* the file system refuses *)

Inductive Result (A : Type) :=
  | Ok (a : A)
  | Raise (e : exn).
Arguments Ok {A} a.
Arguments Raise {A} e.

Inductive Line :=
  | MissingKey
  | KeyAddress
  | MissingTemplate (template_path : string)
  | ReadingTemplate (template_path : string)
  | Generated (output_path : string)
  | UsedKey (shown : string)
  | ErrorLine (e : exn).

Inductive Event :=
  | Print (l : Line)
  | Mkdir (dir : string)
  | WriteText (output_path : string) (content : string).

Record Env := {
  environ : string -> option string;
  path_exists : string -> bool;
  read_text : string -> option string;
  mkdir_ok : string -> bool;
  write_ok : string -> bool
}.

(** The state is the trace of events so far, oldest first. *)
Definition IO (A : Type) : Type := list Event -> Result A * list Event.

#[export] Instance IO_Monad : Monad IO := {|
  ret := fun A a w => (Ok a, w);
  bind := fun A B c k w =>
    match c w with
    | (Ok a, w') => k a w'
    | (Raise e, w') => (Raise e, w')
    end
|}.

Definition raise {A} (e : exn) : IO A := fun w => (Raise e, w).

Definition emit (e : Event) : IO unit := fun w => (Ok tt, w ++ [e]).

Definition print (l : Line) : IO unit := emit (Print l).

Definition sys_exit {A} (code : Z) : IO A := raise (SystemExit code).

(** [s.replace(old, new)] for an [old] that is not empty: the occurrences
    of [old] are taken from left to right and do not overlap.  [skip]
    counts the characters of an occurrence still to be passed over. *)
Fixpoint replace_from (old new : string) (skip : nat) (s : string) : string :=
  match s with
  | EmptyString => EmptyString
  | String c s' =>
      match skip with
      | S k => replace_from old new k s'
      | O =>
          if String.prefix old s
          then new ++ replace_from old new (String.length old - 1) s'
          else String c (replace_from old new 0 s')
      end
  end.

Definition str_replace (s old new : string) : string := replace_from old new 0 s.

Section Script.

Variable env : Env.

(** [os.getenv(key, default)]. *)
Definition getenv (key default : string) : string :=
  match environ env key with
  | Some v => v
  | None => default
  end.

Definition read (path : string) : IO string :=
  match read_text env path with
  | Some text => ret text
  | None => raise ReadError
  end.

Definition mkdir (dir : string) : IO unit :=
  if mkdir_ok env dir then emit (Mkdir dir) else raise OSError.

Definition write (output_path content : string) : IO unit :=
  if write_ok env output_path then emit (WriteText output_path content) else raise OSError.

Definition render_map_template : IO unit :=
  let browser_ak := getenv "BAIDU_BROWSER_AK" "" in
  run (if String.eqb browser_ak "" || String.eqb browser_ak "YOUR_BROWSER_AK_HERE"
       then run print MissingKey; run print KeyAddress; sys_exit 1
       else ret tt);
  let template_path := "web/map_template.html" in
  run (if negb (path_exists env template_path)
       then run print (MissingTemplate template_path); sys_exit 1
       else ret tt);
  run print (ReadingTemplate template_path);
  do template <- read template_path;
  let rendered := str_replace template "{{BROWSER_AK}}" browser_ak in
  let output_path := "web/map.html" in
  run mkdir "web";
  run write output_path rendered;
  run print (Generated output_path);
  print (UsedKey (String.substring 0 20 browser_ak)).

(** How [main] ends: by returning, or by an exit with a status. *)
Inductive Exit :=
  | Returns
  | Exits (code : Z).

(** [except Exception] lets [SystemExit] through. *)
Definition main : list Event -> Exit * list Event :=
  fun w =>
    match render_map_template w with
    | (Ok _, w') => (Returns, w')
    | (Raise (SystemExit code), w') => (Exits code, w')
    | (Raise e, w') => (Exits 1, w' ++ [Print (ErrorLine e)])
    end.

End Script.

(** ** Vocabulary of the statements *)

(** The files a trace writes, with their contents. *)
Definition writes_in (evs : list Event) : list (string * string) :=
  flat_map (fun e => match e with WriteText f c => [(f, c)] | _ => [] end) evs.

(** The lines a trace prints. *)
Definition printed (evs : list Event) : list Line :=
  flat_map (fun e => match e with Print l => [l] | _ => [] end) evs.

(** [old] occurs somewhere in [s]. *)
Fixpoint occurs (old s : string) : bool :=
  match s with
  | EmptyString => String.prefix old s
  | String _ s' => String.prefix old s || occurs old s'
  end.

(** No character of [s] is [c]. *)
Fixpoint lacks (c : Ascii.ascii) (s : string) : bool :=
  match s with
  | EmptyString => true
  | String c' s' => negb (Ascii.eqb c c') && lacks c s'
  end.

Definition placeholder : string := "{{BROWSER_AK}}".

(** The character the placeholder begins with. *)
Definition brace : Ascii.ascii :=
  match placeholder with
  | String c _ => c
  | EmptyString => Ascii.zero
  end.

(** The key is configured. *)
Definition configured (env : Env) : bool :=
  negb (String.eqb (getenv env "BAIDU_BROWSER_AK" "") ""
        || String.eqb (getenv env "BAIDU_BROWSER_AK" "") "YOUR_BROWSER_AK_HERE").

(** ** Sample surroundings *)

Definition page_template : string := "<script src='api?ak={{BROWSER_AK}}'></script>".

Definition site (key : option string) (template : option string) : Env := {|
  environ := fun k => if String.eqb k "BAIDU_BROWSER_AK" then key else None;
  path_exists := fun p => match template with Some _ => true | None => false end;
  read_text := fun _ => template;
  mkdir_ok := fun _ => true;
  write_ok := fun _ => true
|}.

End RenderMap.

(** * Properties *)

(** ** Ranges *)

Lemma py_range_nil a b : b <= a -> py_range a b = [].
Proof.
  intros H. unfold py_range.
  replace (Z.to_nat (b - a)) with 0%nat by lia. reflexivity.
Qed.

Lemma py_range_cons a b : a < b -> py_range a b = a :: py_range (a + 1) b.
Proof.
  intros H. unfold py_range.
  replace (Z.to_nat (b - a)) with (S (Z.to_nat (b - (a + 1)))) by lia.
  cbn [seq map]. f_equal; [lia |].
  rewrite <- seq_shift, map_map.
  apply map_ext. intros i. lia.
Qed.

Lemma py_range_length a b : length (py_range a b) = Z.to_nat (b - a).
Proof. unfold py_range. now rewrite length_map, length_seq. Qed.

Lemma py_range_In a b y : In y (py_range a b) <-> a <= y < b.
Proof.
  unfold py_range. rewrite in_map_iff. split.
  - intros (i & <- & Hi). apply in_seq in Hi. lia.
  - intros H. exists (Z.to_nat (y - a)). split; [lia |].
    apply in_seq. lia.
Qed.

Lemma py_range_nth a b i :
  0 <= i < b - a -> nth (Z.to_nat i) (py_range a b) 0 = a + i.
Proof.
  intros H. unfold py_range.
  rewrite (nth_indep _ 0 (a + Z.of_nat 0)) by (rewrite length_map, length_seq; lia).
  rewrite (map_nth (fun i => a + Z.of_nat i)), seq_nth by lia. lia.
Qed.

Lemma py_range_snoc a b : a <= b -> py_range a (b + 1) = py_range a b ++ [b].
Proof.
  intros H. unfold py_range.
  replace (Z.to_nat (b + 1 - a)) with (Z.to_nat (b - a) + 1)%nat by lia.
  rewrite seq_app, map_app. cbn. do 2 f_equal. lia.
Qed.

(** ** Edge strength of a decoded image *)

Section Analysis.

Variable fl : Q -> Q.
Variable img : Image.
Variable px : list (list Pixel).
Hypothesis decoded : pixels img = Some px.

Lemma compute_edge_strength_ok y :
  compute_edge_strength fl img y = Ok (edge_of fl img y).
Proof.
  unfold edge_of, compute_edge_strength, load. rewrite decoded.
  cbn [bind ret Result_Monad].
  destruct (1 <? bands img)%nat; reflexivity.
Qed.

Lemma scan_fold ys st : scan fl img ys st = Ok (fold_left (scan_step fl img) ys st).
Proof.
  revert st. induction ys as [| y ys IH]; intros st; cbn [scan fold_left].
  - reflexivity.
  - rewrite compute_edge_strength_ok. cbn. unfold scan_step at 2.
    destruct (lt_min_edge (edge_of fl img y) (fst st)); apply IH.
Qed.

Lemma scanned_step lo k target_y st :
  lo <= k -> scanned fl img lo k target_y st ->
  scanned fl img lo (k + 1) target_y (scan_step fl img st k).
Proof.
  intros Hk. unfold scanned, scan_step.
  destruct st as [[m |] best]; cbn [fst snd lt_min_edge].
  - intros (Hm & Hb & Hall & Hfirst).
    destruct (Qle_bool m (edge_of fl img k)) eqn:Hcmp; cbn [negb fst snd].
    + apply Qle_bool_iff in Hcmp.
      split; [exact Hm |]. split; [lia |]. split; [| exact Hfirst].
      intros y Hy. destruct (Z.eq_dec y k) as [-> |]; [exact Hcmp |].
      apply Hall. lia.
    + assert (edge_of fl img k < m)%Q as Hlt.
      { apply Qnot_le_lt. intros Hle. apply Qle_bool_iff in Hle. congruence. }
      split; [reflexivity |]. split; [lia |]. split.
      * intros y Hy. destruct (Z.eq_dec y k) as [-> |]; [apply Qle_refl |].
        apply Qlt_le_weak, Qlt_le_trans with m; [exact Hlt |]. apply Hall. lia.
      * intros y Hy. apply Qlt_le_trans with m; [exact Hlt |]. apply Hall. lia.
  - intros (Hlo & _).
    split; [reflexivity |]. split; [lia |]. split.
    + intros y Hy. replace y with k by lia. apply Qle_refl.
    + intros y Hy. lia.
Qed.

Lemma scanned_range lo target_y n : forall k hi st,
  Z.to_nat (hi - k) = n -> lo <= k ->
  scanned fl img lo k target_y st ->
  scanned fl img lo (Z.max k hi) target_y (fold_left (scan_step fl img) (py_range k hi) st).
Proof.
  induction n as [| n IH]; intros k hi st Hn Hk Hst.
  - rewrite py_range_nil by lia. cbn. now replace (Z.max k hi) with k by lia.
  - rewrite py_range_cons by lia. cbn [fold_left].
    replace (Z.max k hi) with (Z.max (k + 1) hi) by lia.
    apply IH; [lia | lia |]. now apply scanned_step.
Qed.

Lemma find_scanned target_y search_range :
  exists st,
    find_safe_split_point fl img target_y search_range = Ok (snd st) /\
    scanned fl img (start_of target_y search_range)
            (Z.max (start_of target_y search_range) (end_of img target_y search_range))
            target_y st.
Proof.
  unfold find_safe_split_point. rewrite scan_fold. cbn.
  eexists. split; [reflexivity |].
  apply (scanned_range _ _ _ _ _ _ eq_refl); [unfold start_of; lia |].
  unfold scanned. cbn. split; [unfold start_of; lia | reflexivity].
Qed.

(** Where the result lies: in the window, or at the target when the window
    is empty. *)
Lemma find_in_window target_y search_range :
  exists best,
    find_safe_split_point fl img target_y search_range = Ok best /\
    (start_of target_y search_range < end_of img target_y search_range ->
     start_of target_y search_range <= best < end_of img target_y search_range) /\
    (end_of img target_y search_range <= start_of target_y search_range ->
     best = target_y).
Proof.
  destruct (find_scanned target_y search_range) as ([m best] & Hf & Hst).
  exists best. split; [exact Hf |].
  unfold scanned in Hst. cbn [fst snd] in Hst.
  destruct m as [m |].
  - destruct Hst as (_ & Hb & _). split; intros; lia.
  - destruct Hst as (Hk & ->). split; intros; lia.
Qed.

Lemma find_ok target_y search_range :
  find_safe_split_point fl img target_y search_range
  = Ok (safe_of fl img target_y search_range).
Proof.
  unfold safe_of.
  destruct (find_in_window target_y search_range) as (best & -> & _).
  reflexivity.
Qed.

Lemma safe_of_window target_y search_range :
  (start_of target_y search_range < end_of img target_y search_range ->
   start_of target_y search_range <= safe_of fl img target_y search_range
     < end_of img target_y search_range) /\
  (end_of img target_y search_range <= start_of target_y search_range ->
   safe_of fl img target_y search_range = target_y).
Proof.
  unfold safe_of.
  destruct (find_in_window target_y search_range) as (best & -> & H).
  exact H.
Qed.

(** A target inside the image resolves to a row inside the image, no
    farther from the target than the search range. *)
Lemma safe_of_bounds target_y search_range :
  0 <= target_y < height img ->
  0 <= safe_of fl img target_y search_range < height img /\
  target_y - Z.max search_range 0 <= safe_of fl img target_y search_range
    <= target_y + Z.max search_range 0.
Proof.
  intros Ht. destruct (safe_of_window target_y search_range) as [Hin Hout].
  unfold start_of, end_of in *.
  destruct (Z_lt_le_dec (Z.max 0 (target_y - search_range))
                        (Z.min (height img) (target_y + search_range))) as [Hw | Hw].
  - specialize (Hin Hw). lia.
  - rewrite (Hout Hw). lia.
Qed.

Lemma crop_ok y0 y1 :
  y0 <= y1 ->
  crop img y0 y1 =
  Ok {| width := width img; height := y1 - y0; bands := bands img;
        pixels := Some (map (row_at img px) (py_range y0 y1)) |}.
Proof.
  intros H. unfold crop, load. rewrite decoded.
  destruct (Z.ltb_spec y1 y0); [lia | reflexivity].
Qed.

End Analysis.

(** ** Running [IO] programs *)

Lemma emit_nil w : emit [] [] w = w.
Proof. destruct w. unfold emit. cbn. now rewrite !app_nil_r. Qed.

Lemma emit_emit ls1 es1 ls2 es2 w :
  emit ls2 es2 (emit ls1 es1 w) = emit (ls1 ++ ls2) (es1 ++ es2) w.
Proof. unfold emit. cbn. now rewrite !app_assoc. Qed.

Lemma bind_run {A B} (c : IO A) (k : A -> IO B) w :
  bind c k w =
  match c w with
  | (Ok a, w') => k a w'
  | (Raise e, w') => (Raise e, w')
  end.
Proof. reflexivity. Qed.

Lemma ret_run {A} (a : A) w : (ret a : IO A) w = (Ok a, w).
Proof. reflexivity. Qed.

Lemma print_run l w : print l w = (Ok tt, emit [l] [] w).
Proof. unfold print, emit. now rewrite app_nil_r. Qed.

Lemma fs_do_run e w : fs_do e w = (Ok tt, emit [] [e] w).
Proof. unfold fs_do, emit. now rewrite app_nil_r. Qed.

Lemma lift_run {A} (r : Result A) w : lift r w = (r, w).
Proof. reflexivity. Qed.

Ltac step_with lem := rewrite bind_run, lem; cbv beta iota.

Lemma fs_silent_ret {A} (a : A) : fs_silent (ret a : IO A).
Proof. intros w r w' H. now inversion H. Qed.

Lemma fs_silent_lift {A} (r : Result A) : fs_silent (lift r).
Proof. intros w r' w' H. now inversion H. Qed.

Lemma fs_silent_print l : fs_silent (print l).
Proof. intros w r w' H. now inversion H. Qed.

Lemma fs_silent_bind {A B} (c : IO A) (k : A -> IO B) :
  fs_silent c -> (forall a, fs_silent (k a)) -> fs_silent (bind c k).
Proof.
  intros Hc Hk w r w'. rewrite bind_run.
  destruct (c w) as [[a | e] w1] eqn:E; intros H.
  - rewrite (Hk a _ _ _ H). exact (Hc _ _ _ E).
  - inversion H; subst. exact (Hc _ _ _ E).
Qed.

Lemma fs_silent_mapM {A B} (f : A -> IO B) l :
  (forall x, fs_silent (f x)) -> fs_silent (mapM f l).
Proof.
  intros Hf. induction l as [| x l IH]; cbn [mapM].
  - apply fs_silent_ret.
  - apply fs_silent_bind; [apply Hf |]. intros y.
    apply fs_silent_bind; [exact IH |]. intros ys. apply fs_silent_ret.
Qed.

Create HintDb fs_silent.
#[local] Hint Resolve fs_silent_ret fs_silent_lift fs_silent_print
  fs_silent_bind fs_silent_mapM : fs_silent.

(** ** The orchestrator, step by step *)

Section Run.

Variable fl : Q -> Q.
Variable cfg : Config.
Variable env : Env.

(** *** The analysis loop *)

Lemma resolve_split_point_silent img it :
  fs_silent (resolve_split_point fl cfg img it).
Proof.
  destruct it as [i t]. unfold resolve_split_point. auto with fs_silent.
Qed.

Lemma resolve_all_silent img l :
  fs_silent (mapM (resolve_split_point fl cfg img) l).
Proof. auto using resolve_split_point_silent with fs_silent. Qed.

(** The loop ends normally only if every search did. *)
Lemma resolve_all_inv img l : forall w actual w',
  mapM (resolve_split_point fl cfg img) l w = (Ok actual, w') ->
  Forall2 (fun it a =>
             find_safe_split_point fl img (snd it) (SEARCH_RANGE cfg) = Ok a)
          l actual.
Proof.
  induction l as [| [i t] l IH]; intros w actual w'; cbn [mapM].
  - rewrite ret_run. intros H. inversion H. constructor.
  - rewrite bind_run. unfold resolve_split_point at 1.
    rewrite bind_run, lift_run.
    destruct (find_safe_split_point fl img t (SEARCH_RANGE cfg)) as [a | e] eqn:Ef;
      [| discriminate].
    step_with print_run. rewrite ret_run, bind_run.
    destruct (mapM (resolve_split_point fl cfg img) l (emit _ _ w))
      as [[ys | e] w1] eqn:El; [| discriminate].
    rewrite ret_run. intros H. inversion H; subst.
    constructor; [exact Ef | eapply IH; exact El].
Qed.

Lemma resolve_all_ok img ts actual :
  Forall2 (fun t a => find_safe_split_point fl img t (SEARCH_RANGE cfg) = Ok a)
          ts actual ->
  forall k w,
    mapM (resolve_split_point fl cfg img) (enumerate ts k) w
    = (Ok actual, emit (split_lines k ts actual) [] w).
Proof.
  induction 1 as [| t a ts actual Hf _ IH]; intros k w; cbn [enumerate mapM split_lines].
  - now rewrite ret_run, emit_nil.
  - rewrite bind_run. unfold resolve_split_point at 1.
    rewrite bind_run, lift_run, Hf. step_with print_run.
    rewrite ret_run, bind_run, IH, ret_run, emit_emit. reflexivity.
Qed.

(** *** The writing loop *)

Lemma write_parts_ok img px input_path output_dir boundaries :
  pixels img = Some px ->
  (forall q part, save_ok env q part = true) ->
  forall l w,
    (forall i, In i l ->
       fst (part_box cfg boundaries (height img) i)
       <= snd (part_box cfg boundaries (height img) i)) ->
    forM_ (write_part cfg env img input_path output_dir boundaries) l w
    = (Ok tt,
       emit (map (part_line cfg input_path boundaries (height img)) l)
            (map (part_effect cfg img px input_path output_dir boundaries) l) w).
Proof.
  intros Hpx Hsave. induction l as [| i l IH]; intros w Hbox; cbn [forM_ map].
  - now rewrite ret_run, emit_nil.
  - rewrite bind_run. unfold write_part at 1, part_line at 1, part_effect at 1.
    specialize (Hbox i (or_introl eq_refl)) as Hi.
    destruct (part_box cfg boundaries (height img) i) as [y_start y_end] eqn:Eb.
    cbn [fst snd] in Hi.
    rewrite bind_run, lift_run, (crop_ok img px Hpx) by exact Hi.
    cbv beta iota. rewrite bind_run. unfold save. rewrite Hsave.
    rewrite fs_do_run. cbv beta iota. rewrite print_run, emit_emit.
    rewrite IH by (intros j Hj; apply Hbox; now right).
    rewrite emit_emit. reflexivity.
Qed.

(** *** The plan of a split *)

Lemma n_splits_spec h :
  0 < SPLIT_HEIGHT cfg ->
  SPLIT_HEIGHT cfg * (n_splits_of cfg h - 1) < h <= SPLIT_HEIGHT cfg * n_splits_of cfg h.
Proof.
  intros HS. unfold n_splits_of.
  pose proof (Z.mul_div_le (- h) _ HS).
  pose proof (Z.mul_succ_div_gt (- h) _ HS).
  nia.
Qed.

Lemma n_splits_pos h : 0 < SPLIT_HEIGHT cfg -> 0 < h -> 1 <= n_splits_of cfg h.
Proof. intros HS Hh. pose proof (n_splits_spec h HS). nia. Qed.

Lemma py_ceil_div_n_splits h :
  SPLIT_HEIGHT cfg <> 0 ->
  py_ceil_div h (SPLIT_HEIGHT cfg) = Some (n_splits_of cfg h).
Proof.
  intros HS. unfold py_ceil_div.
  destruct (Z.eqb_spec (SPLIT_HEIGHT cfg) 0); [contradiction | reflexivity].
Qed.

Lemma boundaries_length img :
  1 <= n_splits_of cfg (height img) ->
  Z.of_nat (length (boundaries_of fl cfg img)) = n_splits_of cfg (height img) + 1.
Proof.
  intros Hn. unfold boundaries_of, actual_of, targets_of.
  rewrite !length_app, !length_map, py_range_length. cbn [length]. lia.
Qed.

Lemma boundaries_nth img j :
  1 <= j < n_splits_of cfg (height img) ->
  nth (Z.to_nat j) (boundaries_of fl cfg img) 0
  = safe_of fl img (SPLIT_HEIGHT cfg * j) (SEARCH_RANGE cfg).
Proof.
  intros Hj. unfold boundaries_of, actual_of, targets_of.
  replace (Z.to_nat j) with (S (Z.to_nat (j - 1))) by lia.
  cbn [app nth]. rewrite app_nth1 by (rewrite !length_map, py_range_length; lia).
  rewrite map_map.
  rewrite (nth_indep _ 0 (safe_of fl img (SPLIT_HEIGHT cfg * 0) (SEARCH_RANGE cfg)))
    by (rewrite length_map, py_range_length; lia).
  rewrite (map_nth (fun i => safe_of fl img (SPLIT_HEIGHT cfg * i) (SEARCH_RANGE cfg))).
  rewrite py_range_nth by lia. do 2 f_equal. lia.
Qed.

Lemma boundaries_last img :
  1 <= n_splits_of cfg (height img) ->
  nth (Z.to_nat (n_splits_of cfg (height img))) (boundaries_of fl cfg img) 0 = height img.
Proof.
  intros Hn. unfold boundaries_of, actual_of, targets_of.
  replace (Z.to_nat (n_splits_of cfg (height img)))
    with (S (Z.to_nat (n_splits_of cfg (height img) - 1))) by lia.
  cbn [app nth]. rewrite app_nth2 by (rewrite !length_map, py_range_length; lia).
  rewrite !length_map, py_range_length.
  replace (_ - _)%nat with 0%nat by lia. reflexivity.
Qed.

(** Every cut of the plan lies inside the image, near its target. *)
Lemma boundary_bounds img px j :
  pixels img = Some px -> 0 < SPLIT_HEIGHT cfg ->
  1 <= j < n_splits_of cfg (height img) ->
  let a := nth (Z.to_nat j) (boundaries_of fl cfg img) 0 in
  0 <= a < height img /\
  SPLIT_HEIGHT cfg * j - Z.max (SEARCH_RANGE cfg) 0 <= a
    <= SPLIT_HEIGHT cfg * j + Z.max (SEARCH_RANGE cfg) 0.
Proof.
  intros Hpx HS Hj a. subst a. rewrite boundaries_nth by exact Hj.
  apply (safe_of_bounds fl img px Hpx).
  pose proof (n_splits_spec (height img) HS). nia.
Qed.

Lemma part_box_plan img i :
  0 < SPLIT_HEIGHT cfg -> 0 <= OVERLAP cfg -> 0 < height img ->
  0 <= i < n_splits_of cfg (height img) ->
  part_box cfg (boundaries_of fl cfg img) (height img) i = box_of fl cfg img i.
Proof.
  intros HS Hov Hh Hi. unfold part_box, box_of.
  rewrite boundaries_length by lia.
  replace (n_splits_of cfg (height img) + 1 - 2) with (n_splits_of cfg (height img) - 1) by lia.
  destruct (Z.eqb_spec i 0) as [-> | Hi0].
  - destruct (Z.eqb_spec 0 (n_splits_of cfg (height img) - 1)) as [Hn | Hn]; [| reflexivity].
    replace (0 + 1) with (n_splits_of cfg (height img)) by lia.
    rewrite boundaries_last by lia. f_equal. lia.
  - destruct (Z.eqb_spec i (n_splits_of cfg (height img) - 1)); reflexivity.
Qed.

Lemma box_of_valid img px i :
  pixels img = Some px -> well_configured cfg -> 0 < height img ->
  0 <= i < n_splits_of cfg (height img) ->
  0 <= fst (box_of fl cfg img i) <= snd (box_of fl cfg img i) /\
  snd (box_of fl cfg img i) <= height img.
Proof.
  intros Hpx (HM & HS & Hov & Hr) Hh Hi. unfold box_of. cbn [fst snd].
  set (n := n_splits_of cfg (height img)) in *.
  assert (forall j, 1 <= j < n ->
            0 <= nth (Z.to_nat j) (boundaries_of fl cfg img) 0 < height img /\
            SPLIT_HEIGHT cfg * j - Z.max (SEARCH_RANGE cfg) 0
              <= nth (Z.to_nat j) (boundaries_of fl cfg img) 0
              <= SPLIT_HEIGHT cfg * j + Z.max (SEARCH_RANGE cfg) 0) as Hb.
  { intros j Hj. apply (boundary_bounds img px j Hpx HS Hj). }
  destruct (Z.eqb_spec i (n - 1)) as [Hn | Hn];
    destruct (Z.eqb_spec i 0) as [Hi0 | Hi0]; try subst i.
  - lia.
  - specialize (Hb (n - 1) ltac:(lia)). lia.
  - specialize (Hb (0 + 1) ltac:(lia)). lia.
  - pose proof (Hb i ltac:(lia)) as H1.
    pose proof (Hb (i + 1) ltac:(lia)) as H2.
    replace (SPLIT_HEIGHT cfg * (i + 1))
      with (SPLIT_HEIGHT cfg * i + SPLIT_HEIGHT cfg) in H2 by ring.
    lia.
Qed.

Lemma Forall2_map_ok {A B} (f : A -> Result B) (g : A -> B) l :
  (forall x, f x = Ok (g x)) -> Forall2 (fun x y => f x = Ok y) l (map g l).
Proof. intros H. induction l; cbn; constructor; auto. Qed.

(** *** A whole run in cooperative surroundings *)

Lemma split_run input_path output_dir img px w :
  image_at env (path_name input_path) = Some img ->
  pixels img = Some px ->
  mkdir_ok env output_dir = true ->
  (forall q part, save_ok env q part = true) ->
  well_configured cfg ->
  MAX_HEIGHT cfg < height img ->
  split_long_image fl cfg env input_path output_dir w
  = (Ok tt, emit (report fl cfg input_path output_dir img)
                 (effects fl cfg input_path output_dir img px) w).
Proof.
  intros Himg Hpx Hmk Hsave Hcfg Hh.
  pose proof Hcfg as (HM & HS & Hov & Hr).
  assert (0 < height img) as Hpos by lia.
  pose proof (n_splits_pos (height img) HS Hpos) as Hn.
  unfold split_long_image.
  step_with print_run. rewrite bind_run. unfold Image_open. rewrite Himg, ret_run.
  cbv beta iota zeta. step_with print_run.
  destruct (Z.leb_spec (height img) (MAX_HEIGHT cfg)) as [Hle | _]; [lia |].
  rewrite bind_run, py_ceil_div_n_splits, ret_run by lia. cbv beta iota.
  step_with print_run. step_with print_run.
  rewrite bind_run.
  rewrite (resolve_all_ok img (targets_of cfg (height img)) (actual_of fl cfg img))
    by (apply Forall2_map_ok; intros t; apply (find_ok fl img px Hpx)).
  cbv beta iota. rewrite bind_run. unfold mkdir. rewrite Hmk, fs_do_run.
  cbv beta iota. step_with print_run.
  fold (boundaries_of fl cfg img). rewrite boundaries_length by exact Hn.
  replace (n_splits_of cfg (height img) + 1 - 1) with (n_splits_of cfg (height img)) by lia.
  rewrite bind_run.
  rewrite (write_parts_ok img px input_path output_dir (boundaries_of fl cfg img) Hpx Hsave).
  - cbv beta iota. rewrite print_run, !emit_emit.
    unfold report, effects. cbn [app]. rewrite !app_nil_r. reflexivity.
  - intros i Hi. apply py_range_In in Hi.
    rewrite part_box_plan by (assumption || lia).
    apply (box_of_valid img px i Hpx Hcfg Hpos). lia.
Qed.

End Run.

(** ** Observing a run *)

Lemma nth_map_range {A} (f : Z -> A) n k d :
  (k < Z.to_nat n)%nat -> nth k (map f (py_range 0 n)) d = f (Z.of_nat k).
Proof.
  intros Hk.
  rewrite (nth_indep _ d (f 0)) by (rewrite length_map, py_range_length; lia).
  rewrite map_nth. f_equal.
  rewrite <- (Nat2Z.id k) at 1. rewrite py_range_nth; lia.
Qed.

Lemma last_map_range {A} (f : Z -> A) n d :
  1 <= n -> List.last (map f (py_range 0 n)) d = f (n - 1).
Proof.
  intros Hn. replace n with (n - 1 + 1) at 1 by lia.
  rewrite py_range_snoc by lia. rewrite map_app. cbn [map]. apply List.last_last.
Qed.

Section Observations.

Variable fl : Q -> Q.
Variable cfg : Config.

Lemma part_boxes_app l1 l2 : part_boxes (l1 ++ l2) = part_boxes l1 ++ part_boxes l2.
Proof. apply flat_map_app. Qed.

Lemma split_points_app l1 l2 : split_points (l1 ++ l2) = split_points l1 ++ split_points l2.
Proof. apply flat_map_app. Qed.

Lemma part_boxes_split_lines k ts actual : part_boxes (split_lines k ts actual) = [].
Proof.
  revert k actual. induction ts as [| t ts IH]; intros k [| a actual]; cbn; auto.
Qed.

Lemma part_boxes_part_lines input_path bs h l :
  part_boxes (map (part_line cfg input_path bs h) l) = map (part_box cfg bs h) l.
Proof.
  induction l as [| i l IH]; cbn [map]; [reflexivity |].
  rewrite <- IH. unfold part_line at 1.
  destruct (part_box cfg bs h i); reflexivity.
Qed.

Lemma split_points_part_lines input_path bs h l :
  split_points (map (part_line cfg input_path bs h) l) = [].
Proof.
  induction l as [| i l IH]; cbn [map]; [reflexivity |].
  unfold part_line at 1. destruct (part_box cfg bs h i). exact IH.
Qed.

Lemma split_points_split_lines ts (g : Z -> Z) : forall k,
  split_points (split_lines k ts (map g ts))
  = map (fun it : Z * Z => (fst it, snd it, g (snd it))) (enumerate ts k).
Proof.
  induction ts as [| t ts IH]; intros k; cbn; [reflexivity |].
  f_equal. apply IH.
Qed.

Lemma enumerate_map_range (f : Z -> Z) n : forall k,
  enumerate (map f (py_range k n)) k = map (fun i => (i, f i)) (py_range k n).
Proof.
  intros k. remember (Z.to_nat (n - k)) as m eqn:Hm. revert k Hm.
  induction m as [| m IH]; intros k Hm.
  - now rewrite py_range_nil by lia.
  - rewrite py_range_cons by lia. cbn. f_equal. apply IH. lia.
Qed.

Lemma saved_parts_effects img px input_path output_dir bs l :
  saved_parts (map (part_effect cfg img px input_path output_dir bs) l)
  = map (fun i => rows_of img px (part_box cfg bs (height img) i)) l.
Proof. induction l as [| i l IH]; cbn; [reflexivity |]. now f_equal. Qed.

(** What is reported and written by a run in cooperative surroundings. *)
Lemma report_part_boxes input_path output_dir img :
  part_boxes (report fl cfg input_path output_dir img)
  = map (part_box cfg (boundaries_of fl cfg img) (height img))
        (py_range 0 (n_splits_of cfg (height img))).
Proof.
  unfold report. cbn [app part_boxes flat_map].
  fold (part_boxes (split_lines 1 (targets_of cfg (height img)) (actual_of fl cfg img)
                    ++ SplittingTo output_dir
                    :: map (part_line cfg input_path (boundaries_of fl cfg img) (height img))
                         (py_range 0 (n_splits_of cfg (height img)))
                       ++ [Done (n_splits_of cfg (height img))])).
  rewrite part_boxes_app, part_boxes_split_lines. cbn [app].
  change (SplittingTo output_dir :: ?l) with ([SplittingTo output_dir] ++ l).
  rewrite part_boxes_app, part_boxes_app, part_boxes_part_lines. cbn.
  now rewrite app_nil_r.
Qed.

Lemma report_split_points input_path output_dir img :
  split_points (report fl cfg input_path output_dir img)
  = map (fun i => (i, SPLIT_HEIGHT cfg * i,
                   safe_of fl img (SPLIT_HEIGHT cfg * i) (SEARCH_RANGE cfg)))
        (py_range 1 (n_splits_of cfg (height img))).
Proof.
  unfold report. cbn [app split_points flat_map].
  fold (split_points (split_lines 1 (targets_of cfg (height img)) (actual_of fl cfg img)
                      ++ SplittingTo output_dir
                      :: map (part_line cfg input_path (boundaries_of fl cfg img) (height img))
                           (py_range 0 (n_splits_of cfg (height img)))
                         ++ [Done (n_splits_of cfg (height img))])).
  rewrite split_points_app.
  change (SplittingTo output_dir :: ?l) with ([SplittingTo output_dir] ++ l).
  rewrite split_points_app, split_points_app, split_points_part_lines. cbn [app].
  unfold actual_of. rewrite split_points_split_lines.
  unfold targets_of. rewrite enumerate_map_range, map_map. cbn.
  now rewrite app_nil_r.
Qed.

Lemma effects_saved_parts input_path output_dir img px :
  saved_parts (effects fl cfg input_path output_dir img px)
  = map (fun i => rows_of img px (part_box cfg (boundaries_of fl cfg img) (height img) i))
        (py_range 0 (n_splits_of cfg (height img))).
Proof. unfold effects. cbn [saved_parts flat_map app]. apply saved_parts_effects. Qed.

End Observations.

(** ** Coverage of the plan *)

Section Coverage.

Variable fl : Q -> Q.
Variable cfg : Config.
Variable img : Image.
Variable px : list (list Pixel).
Hypothesis decoded : pixels img = Some px.
Hypothesis configured : well_configured cfg.
Hypothesis not_empty : 0 < height img.

Let n := n_splits_of cfg (height img).
Let box := box_of fl cfg img.

Lemma box_first : fst (box 0) = 0.
Proof. reflexivity. Qed.

Lemma box_last : snd (box (n - 1)) = height img.
Proof. unfold box, box_of. cbn [snd]. subst n. now rewrite Z.eqb_refl. Qed.

Lemma box_chain i : 0 <= i -> i + 1 < n -> fst (box (i + 1)) <= snd (box i).
Proof.
  intros Hi Hn. unfold box, box_of. cbn [fst snd]. fold n.
  destruct configured as (_ & HS & Hov & _).
  destruct (Z.eqb_spec (i + 1) 0); [lia |].
  destruct (Z.eqb_spec i (n - 1)); [lia |].
  pose proof (boundary_bounds fl cfg img px (i + 1) decoded HS ltac:(fold n; lia)) as Hb.
  cbv zeta in Hb. lia.
Qed.

Lemma box_reach y m : forall k,
  Z.to_nat (n - 1 - k) = m -> 0 <= k < n ->
  fst (box k) <= y < height img ->
  exists i, k <= i < n /\ fst (box i) <= y < snd (box i).
Proof.
  induction m as [| m IH]; intros k Hm Hk Hy.
  - exists k. replace k with (n - 1) in * by lia. rewrite box_last. lia.
  - destruct (Z_lt_le_dec y (snd (box k))) as [Hlt | Hge].
    + exists k. lia.
    + destruct (IH (k + 1)) as (i & Hi & Hbox); [lia | lia | |].
      * pose proof (box_chain k ltac:(lia) ltac:(lia)). lia.
      * exists i. split; [lia | exact Hbox].
Qed.

Lemma boxes_cover : covers (height img) (map box (py_range 0 n)).
Proof.
  assert (1 <= n) as Hn.
  { apply n_splits_pos; [apply configured | exact not_empty]. }
  intros y. split.
  - intros Hy. destruct (box_reach y _ 0 eq_refl ltac:(lia)) as (i & Hi & Hbox).
    + rewrite box_first. lia.
    + exists (box i). split; [| exact Hbox].
      apply in_map, py_range_In. lia.
  - intros (b & Hin & Hb). apply in_map_iff in Hin. destruct Hin as (i & <- & Hi).
    apply py_range_In in Hi.
    pose proof (box_of_valid fl cfg img px i decoded configured not_empty
                  ltac:(fold n; lia)) as Hv.
    fold box in Hv. lia.
Qed.

Lemma boxes_chained : chained (map box (py_range 0 n)).
Proof.
  intros k Hk. rewrite length_map, py_range_length in Hk.
  rewrite !nth_map_range by lia.
  replace (Z.of_nat (S k)) with (Z.of_nat k + 1) by lia.
  apply box_chain; lia.
Qed.

Lemma boxes_ends :
  fst (hd (0, 0) (map box (py_range 0 n))) = 0 /\
  snd (List.last (map box (py_range 0 n)) (0, 0)) = height img.
Proof.
  assert (1 <= n) as Hn.
  { apply n_splits_pos; [apply configured | exact not_empty]. }
  split.
  - rewrite py_range_cons by lia. reflexivity.
  - rewrite last_map_range by lia. apply box_last.
Qed.

Lemma plan_boxes :
  map (part_box cfg (boundaries_of fl cfg img) (height img)) (py_range 0 n)
  = map box (py_range 0 n).
Proof.
  apply map_ext_in. intros i Hi. apply py_range_In in Hi.
  destruct configured as (_ & HS & Hov & _).
  apply part_box_plan; assumption || (fold n; lia).
Qed.

End Coverage.

(** ** Crops as slices *)

Lemma rows_slice img px y0 y1 :
  Z.of_nat (length px) = height img ->
  0 <= y0 <= y1 -> y1 <= height img ->
  map (row_at img px) (py_range y0 y1)
  = firstn (Z.to_nat (y1 - y0)) (skipn (Z.to_nat y0) px).
Proof.
  intros Hlen Hy Hh.
  apply (nth_ext _ _ (blank_row img) (blank_row img)).
  - rewrite length_map, py_range_length, length_firstn, length_skipn. lia.
  - intros k Hk. rewrite length_map, py_range_length in Hk.
    rewrite nth_firstn, nth_skipn.
    destruct (Nat.ltb_spec k (Z.to_nat (y1 - y0))) as [_ | ?]; [| lia].
    rewrite (nth_indep _ _ (row_at img px 0)) by (rewrite length_map, py_range_length; lia).
    rewrite map_nth.
    rewrite <- (Nat2Z.id k) at 1. rewrite py_range_nth by lia.
    unfold row_at.
    destruct (Z.leb_spec 0 (y0 + Z.of_nat k)); [| lia].
    destruct (Z.ltb_spec (y0 + Z.of_nat k) (height img)); [| lia].
    cbn [andb]. f_equal. lia.
Qed.

(** Boundary sequences [[0; a_1; ...; a_(n-1); h]]. *)
Lemma sequence_first (actual : list Z) h : nth 0 ([0] ++ actual ++ [h]) 0 = 0.
Proof. reflexivity. Qed.

Lemma sequence_last (actual : list Z) h :
  nth (Z.to_nat (Z.of_nat (length actual) + 1)) ([0] ++ actual ++ [h]) 0 = h.
Proof.
  replace (Z.to_nat (Z.of_nat (length actual) + 1)) with (S (length actual)) by lia.
  cbn [app nth]. rewrite app_nth2 by lia. now rewrite Nat.sub_diag.
Qed.

Lemma nondecreasing_le (bs : list Z) n :
  (forall j, 0 <= j < n ->
     nth (Z.to_nat j) bs 0 <= nth (Z.to_nat (j + 1)) bs 0) ->
  forall (d : nat) j, 0 <= j -> j + Z.of_nat d <= n ->
    nth (Z.to_nat j) bs 0 <= nth (Z.to_nat (j + Z.of_nat d)) bs 0.
Proof.
  intros Hmono. induction d as [| d IH]; intros j Hj Hn.
  - rewrite Z.add_0_r. lia.
  - specialize (IH j Hj ltac:(lia)).
    specialize (Hmono (j + Z.of_nat d) ltac:(lia)).
    replace (j + Z.of_nat (S d)) with (j + Z.of_nat d + 1) by lia. lia.
Qed.

Lemma part_box_cases cfg actual h i :
  0 <= OVERLAP cfg -> 0 <= i < Z.of_nat (length actual) + 1 ->
  part_box cfg (sequence_of actual h) h i
  = (if i =? 0 then 0
     else Z.max (nth (Z.to_nat i) (sequence_of actual h) 0 - OVERLAP cfg) 0,
     if i =? Z.of_nat (length actual)
     then h
     else Z.min (nth (Z.to_nat (i + 1)) (sequence_of actual h) 0 + OVERLAP cfg) h).
Proof.
  intros Hov Hi. unfold part_box.
  replace (Z.of_nat (length (sequence_of actual h)) - 2) with (Z.of_nat (length actual)).
  2:{ unfold sequence_of. rewrite !length_app. cbn [length]. lia. }
  destruct (Z.eqb_spec i 0) as [-> | Hi0].
  - destruct (Z.eqb_spec 0 (Z.of_nat (length actual))) as [Hn | Hn]; [| reflexivity].
    destruct actual; [| discriminate]. unfold sequence_of.
    change (Z.to_nat (0 + 1)) with 1%nat. cbn [app nth]. f_equal. lia.
  - destruct (Z.eqb_spec i (Z.of_nat (length actual))); reflexivity.
Qed.

(** ** Every way a run can go *)

Lemma fs_silent_extends {A} (c : IO A) : fs_silent c -> fs_extends c.
Proof. intros H w r w' E. exists []. rewrite app_nil_r. exact (H _ _ _ E). Qed.

Lemma fs_extends_fs_do e : fs_extends (fs_do e).
Proof. intros w r w' H. inversion H. now exists [e]. Qed.

Lemma fs_extends_bind {A B} (c : IO A) (k : A -> IO B) :
  fs_extends c -> (forall a, fs_extends (k a)) -> fs_extends (bind c k).
Proof.
  intros Hc Hk w r w'. rewrite bind_run.
  destruct (c w) as [[a | e] w1] eqn:E; intros H.
  - destruct (Hc _ _ _ E) as (es1 & H1). destruct (Hk a _ _ _ H) as (es2 & H2).
    exists (es1 ++ es2). now rewrite H2, H1, app_assoc.
  - inversion H; subst. exact (Hc _ _ _ E).
Qed.

Lemma fs_extends_forM_ {A} (f : A -> IO unit) l :
  (forall x, fs_extends (f x)) -> fs_extends (forM_ f l).
Proof.
  intros Hf. induction l as [| x l IH]; cbn [forM_].
  - apply fs_silent_extends, fs_silent_ret.
  - apply fs_extends_bind; [apply Hf | intros _; exact IH].
Qed.

Section Outcomes.

Variable fl : Q -> Q.
Variable cfg : Config.
Variable env : Env.

Lemma write_part_extends img input_path output_dir boundaries i :
  fs_extends (write_part cfg env img input_path output_dir boundaries i).
Proof.
  unfold write_part. destruct (part_box cfg boundaries (height img) i) as [y0 y1].
  apply fs_extends_bind; [apply fs_silent_extends, fs_silent_lift |]. intros part.
  apply fs_extends_bind.
  - unfold save. destruct (save_ok env _ part).
    + apply fs_extends_fs_do.
    + apply fs_silent_extends, fs_silent_lift.
  - intros _. apply fs_silent_extends, fs_silent_print.
Qed.

Lemma run_open_fails input_path output_dir w :
  image_at env (path_name input_path) = None ->
  split_long_image fl cfg env input_path output_dir w
  = (Raise OpenFailed, emit [LoadingImage (path_name input_path)] [] w).
Proof.
  intros Himg. unfold split_long_image. step_with print_run.
  rewrite bind_run. unfold Image_open. rewrite Himg. reflexivity.
Qed.

Lemma run_no_split input_path output_dir img w :
  image_at env (path_name input_path) = Some img ->
  height img <= MAX_HEIGHT cfg ->
  split_long_image fl cfg env input_path output_dir w
  = (Ok tt, emit [LoadingImage (path_name input_path);
                  ImageSize (width img) (height img);
                  NoNeedToSplit (height img) (MAX_HEIGHT cfg)] [] w).
Proof.
  intros Himg Hh. unfold split_long_image. step_with print_run.
  rewrite bind_run. unfold Image_open. rewrite Himg, ret_run.
  cbv beta iota zeta. step_with print_run.
  destruct (Z.leb_spec (height img) (MAX_HEIGHT cfg)) as [_ | ?]; [| lia].
  rewrite print_run, !emit_emit. reflexivity.
Qed.

Lemma run_zero_division input_path output_dir img w :
  image_at env (path_name input_path) = Some img ->
  MAX_HEIGHT cfg < height img ->
  SPLIT_HEIGHT cfg = 0 ->
  split_long_image fl cfg env input_path output_dir w
  = (Raise ZeroDivisionError,
     emit [LoadingImage (path_name input_path);
           ImageSize (width img) (height img)] [] w).
Proof.
  intros Himg Hh HS. unfold split_long_image. step_with print_run.
  rewrite bind_run. unfold Image_open. rewrite Himg, ret_run.
  cbv beta iota zeta. step_with print_run.
  destruct (Z.leb_spec (height img) (MAX_HEIGHT cfg)) as [? | _]; [lia |].
  rewrite bind_run. unfold py_ceil_div. rewrite HS. cbn [Z.eqb].
  unfold raise. rewrite lift_run, !emit_emit. reflexivity.
Qed.

Lemma run_tall input_path output_dir img n w :
  image_at env (path_name input_path) = Some img ->
  MAX_HEIGHT cfg < height img ->
  py_ceil_div (height img) (SPLIT_HEIGHT cfg) = Some n ->
  split_long_image fl cfg env input_path output_dir w
  = bind (mapM (resolve_split_point fl cfg img)
               (enumerate (map (fun i => SPLIT_HEIGHT cfg * i) (py_range 1 n)) 1))
         (write_phase cfg env img input_path output_dir)
         (emit [LoadingImage (path_name input_path);
                ImageSize (width img) (height img);
                SplittingInto n; FindingPoints] [] w).
Proof.
  intros Himg Hh Hn. unfold split_long_image. step_with print_run.
  rewrite bind_run. unfold Image_open. rewrite Himg, ret_run.
  cbv beta iota zeta. step_with print_run.
  destruct (Z.leb_spec (height img) (MAX_HEIGHT cfg)) as [? | _]; [lia |].
  rewrite bind_run, Hn, ret_run. cbv beta iota.
  step_with print_run. step_with print_run. rewrite !emit_emit. reflexivity.
Qed.

Lemma write_phase_done img input_path output_dir actual w w' :
  write_phase cfg env img input_path output_dir actual w = (Ok tt, w') ->
  exists es, fs_log w' = fs_log w ++ Mkdir output_dir :: es.
Proof.
  unfold write_phase. rewrite bind_run. unfold mkdir.
  destruct (mkdir_ok env output_dir); [| discriminate].
  rewrite fs_do_run. cbv beta iota. intros H.
  assert (fs_extends
            (run print (SplittingTo output_dir);
             run forM_ (write_part cfg env img input_path output_dir
                          ([0] ++ actual ++ [height img]))
                       (py_range 0 (Z.of_nat (length ([0] ++ actual ++ [height img])) - 1));
             print (Done (Z.of_nat (length ([0] ++ actual ++ [height img])) - 1)))) as Hext.
  { apply fs_extends_bind; [apply fs_silent_extends, fs_silent_print |]. intros _.
    apply fs_extends_bind.
    - apply fs_extends_forM_. intros i. apply write_part_extends.
    - intros _. apply fs_silent_extends, fs_silent_print. }
  destruct (Hext _ _ _ H) as (es & Hes). exists es.
  rewrite Hes. cbn [emit fs_log]. now rewrite <- app_assoc.
Qed.

Lemma Forall2_enumerate_inv (P : Z -> Z -> Prop) (ts : list Z) : forall k ys,
  Forall2 (fun (it : Z * Z) y => P (snd it) y) (enumerate ts k) ys ->
  forall t, In t ts -> exists y, P t y.
Proof.
  induction ts as [| t0 ts IH]; intros k ys HF t Hin; [destruct Hin |].
  cbn [enumerate] in HF. inversion HF as [| it y l l' Hp Hrest]; subst.
  destruct Hin as [<- | Hin]; [exists y; exact Hp |].
  eapply IH; eassumption.
Qed.

(** A run either leaves the file system alone, or has opened an image
    taller than [MAX_HEIGHT] and resolved every split point. *)
Lemma run_effects input_path output_dir w r w' :
  split_long_image fl cfg env input_path output_dir w = (r, w') ->
  fs_log w' = fs_log w \/
  exists img,
    image_at env (path_name input_path) = Some img /\
    MAX_HEIGHT cfg < height img /\ all_resolved fl cfg img.
Proof.
  intros Hrun.
  destruct (image_at env (path_name input_path)) as [img |] eqn:Himg.
  2:{ rewrite run_open_fails in Hrun by exact Himg.
      inversion Hrun; subst. left. cbn. apply app_nil_r. }
  destruct (Z_le_gt_dec (height img) (MAX_HEIGHT cfg)) as [Hle | Hgt].
  { rewrite (run_no_split _ _ img) in Hrun by assumption.
    inversion Hrun; subst. left. cbn. apply app_nil_r. }
  destruct (py_ceil_div (height img) (SPLIT_HEIGHT cfg)) as [n |] eqn:Hn.
  2:{ unfold py_ceil_div in Hn.
      destruct (Z.eqb_spec (SPLIT_HEIGHT cfg) 0) as [HS |]; [| discriminate].
      rewrite (run_zero_division _ _ img) in Hrun by (assumption || lia).
      inversion Hrun; subst. left. cbn. apply app_nil_r. }
  rewrite (run_tall _ _ img n) in Hrun by (assumption || lia).
  rewrite bind_run in Hrun.
  destruct (mapM (resolve_split_point fl cfg img) _ _) as [[actual | e] w1] eqn:Hres.
  - right. exists img. split; [reflexivity |]. split; [lia |].
    exists n. split; [exact Hn |]. intros i Hi.
    apply resolve_all_inv in Hres.
    apply (Forall2_enumerate_inv
             (fun t a => find_safe_split_point fl img t (SEARCH_RANGE cfg) = Ok a)
             _ _ _ Hres).
    apply in_map_iff. exists i. split; [reflexivity |]. apply py_range_In. lia.
  - left. inversion Hrun; subst.
    rewrite (resolve_all_silent fl cfg img _ _ _ _ Hres). cbn. apply app_nil_r.
Qed.

(** A run that ends normally on an image taller than [MAX_HEIGHT] has made
    the output directory. *)
Lemma run_done_effects input_path output_dir img w w' :
  image_at env (path_name input_path) = Some img ->
  MAX_HEIGHT cfg < height img ->
  split_long_image fl cfg env input_path output_dir w = (Ok tt, w') ->
  exists es, fs_log w' = fs_log w ++ Mkdir output_dir :: es.
Proof.
  intros Himg Hh Hrun.
  destruct (py_ceil_div (height img) (SPLIT_HEIGHT cfg)) as [n |] eqn:Hn.
  2:{ unfold py_ceil_div in Hn.
      destruct (Z.eqb_spec (SPLIT_HEIGHT cfg) 0) as [HS |]; [| discriminate].
      rewrite (run_zero_division _ _ img) in Hrun by assumption. discriminate. }
  rewrite (run_tall _ _ img n) in Hrun by assumption.
  rewrite bind_run in Hrun.
  destruct (mapM (resolve_split_point fl cfg img) _ _) as [[actual | e] w1] eqn:Hres;
    [| discriminate].
  apply write_phase_done in Hrun. destruct Hrun as (es & Hes). exists es.
  rewrite Hes, (resolve_all_silent fl cfg img _ _ _ _ Hres). cbn.
  now rewrite app_nil_r.
Qed.

End Outcomes.

(** ** Searches in another order *)

Lemma mapM_Result_ok {A B} (f : A -> Result B) (g : A -> B) l :
  (forall x, f x = Ok (g x)) -> mapM f l = Ok (map g l).
Proof.
  intros H. induction l as [| x l IH]; cbn [mapM map]; [reflexivity |].
  cbn [bind ret Result_Monad]. now rewrite H, IH.
Qed.

Lemma combine_map_self {A B} (g : A -> B) l :
  combine l (map g l) = map (fun x => (x, g x)) l.
Proof. induction l as [| x l IH]; cbn; [reflexivity | now f_equal]. Qed.

(** ** Edge strength against the specification *)

Lemma np_abs_diff_exact l :
  np_abs_f64 (np_diff_f64 exact l) = adjacent_differences l.
Proof.
  induction l as [| x l IH]; [reflexivity |].
  destruct l as [| y l]; [reflexivity |].
  change (Qabs (exact (y - x)) :: np_abs_f64 (np_diff_f64 exact (y :: l))
          = Qabs (y - x) :: adjacent_differences (y :: l)).
  now rewrite IH.
Qed.

Lemma np_sum_exact l a :
  (fold_left (fun acc v => exact (acc + v)) l a == a + fold_right Qplus 0 l)%Q.
Proof.
  revert a. induction l as [| x l IH]; intros a; cbn [fold_left fold_right].
  - ring.
  - rewrite IH. unfold exact. ring.
Qed.

Lemma sum_app (l1 l2 : list Q) :
  (fold_right Qplus 0 (l1 ++ l2) == fold_right Qplus 0 l1 + fold_right Qplus 0 l2)%Q.
Proof.
  induction l1 as [| x l1 IH]; cbn [app fold_right].
  - ring.
  - rewrite IH. ring.
Qed.

(** Without rounding the eight lanes and the values left over add up to
    what they held before plus the values consumed. *)
Lemma unrolled_exact n : forall rest r,
  (length rest <= n)%nat ->
  (r_0 (fst (unrolled exact r rest)) + r_1 (fst (unrolled exact r rest))
   + r_2 (fst (unrolled exact r rest)) + r_3 (fst (unrolled exact r rest))
   + r_4 (fst (unrolled exact r rest)) + r_5 (fst (unrolled exact r rest))
   + r_6 (fst (unrolled exact r rest)) + r_7 (fst (unrolled exact r rest))
   + fold_right Qplus 0 (snd (unrolled exact r rest))
   == r_0 r + r_1 r + r_2 r + r_3 r + r_4 r + r_5 r + r_6 r + r_7 r
      + fold_right Qplus 0 rest)%Q.
Proof.
  induction n as [| n IH]; intros rest r Hlen.
  - destruct rest; [reflexivity | cbn in Hlen; lia].
  - destruct rest as [| x0 [| x1 [| x2 [| x3 [| x4 [| x5 [| x6 [| x7 rest]]]]]]]];
      try reflexivity.
    cbn [unrolled]. rewrite IH by (cbn [length] in Hlen; lia).
    cbn [r_0 r_1 r_2 r_3 r_4 r_5 r_6 r_7 fold_right]. unfold exact. ring.
Qed.

Lemma pairwise_block_exact a :
  (pairwise_block exact a == fold_right Qplus 0 a)%Q.
Proof.
  unfold pairwise_block.
  destruct a as [| x0 [| x1 [| x2 [| x3 [| x4 [| x5 [| x6 [| x7 rest]]]]]]]];
    try (rewrite np_sum_exact; ring).
  pose proof (unrolled_exact (length rest) rest
                {| r_0 := x0; r_1 := x1; r_2 := x2; r_3 := x3;
                   r_4 := x4; r_5 := x5; r_6 := x6; r_7 := x7 |} (Nat.le_refl _)) as H.
  destruct (unrolled exact _ rest) as [r tail].
  cbn [fst snd r_0 r_1 r_2 r_3 r_4 r_5 r_6 r_7] in H.
  rewrite np_sum_exact. cbn [fold_right]. unfold exact.
  transitivity (r_0 r + r_1 r + r_2 r + r_3 r + r_4 r + r_5 r + r_6 r + r_7 r
                + fold_right Qplus 0 tail)%Q; [ring |].
  rewrite H. ring.
Qed.

Lemma half_bounds n : (128 < n -> 0 < half n < n)%nat.
Proof.
  unfold half. intros H.
  pose proof (Nat.div_mod_eq n 2) as H2.
  pose proof (Nat.mod_upper_bound n 2 ltac:(discriminate)) as H3.
  pose proof (Nat.mod_upper_bound (n / 2) 8 ltac:(discriminate)) as H4.
  revert H2 H3 H4.
  generalize ((n / 2) mod 8)%nat (n mod 2)%nat (n / 2)%nat. intros m8 m2 q. lia.
Qed.

(** More fuel than values changes nothing. *)
Lemma pairwise_sum_fuel fl : forall f1 f2 a,
  (length a <= f1)%nat -> (length a <= f2)%nat ->
  pairwise_sum fl f1 a = pairwise_sum fl f2 a.
Proof.
  induction f1 as [| f1 IH]; intros f2 a H1 H2.
  - destruct a; [| cbn in H1; lia]. destruct f2; reflexivity.
  - destruct f2 as [| f2].
    + destruct a; [reflexivity | cbn in H2; lia].
    + cbn [pairwise_sum]. destruct (Nat.ltb_spec 128 (length a)) as [Hl | Hs];
        [| reflexivity].
      pose proof (half_bounds (length a) Hl) as Hh.
      rewrite (IH f2 (firstn _ a)), (IH f2 (skipn _ a));
        rewrite ?length_firstn, ?length_skipn; try lia.
      reflexivity.
Qed.

(** The recursion of numpy's [pairwise_sum], as the C code has it. *)
Lemma pairwise_sum_unfold fl a :
  pairwise_sum fl (length a) a
  = if (128 <? length a)%nat
    then fl (pairwise_sum fl (length (firstn (half (length a)) a))
               (firstn (half (length a)) a)
             + pairwise_sum fl (length (skipn (half (length a)) a))
                 (skipn (half (length a)) a))%Q
    else pairwise_block fl a.
Proof.
  destruct (Nat.ltb_spec 128 (length a)) as [Hl | Hs].
  - pose proof (half_bounds (length a) Hl) as Hh.
    destruct (length a) as [| n] eqn:Hn; [lia |].
    cbn [pairwise_sum]. rewrite Hn.
    destruct (Nat.ltb_spec 128 (S n)) as [_ | ?]; [| lia].
    f_equal. f_equal; apply pairwise_sum_fuel;
      rewrite ?length_firstn, ?length_skipn; lia.
  - destruct (length a) as [| n] eqn:Hn; [reflexivity |].
    cbn [pairwise_sum]. rewrite Hn.
    destruct (Nat.ltb_spec 128 (S n)) as [? | _]; [lia | reflexivity].
Qed.

Lemma pairwise_sum_exact : forall fuel a,
  (pairwise_sum exact fuel a == fold_right Qplus 0 a)%Q.
Proof.
  induction fuel as [| fuel IH]; intros a; cbn [pairwise_sum];
    [apply pairwise_block_exact |].
  destruct (128 <? length a)%nat; [| apply pairwise_block_exact].
  unfold exact at 1. rewrite !IH, <- sum_app, firstn_skipn. reflexivity.
Qed.

Lemma np_sum_f64_exact a : (np_sum_f64 exact a == fold_right Qplus 0 a)%Q.
Proof.
  unfold np_sum_f64. destruct a as [| x a]; [reflexivity |].
  unfold exact at 1. rewrite pairwise_sum_exact. ring.
Qed.

(** With several bands and floats that never round, the script computes
    the edge strength of the specification. *)
Lemma compute_edge_strength_multiband img px y :
  pixels img = Some px -> (1 < bands img)%nat ->
  exists e,
    compute_edge_strength exact img y = Ok e /\
    (e == spec_edge_strength img px y)%Q.
Proof.
  intros Hpx Hb. unfold compute_edge_strength, load. rewrite Hpx.
  cbn [bind ret Result_Monad].
  destruct (Nat.ltb_spec 1 (bands img)) as [_ | ?]; [| lia].
  eexists. split; [reflexivity |].
  unfold spec_edge_strength. rewrite np_sum_f64_exact.
  change (map (np_mean exact) (row_at img px y)) with (map luminance (row_at img px y)).
  rewrite np_abs_diff_exact. reflexivity.
Qed.

(** ** What was printed stays printed *)









(** ** The boxes of a boundary sequence *)

Lemma saved_parts_app es1 es2 :
  saved_parts (es1 ++ es2) = saved_parts es1 ++ saved_parts es2.
Proof. apply flat_map_app. Qed.

(** On a sequence that does not decrease every box is a box of the
    image. *)
Lemma sequence_box_valid cfg actual h i :
  0 <= OVERLAP cfg -> 0 <= h ->
  (forall j, 0 <= j < Z.of_nat (length actual) + 1 ->
     nth (Z.to_nat j) (sequence_of actual h) 0
     <= nth (Z.to_nat (j + 1)) (sequence_of actual h) 0) ->
  0 <= i < Z.of_nat (length actual) + 1 ->
  0 <= fst (part_box cfg (sequence_of actual h) h i) /\
  fst (part_box cfg (sequence_of actual h) h i)
  <= snd (part_box cfg (sequence_of actual h) h i) /\
  snd (part_box cfg (sequence_of actual h) h i) <= h.
Proof.
  intros Hov Hh Hmono Hi. rewrite part_box_cases by lia. cbn [fst snd].
  set (bs := sequence_of actual h) in *.
  set (n := Z.of_nat (length actual) + 1) in *.
  assert (0 <= nth (Z.to_nat i) bs 0) as Hbi.
  { pose proof (nondecreasing_le bs n Hmono (Z.to_nat i) 0 ltac:(lia) ltac:(lia)) as H.
    replace (0 + Z.of_nat (Z.to_nat i)) with i in H by lia. exact H. }
  assert (nth (Z.to_nat (i + 1)) bs 0 <= h) as Hbi1.
  { pose proof (nondecreasing_le bs n Hmono (Z.to_nat (n - (i + 1))) (i + 1)
                  ltac:(lia) ltac:(lia)) as H.
    replace (i + 1 + Z.of_nat (Z.to_nat (n - (i + 1)))) with n in H by lia.
    subst bs n. unfold sequence_of in H. rewrite sequence_last in H. exact H. }
  pose proof (Hmono i ltac:(lia)) as Hstep.
  destruct (i =? 0); destruct (i =? Z.of_nat (length actual)); lia.
Qed.

(** * The claims *)

(** C1. On a decodable image [find_safe_split_point] returns a row of the
    window [[max(0, target_y - search_range), min(height, target_y +
    search_range))] whose edge strength is at most that of every row of the
    window and strictly below that of every earlier row of the window (the
    smallest row attaining the minimum); when the window is empty it
    returns [target_y]. *)
Theorem find_safe_split_point_minimal fl img px target_y search_range :
  pixels img = Some px ->
  exists best,
    find_safe_split_point fl img target_y search_range = Ok best /\
    (Z.min (height img) (target_y + search_range)
       <= Z.max 0 (target_y - search_range) -> best = target_y) /\
    (Z.max 0 (target_y - search_range)
       < Z.min (height img) (target_y + search_range) ->
     Z.max 0 (target_y - search_range) <= best
       < Z.min (height img) (target_y + search_range) /\
     exists e_best,
       compute_edge_strength fl img best = Ok e_best /\
       forall y,
         Z.max 0 (target_y - search_range) <= y
           < Z.min (height img) (target_y + search_range) ->
         exists e,
           compute_edge_strength fl img y = Ok e /\
           (e_best <= e)%Q /\ (y < best -> (e_best < e)%Q)).
Proof.
  intros Hpx.
  destruct (find_scanned fl img px Hpx target_y search_range) as ([m best] & Hf & Hst).
  exists best. split; [exact Hf |].
  unfold scanned, start_of, end_of in Hst. cbn [fst snd] in Hst.
  destruct m as [m |].
  - destruct Hst as (Hm & Hb & Hall & Hfirst). split; [lia |].
    intros Hw. split; [lia |].
    exists m. split; [rewrite Hm; apply (compute_edge_strength_ok fl img px Hpx) |].
    intros y Hy. exists (edge_of fl img y).
    split; [apply (compute_edge_strength_ok fl img px Hpx) |].
    split; [apply Hall; lia |]. intros Hlt. apply Hfirst. lia.
  - destruct Hst as (Hk & ->). split; [reflexivity | lia].
Qed.

Lemma find_safe_split_point_minimal_witness :
  pixels strip = Some (gray_rows 3 10 strip_fn) /\
  exists best,
    find_safe_split_point exact strip 5 3 = Ok best /\
    (Z.min (height strip) (5 + 3) <= Z.max 0 (5 - 3) -> best = 5) /\
    (Z.max 0 (5 - 3) < Z.min (height strip) (5 + 3) ->
     Z.max 0 (5 - 3) <= best < Z.min (height strip) (5 + 3) /\
     exists e_best,
       compute_edge_strength exact strip best = Ok e_best /\
       forall y,
         Z.max 0 (5 - 3) <= y < Z.min (height strip) (5 + 3) ->
         exists e,
           compute_edge_strength exact strip y = Ok e /\
           (e_best <= e)%Q /\ (y < best -> (e_best < e)%Q)).
Proof.
  split; [reflexivity |].
  apply (find_safe_split_point_minimal exact strip (gray_rows 3 10 strip_fn) 5 3).
  reflexivity.
Defined.

(** C2 (the code departs from it).  On a one-band image the differences are
    taken in uint8 and wrap: for the row [[10; 5]] the script returns 251,
    where the sum of absolute differences of the specification is 5. *)
Theorem compute_edge_strength_wraps fl :
  compute_edge_strength fl falling_pair 0 = Ok (inject_Z 251) /\
  spec_edge_strength falling_pair (gray_rows 2 1 (fun x _ => if x =? 0 then 10 else 5)) 0
  = inject_Z 5.
Proof. split; reflexivity. Qed.

(** C6. For a non-negative search range the row returned for a decodable
    image is within [search_range] of the target: [target_y - search_range
    <= actual_y <= target_y + search_range]; it lies in the clamped window
    when that is not empty and is [target_y] itself when it is. *)
Theorem find_safe_split_point_window fl img px target_y search_range :
  pixels img = Some px ->
  0 <= search_range ->
  exists actual_y,
    find_safe_split_point fl img target_y search_range = Ok actual_y /\
    target_y - search_range <= actual_y <= target_y + search_range /\
    (Z.max 0 (target_y - search_range)
       < Z.min (height img) (target_y + search_range) ->
     Z.max 0 (target_y - search_range) <= actual_y
       < Z.min (height img) (target_y + search_range)) /\
    (Z.min (height img) (target_y + search_range)
       <= Z.max 0 (target_y - search_range) -> actual_y = target_y).
Proof.
  intros Hpx Hr.
  destruct (find_in_window fl img px Hpx target_y search_range) as (a & Hf & Hin & Hout).
  unfold start_of, end_of in *.
  exists a. split; [exact Hf |]. split; [| split; assumption].
  destruct (Z_lt_le_dec (Z.max 0 (target_y - search_range))
                        (Z.min (height img) (target_y + search_range))) as [Hw | Hw].
  - specialize (Hin Hw). lia.
  - rewrite (Hout Hw). lia.
Qed.

Lemma find_safe_split_point_window_witness :
  pixels strip = Some (gray_rows 3 10 strip_fn) /\ 0 <= 3 /\
  exists actual_y,
    find_safe_split_point exact strip 9 3 = Ok actual_y /\
    9 - 3 <= actual_y <= 9 + 3 /\
    (Z.max 0 (9 - 3) < Z.min (height strip) (9 + 3) ->
     Z.max 0 (9 - 3) <= actual_y < Z.min (height strip) (9 + 3)) /\
    (Z.min (height strip) (9 + 3) <= Z.max 0 (9 - 3) -> actual_y = 9).
Proof.
  split; [reflexivity |]. split; [lia |].
  apply (find_safe_split_point_window exact strip (gray_rows 3 10 strip_fn) 9 3);
    [reflexivity | lia].
Defined.

(** C3. With the constants of the script, a run on a decodable image taller
    than [MAX_HEIGHT] ends normally, and the row intervals [[y_start,
    y_end)] of the parts it reports and saves cover exactly [[0, height)]:
    the first starts at 0, the last ends at [height], and each part starts
    no later than the previous one ends. *)
Theorem split_covers_image fl env input_path output_dir img px :
  cooperative env input_path output_dir img ->
  pixels img = Some px ->
  MAX_HEIGHT module_constants < height img ->
  exists w' boxes,
    split_long_image fl module_constants env input_path output_dir empty_world
    = (Ok tt, w') /\
    part_boxes (stdout w') = boxes /\
    saved_parts (fs_log w') = map (rows_of img px) boxes /\
    covers (height img) boxes /\
    fst (hd (0, 0) boxes) = 0 /\
    snd (List.last boxes (0, 0)) = height img /\
    chained boxes.
Proof.
  intros (Himg & Hmk & Hsave) Hpx Hh.
  assert (well_configured module_constants) as Hcfg by (unfold well_configured; cbn; lia).
  assert (0 < height img) as Hpos by (cbn in Hh; lia).
  eexists. eexists. split.
  { apply (split_run fl module_constants env input_path output_dir img px);
      assumption. }
  cbn [emit stdout fs_log empty_world app].
  rewrite report_part_boxes, effects_saved_parts.
  rewrite <- (map_map (part_box module_constants _ (height img)) (rows_of img px)).
  rewrite (plan_boxes fl module_constants img Hcfg Hpos).
  split; [reflexivity |]. split; [reflexivity |].
  split; [apply (boxes_cover fl module_constants img px Hpx Hcfg Hpos) |].
  split; [apply (boxes_ends fl module_constants img Hcfg Hpos) |].
  split; [apply (boxes_ends fl module_constants img Hcfg Hpos) |].
  apply (boxes_chained fl module_constants img px Hpx Hcfg Hpos).
Qed.

Lemma split_covers_image_witness :
  exists w' boxes,
    split_long_image exact module_constants (friendly tall) sample_path "output" empty_world
    = (Ok tt, w') /\
    part_boxes (stdout w') = boxes /\
    saved_parts (fs_log w') = map (rows_of tall (gray_rows 2 3600 tall_fn)) boxes /\
    covers (height tall) boxes /\
    fst (hd (0, 0) boxes) = 0 /\
    snd (List.last boxes (0, 0)) = height tall /\
    chained boxes.
Proof.
  apply (split_covers_image exact (friendly tall) sample_path "output" tall
           (gray_rows 2 3600 tall_fn)).
  - split; [reflexivity |]. split; [reflexivity |]. intros q part. reflexivity.
  - reflexivity.
  - reflexivity.
Defined.

(** C4. For constants that are well configured, a run on a decodable image
    taller than [MAX_HEIGHT] ends normally with [n = ceil(height /
    SPLIT_HEIGHT)] parts; they come from the [n - 1] targets [SPLIT_HEIGHT *
    i], [i = 1 .. n - 1], each resolved by its own call of
    [find_safe_split_point] on the original image. *)
Theorem split_count fl cfg env input_path output_dir img px :
  cooperative env input_path output_dir img ->
  pixels img = Some px ->
  well_configured cfg ->
  MAX_HEIGHT cfg < height img ->
  exists w' n,
    split_long_image fl cfg env input_path output_dir empty_world = (Ok tt, w') /\
    py_ceil_div (height img) (SPLIT_HEIGHT cfg) = Some n /\
    SPLIT_HEIGHT cfg * (n - 1) < height img <= SPLIT_HEIGHT cfg * n /\
    Z.of_nat (length (saved_parts (fs_log w'))) = n /\
    Z.of_nat (length (part_boxes (stdout w'))) = n /\
    Z.of_nat (length (split_points (stdout w'))) = n - 1 /\
    map (fun s : Z * Z * Z => (fst (fst s), snd (fst s))) (split_points (stdout w'))
    = map (fun i => (i, SPLIT_HEIGHT cfg * i)) (py_range 1 n) /\
    forall i target_y safe_y,
      In (i, target_y, safe_y) (split_points (stdout w')) ->
      find_safe_split_point fl img target_y (SEARCH_RANGE cfg) = Ok safe_y.
Proof.
  intros (Himg & Hmk & Hsave) Hpx Hcfg Hh.
  pose proof Hcfg as (HM & HS & Hov & Hr).
  assert (0 < height img) as Hpos by lia.
  pose proof (n_splits_pos cfg (height img) HS Hpos) as Hn.
  eexists. exists (n_splits_of cfg (height img)). split.
  { apply (split_run fl cfg env input_path output_dir img px); assumption. }
  cbn [emit stdout fs_log empty_world app].
  rewrite report_part_boxes, effects_saved_parts, report_split_points.
  rewrite !length_map, !py_range_length, map_map. cbn [fst snd].
  split; [apply py_ceil_div_n_splits; lia |].
  split; [apply n_splits_spec; exact HS |].
  split; [lia |]. split; [lia |]. split; [lia |]. split; [reflexivity |].
  intros i t a Hin. apply in_map_iff in Hin. destruct Hin as (j & Hj & _).
  inversion Hj; subst. apply (find_ok fl img px Hpx).
Qed.

Lemma split_count_witness :
  exists w' n,
    split_long_image exact module_constants (friendly tall) sample_path "output" empty_world
    = (Ok tt, w') /\
    py_ceil_div (height tall) (SPLIT_HEIGHT module_constants) = Some n /\
    SPLIT_HEIGHT module_constants * (n - 1) < height tall
      <= SPLIT_HEIGHT module_constants * n /\
    Z.of_nat (length (saved_parts (fs_log w'))) = n /\
    Z.of_nat (length (part_boxes (stdout w'))) = n /\
    Z.of_nat (length (split_points (stdout w'))) = n - 1 /\
    map (fun s : Z * Z * Z => (fst (fst s), snd (fst s))) (split_points (stdout w'))
    = map (fun i => (i, SPLIT_HEIGHT module_constants * i)) (py_range 1 n) /\
    forall i target_y safe_y,
      In (i, target_y, safe_y) (split_points (stdout w')) ->
      find_safe_split_point exact tall target_y (SEARCH_RANGE module_constants)
      = Ok safe_y.
Proof.
  apply (split_count exact module_constants (friendly tall) sample_path "output" tall
           (gray_rows 2 3600 tall_fn)).
  - split; [reflexivity |]. split; [reflexivity |]. intros q part. reflexivity.
  - reflexivity.
  - unfold well_configured. cbn. lia.
  - reflexivity.
Defined.

(** C5. The segmenter is the loop over [range(len(boundaries) - 1)].  Run
    on a boundary sequence [[0; a_1; ...; a_(n-1); h]] that does not
    decrease, with a non-negative overlap, on a decodable image of height
    [h] and where every part can be written, it ends normally having
    reported [n] parts and saved [n] images, in order.  Part 1 is
    [[0, min(a_1 + overlap, h))], the last part is
    [[max(a_(n-1) - overlap, 0), h)], and a part [i] in between is
    [[max(a_(i-1) - overlap, 0), min(a_i + overlap, h))]; every box lies
    within the image, and the image saved for a box is the rows
    [y_start .. y_end - 1] of the original, at full width. *)
Theorem segmenter_boxes cfg env img px input_path output_dir actual w :
  0 <= OVERLAP cfg ->
  pixels img = Some px ->
  Z.of_nat (length px) = height img ->
  (forall q part, save_ok env q part = true) ->
  (forall j, 0 <= j < Z.of_nat (length actual) + 1 ->
     nth (Z.to_nat j) (sequence_of actual (height img)) 0
     <= nth (Z.to_nat (j + 1)) (sequence_of actual (height img)) 0) ->
  exists w' boxes,
    forM_ (write_part cfg env img input_path output_dir
             (sequence_of actual (height img)))
          (py_range 0 (Z.of_nat (length (sequence_of actual (height img))) - 1)) w
    = (Ok tt, w') /\
    part_boxes (stdout w') = part_boxes (stdout w) ++ boxes /\
    saved_parts (fs_log w')
    = saved_parts (fs_log w)
      ++ map (fun b : Z * Z =>
                {| width := width img;
                   height := snd b - fst b;
                   bands := bands img;
                   pixels := Some (firstn (Z.to_nat (snd b - fst b))
                                          (skipn (Z.to_nat (fst b)) px)) |})
             boxes /\
    length boxes = S (length actual) /\
    nth 0 boxes (0, 0)
    = (0, Z.min (nth 1 (sequence_of actual (height img)) 0 + OVERLAP cfg) (height img)) /\
    nth (length actual) boxes (0, 0)
    = (Z.max (nth (length actual) (sequence_of actual (height img)) 0 - OVERLAP cfg) 0,
       height img) /\
    (forall i, (0 < i < length actual)%nat ->
       nth i boxes (0, 0)
       = (Z.max (nth i (sequence_of actual (height img)) 0 - OVERLAP cfg) 0,
          Z.min (nth (S i) (sequence_of actual (height img)) 0 + OVERLAP cfg)
                (height img))) /\
    Forall (fun b : Z * Z => 0 <= fst b /\ fst b <= snd b /\ snd b <= height img) boxes.
Proof.
  intros Hov Hpx Hlen Hsave Hmono.
  set (h := height img) in *.
  set (bs := sequence_of actual h) in *.
  set (n := Z.of_nat (length actual) + 1) in *.
  assert (0 <= h) as Hh by lia.
  assert (Z.of_nat (length bs) - 1 = n) as Hn.
  { subst bs n. unfold sequence_of. rewrite !length_app. cbn [length]. lia. }
  assert (Hvalid : forall i, 0 <= i < n ->
            0 <= fst (part_box cfg bs h i) /\
            fst (part_box cfg bs h i) <= snd (part_box cfg bs h i) /\
            snd (part_box cfg bs h i) <= h).
  { intros i Hi. exact (sequence_box_valid cfg actual h i Hov Hh Hmono Hi). }
  exists (emit (map (part_line cfg input_path bs h) (py_range 0 n))
               (map (part_effect cfg img px input_path output_dir bs) (py_range 0 n)) w),
         (map (part_box cfg bs h) (py_range 0 n)).
  split; [| split; [| split; [| split; [| split; [| split; [| split]]]]]].
  - rewrite Hn. apply write_parts_ok; [exact Hpx | exact Hsave |].
    intros i Hi. apply py_range_In in Hi. apply Hvalid. lia.
  - cbn [emit stdout]. now rewrite part_boxes_app, part_boxes_part_lines.
  - cbn [emit fs_log]. rewrite saved_parts_app, saved_parts_effects, map_map.
    f_equal. apply map_ext_in. intros i Hi. apply py_range_In in Hi.
    destruct (Hvalid i ltac:(lia)) as (H0 & H1 & H2).
    unfold rows_of. fold h. f_equal. f_equal.
    apply rows_slice; [exact Hlen | lia | exact H2].
  - rewrite length_map, py_range_length. subst n. lia.
  - rewrite nth_map_range by (subst n; lia).
    subst bs. rewrite part_box_cases by (subst n; lia).
    change (Z.of_nat 0) with 0.
    destruct (Z.eqb_spec 0 (Z.of_nat (length actual))) as [Hz | Hz]; [| reflexivity].
    destruct actual; [| discriminate]. unfold sequence_of.
    cbn [app nth]. f_equal. lia.
  - rewrite nth_map_range by (subst n; lia).
    subst bs. rewrite part_box_cases by (subst n; lia).
    rewrite Z.eqb_refl, Nat2Z.id.
    destruct (Z.eqb_spec (Z.of_nat (length actual)) 0) as [Hz | Hz]; [| reflexivity].
    destruct actual; [| discriminate]. unfold sequence_of.
    cbn [app nth length]. f_equal. lia.
  - intros i Hi. rewrite nth_map_range by (subst n; lia).
    subst bs. rewrite part_box_cases by (subst n; lia).
    destruct (Z.eqb_spec (Z.of_nat i) 0); [lia |].
    destruct (Z.eqb_spec (Z.of_nat i) (Z.of_nat (length actual))); [lia |].
    rewrite Nat2Z.id. replace (Z.to_nat (Z.of_nat i + 1)) with (S i) by lia.
    reflexivity.
  - apply List.Forall_forall. intros b Hb. apply in_map_iff in Hb.
    destruct Hb as (i & <- & Hi). apply py_range_In in Hi. apply Hvalid. lia.
Qed.

Lemma segmenter_boxes_witness :
  part_boxes
    (stdout (snd (forM_ (write_part one_row_overlap (friendly strip) strip sample_path
                           "output" (sequence_of [3; 6] (height strip)))
                        (py_range 0 3) empty_world)))
  = [(0, 4); (2, 7); (5, 10)] /\
  exists w' boxes,
    forM_ (write_part one_row_overlap (friendly strip) strip sample_path "output"
             (sequence_of [3; 6] (height strip)))
          (py_range 0 (Z.of_nat (length (sequence_of [3; 6] (height strip))) - 1))
          empty_world
    = (Ok tt, w') /\
    part_boxes (stdout w') = part_boxes (stdout empty_world) ++ boxes /\
    saved_parts (fs_log w')
    = saved_parts (fs_log empty_world)
      ++ map (fun b : Z * Z =>
                {| width := width strip;
                   height := snd b - fst b;
                   bands := bands strip;
                   pixels := Some (firstn (Z.to_nat (snd b - fst b))
                                          (skipn (Z.to_nat (fst b))
                                                 (gray_rows 3 10 strip_fn))) |})
             boxes /\
    length boxes = S (length [3; 6]) /\
    nth 0 boxes (0, 0)
    = (0, Z.min (nth 1 (sequence_of [3; 6] (height strip)) 0 + OVERLAP one_row_overlap)
                (height strip)) /\
    nth (length [3; 6]) boxes (0, 0)
    = (Z.max (nth (length [3; 6]) (sequence_of [3; 6] (height strip)) 0
              - OVERLAP one_row_overlap) 0,
       height strip) /\
    (forall i, (0 < i < length [3; 6])%nat ->
       nth i boxes (0, 0)
       = (Z.max (nth i (sequence_of [3; 6] (height strip)) 0 - OVERLAP one_row_overlap) 0,
          Z.min (nth (S i) (sequence_of [3; 6] (height strip)) 0 + OVERLAP one_row_overlap)
                (height strip))) /\
    Forall (fun b : Z * Z => 0 <= fst b /\ fst b <= snd b /\ snd b <= height strip) boxes.
Proof.
  split; [reflexivity |].
  apply (segmenter_boxes one_row_overlap (friendly strip) strip (gray_rows 3 10 strip_fn)
           sample_path "output" [3; 6] empty_world).
  - cbn. lia.
  - reflexivity.
  - reflexivity.
  - reflexivity.
  - intros j Hj. change (Z.of_nat (length [3; 6])) with 2 in Hj.
    assert (j = 0 \/ j = 1 \/ j = 2) as [-> | [-> | ->]] by lia;
      vm_compute; discriminate.
Defined.

(** C7. On an image no taller than [MAX_HEIGHT] the run ends normally, its
    whole report being the loading line, the size line and the line saying
    that no split is needed; it reports no part and does nothing to the file
    system.  Every run that does split and ends normally, even into one
    part, has at least made the output directory, so the two are told apart
    by what they leave behind (both return [None]). *)
Theorem no_split_is_noop fl cfg env input_path output_dir img w :
  image_at env (path_name input_path) = Some img ->
  height img <= MAX_HEIGHT cfg ->
  exists w',
    split_long_image fl cfg env input_path output_dir w = (Ok tt, w') /\
    stdout w' = stdout w ++ [LoadingImage (path_name input_path);
                             ImageSize (width img) (height img);
                             NoNeedToSplit (height img) (MAX_HEIGHT cfg)] /\
    part_boxes (stdout w') = part_boxes (stdout w) /\
    fs_log w' = fs_log w /\
    forall env' p' out' img' w0 w1,
      image_at env' (path_name p') = Some img' ->
      MAX_HEIGHT cfg < height img' ->
      split_long_image fl cfg env' p' out' w0 = (Ok tt, w1) ->
      exists es, fs_log w1 = fs_log w0 ++ Mkdir out' :: es.
Proof.
  intros Himg Hh. eexists. split; [apply run_no_split; eassumption |].
  cbn [emit stdout fs_log]. split; [reflexivity |].
  split; [rewrite part_boxes_app; cbn; apply app_nil_r |].
  split; [apply app_nil_r |].
  intros env' p' out' img' w0 w1 Himg' Hh' Hrun.
  eapply run_done_effects; eassumption.
Qed.

Lemma no_split_is_noop_witness :
  exists w',
    split_long_image exact module_constants (friendly strip) sample_path "output" empty_world
    = (Ok tt, w') /\
    stdout w' = stdout empty_world ++ [LoadingImage (path_name sample_path);
                                       ImageSize (width strip) (height strip);
                                       NoNeedToSplit (height strip)
                                                     (MAX_HEIGHT module_constants)] /\
    part_boxes (stdout w') = part_boxes (stdout empty_world) /\
    fs_log w' = fs_log empty_world /\
    forall env' p' out' img' w0 w1,
      image_at env' (path_name p') = Some img' ->
      MAX_HEIGHT module_constants < height img' ->
      split_long_image exact module_constants env' p' out' w0 = (Ok tt, w1) ->
      exists es, fs_log w1 = fs_log w0 ++ Mkdir out' :: es.
Proof.
  apply (no_split_is_noop exact module_constants (friendly strip) sample_path "output" strip).
  - reflexivity.
  - cbn. lia.
Defined.




(** C10. Whatever the surroundings and however the run ends: if it changed
    the file system at all, the image had been opened and every split point
    resolved; a failure to open the image, or a search that raises, ends
    the run with an exception and the file system as it was. *)
Theorem analysis_precedes_effects fl cfg env input_path output_dir w r w' :
  split_long_image fl cfg env input_path output_dir w = (r, w') ->
  (fs_log w' <> fs_log w ->
   exists img,
     image_at env (path_name input_path) = Some img /\
     MAX_HEIGHT cfg < height img /\ all_resolved fl cfg img) /\
  (image_at env (path_name input_path) = None ->
   r = Raise OpenFailed /\ fs_log w' = fs_log w) /\
  (forall img n i e,
     image_at env (path_name input_path) = Some img ->
     MAX_HEIGHT cfg < height img ->
     py_ceil_div (height img) (SPLIT_HEIGHT cfg) = Some n ->
     1 <= i < n ->
     find_safe_split_point fl img (SPLIT_HEIGHT cfg * i) (SEARCH_RANGE cfg) = Raise e ->
     (exists e', r = Raise e') /\ fs_log w' = fs_log w).
Proof.
  intros Hrun. split; [| split].
  - intros Hne. destruct (run_effects fl cfg env _ _ _ _ _ Hrun) as [Heq | Hres];
      [contradiction | exact Hres].
  - intros Himg. rewrite run_open_fails in Hrun by exact Himg.
    inversion Hrun; subst. split; [reflexivity |]. cbn. apply app_nil_r.
  - intros img n i e Himg Hh Hn Hi Hfail.
    rewrite (run_tall fl cfg env _ _ img n) in Hrun by assumption.
    rewrite bind_run in Hrun.
    destruct (mapM (resolve_split_point fl cfg img) _ _) as [[actual | e'] w1] eqn:Hres.
    + apply resolve_all_inv in Hres.
      destruct (Forall2_enumerate_inv
                  (fun t a => find_safe_split_point fl img t (SEARCH_RANGE cfg) = Ok a)
                  _ _ _ Hres (SPLIT_HEIGHT cfg * i)) as (a & Ha).
      * apply in_map_iff. exists i. split; [reflexivity |]. apply py_range_In. lia.
      * congruence.
    + inversion Hrun; subst. split; [exists e'; reflexivity |].
      rewrite (resolve_all_silent fl cfg img _ _ _ _ Hres). cbn. apply app_nil_r.
Qed.

Lemma analysis_precedes_effects_witness :
  (fs_log {| stdout := [LoadingImage "data/shot.png"; ImageSize 2 3600;
                        SplittingInto 2; FindingPoints];
             fs_log := [] |} <> fs_log empty_world ->
   exists img,
     image_at (friendly tall_damaged) (path_name sample_path) = Some img /\
     MAX_HEIGHT module_constants < height img /\
     all_resolved exact module_constants img) /\
  (image_at (friendly tall_damaged) (path_name sample_path) = None ->
   @Raise unit LoadFailed = Raise OpenFailed /\
   fs_log {| stdout := [LoadingImage "data/shot.png"; ImageSize 2 3600;
                        SplittingInto 2; FindingPoints];
             fs_log := [] |} = fs_log empty_world) /\
  (forall img n i e,
     image_at (friendly tall_damaged) (path_name sample_path) = Some img ->
     MAX_HEIGHT module_constants < height img ->
     py_ceil_div (height img) (SPLIT_HEIGHT module_constants) = Some n ->
     1 <= i < n ->
     find_safe_split_point exact img (SPLIT_HEIGHT module_constants * i)
                           (SEARCH_RANGE module_constants) = Raise e ->
     (exists e', @Raise unit LoadFailed = Raise e') /\
     fs_log {| stdout := [LoadingImage "data/shot.png"; ImageSize 2 3600;
                          SplittingInto 2; FindingPoints];
               fs_log := [] |} = fs_log empty_world).
Proof.
  apply (analysis_precedes_effects exact module_constants (friendly tall_damaged)
           sample_path "output" empty_world).
  reflexivity.
Defined.

(** C9. Two runs on the same decodable image with the same constants, in
    whatever surroundings, from whatever earlier output and under whatever
    file names, both end normally, report the same split points and the
    same part boxes and save the same images.  Each cut is a function of
    the image and of its own target alone: the searches carried out in any
    other order pair every target with the same cut. *)
Theorem split_deterministic fl cfg env1 env2 p1 p2 out1 out2 img px w1 w2 :
  cooperative env1 p1 out1 img ->
  cooperative env2 p2 out2 img ->
  pixels img = Some px ->
  well_configured cfg ->
  MAX_HEIGHT cfg < height img ->
  exists ls1 es1 ls2 es2,
    split_long_image fl cfg env1 p1 out1 w1 = (Ok tt, emit ls1 es1 w1) /\
    split_long_image fl cfg env2 p2 out2 w2 = (Ok tt, emit ls2 es2 w2) /\
    split_points ls1 = split_points ls2 /\
    part_boxes ls1 = part_boxes ls2 /\
    saved_parts es1 = saved_parts es2 /\
    forall order,
      Permutation (targets_of cfg (height img)) order ->
      exists cuts,
        mapM (fun t => find_safe_split_point fl img t (SEARCH_RANGE cfg)) order = Ok cuts /\
        forall t a,
          In (t, a) (combine order cuts) <->
          In (t, a) (map (fun s : Z * Z * Z => (snd (fst s), snd s)) (split_points ls1)).
Proof.
  intros (Himg1 & Hmk1 & Hsave1) (Himg2 & Hmk2 & Hsave2) Hpx Hcfg Hh.
  exists (report fl cfg p1 out1 img), (effects fl cfg p1 out1 img px),
         (report fl cfg p2 out2 img), (effects fl cfg p2 out2 img px).
  split; [apply split_run; assumption |].
  split; [apply split_run; assumption |].
  rewrite !report_split_points, !report_part_boxes, !effects_saved_parts.
  split; [reflexivity |]. split; [reflexivity |]. split; [reflexivity |].
  intros order Hperm.
  exists (map (fun t => safe_of fl img t (SEARCH_RANGE cfg)) order).
  split; [apply mapM_Result_ok; intros t; apply (find_ok fl img px Hpx) |].
  intros t a. rewrite combine_map_self, map_map. cbn [fst snd].
  rewrite !in_map_iff. split.
  - intros (t' & Heq & Hin). inversion Heq; subst.
    apply (Permutation_in _ (Permutation_sym Hperm)) in Hin.
    unfold targets_of in Hin. apply in_map_iff in Hin. destruct Hin as (i & <- & Hi).
    exists i. split; [reflexivity | exact Hi].
  - intros (i & Heq & Hi). inversion Heq; subst.
    exists (SPLIT_HEIGHT cfg * i). split; [reflexivity |].
    apply (Permutation_in _ Hperm). unfold targets_of. apply in_map. exact Hi.
Qed.

Lemma split_deterministic_witness :
  exists ls1 es1 ls2 es2,
    split_long_image exact module_constants (friendly tall) sample_path "output"
                     empty_world
    = (Ok tt, emit ls1 es1 empty_world) /\
    split_long_image exact module_constants (friendly tall) sample_path "elsewhere"
                     {| stdout := [FindingPoints]; fs_log := [Mkdir "old"] |}
    = (Ok tt, emit ls2 es2 {| stdout := [FindingPoints]; fs_log := [Mkdir "old"] |}) /\
    split_points ls1 = split_points ls2 /\
    part_boxes ls1 = part_boxes ls2 /\
    saved_parts es1 = saved_parts es2 /\
    forall order,
      Permutation (targets_of module_constants (height tall)) order ->
      exists cuts,
        mapM (fun t => find_safe_split_point exact tall t (SEARCH_RANGE module_constants))
             order = Ok cuts /\
        forall t a,
          In (t, a) (combine order cuts) <->
          In (t, a) (map (fun s : Z * Z * Z => (snd (fst s), snd s)) (split_points ls1)).
Proof.
  apply (split_deterministic exact module_constants (friendly tall) (friendly tall)
           sample_path sample_path "output" "elsewhere" tall (gray_rows 2 3600 tall_fn)).
  - split; [reflexivity |]. split; [reflexivity |]. intros q part. reflexivity.
  - split; [reflexivity |]. split; [reflexivity |]. intros q part. reflexivity.
  - reflexivity.
  - unfold well_configured. cbn. lia.
  - reflexivity.
Defined.

(** * Further properties of [split_long_image.py] *)

(** ** [compute_edge_strength] *)

Lemma nth_Forall {A} (P : A -> Prop) (l : list A) (d : A) n :
  Forall P l -> P d -> P (nth n l d).
Proof.
  intros Hl Hd. revert n. induction Hl as [| x l Hx _ IH]; intros [| n]; cbn; auto.
Qed.

Lemma row_at_Forall (P : list Pixel -> Prop) img px y :
  Forall P px -> P (blank_row img) -> P (row_at img px y).
Proof.
  intros Hpx Hb. unfold row_at.
  destruct ((0 <=? y) && (y <? height img)); [| exact Hb].
  apply nth_Forall; assumption.
Qed.

(** X1. A decodable image at most one pixel wide has edge strength 0 in
    every row, inside or outside the image, with one band or several and
    whatever the rounding: there is no pair of adjacent pixels. *)
Theorem narrow_rows_have_no_edges fl img px y :
  pixels img = Some px ->
  width img <= 1 ->
  Forall (fun r : list Pixel => (length r <= 1)%nat) px ->
  compute_edge_strength fl img y = Ok 0%Q.
Proof.
  intros Hpx Hw Hrows.
  assert ((length (row_at img px y) <= 1)%nat) as Hlen.
  { apply (row_at_Forall (fun r => (length r <= 1)%nat)); [exact Hrows |].
    unfold blank_row. rewrite repeat_length. lia. }
  unfold compute_edge_strength, load. rewrite Hpx. cbn [bind ret Result_Monad].
  destruct (row_at img px y) as [| p [| q r]]; cbn [length] in Hlen; [| | lia];
    destruct (1 <? bands img)%nat; reflexivity.
Qed.

Lemma narrow_rows_have_no_edges_witness :
  compute_edge_strength exact tiny 1 = Ok 0%Q.
Proof.
  apply (narrow_rows_have_no_edges exact tiny (gray_rows 1 2 (fun _ y => y)) 1).
  - reflexivity.
  - cbn. lia.
  - repeat constructor.
Defined.

Lemma np_diff_u8_length l : length (np_diff_u8 l) = (length l - 1)%nat.
Proof.
  induction l as [| x l IH]; [reflexivity |].
  destruct l as [| y l]; [reflexivity |].
  change (S (length (np_diff_u8 (y :: l))) = (length (x :: y :: l) - 1)%nat).
  rewrite IH. cbn [length]. lia.
Qed.

Lemma np_diff_u8_range l : Forall (fun d => 0 <= d <= 255) (np_diff_u8 l).
Proof.
  induction l as [| x l IH]; [constructor |].
  destruct l as [| y l]; [constructor |].
  change (Forall (fun d => 0 <= d <= 255)
            (((y - x) mod 256) :: np_diff_u8 (y :: l))).
  constructor; [| exact IH].
  pose proof (Z.mod_pos_bound (y - x) 256 ltac:(lia)). lia.
Qed.

Lemma np_sum_u64_bound ds : forall acc,
  Forall (fun d => 0 <= d <= 255) ds -> 0 <= acc ->
  0 <= fold_left (fun acc v => (acc + v) mod 2 ^ 64) ds acc
    <= acc + 255 * Z.of_nat (length ds).
Proof.
  induction ds as [| d ds IH]; intros acc Hds Hacc; cbn [fold_left length].
  - lia.
  - inversion Hds as [| ? ? Hd Hrest]; subst.
    pose proof (Z.mod_pos_bound (acc + d) (2 ^ 64) ltac:(lia)) as Hm.
    pose proof (Z.mod_le (acc + d) (2 ^ 64) ltac:(lia) ltac:(lia)) as Hle.
    specialize (IH ((acc + d) mod 2 ^ 64) Hrest ltac:(lia)). lia.
Qed.

(** X2. On a one-band image the edge strength is a whole number between 0
    and 255 for each pair of adjacent pixels of the row, whatever the pixel
    values. *)
Theorem gray_edge_strength_bounded fl img px y :
  pixels img = Some px ->
  (bands img <= 1)%nat ->
  exists n,
    compute_edge_strength fl img y = Ok (inject_Z n) /\
    0 <= n <= 255 * Z.of_nat (length (row_at img px y) - 1).
Proof.
  intros Hpx Hb. unfold compute_edge_strength, load. rewrite Hpx.
  cbn [bind ret Result_Monad].
  destruct (Nat.ltb_spec 1 (bands img)) as [? | _]; [lia |].
  eexists. split; [reflexivity |].
  unfold np_sum_u64, np_abs_u8.
  pose proof (np_sum_u64_bound _ 0 (np_diff_u8_range
                (map (fun p => hd 0 p) (row_at img px y))) ltac:(lia)) as H.
  rewrite np_diff_u8_length, length_map, Z.add_0_l in H. exact H.
Qed.

Lemma gray_edge_strength_bounded_witness :
  exists n,
    compute_edge_strength exact falling_pair 0 = Ok (inject_Z n) /\
    0 <= n <= 255 * Z.of_nat (length (row_at falling_pair
                 (gray_rows 2 1 (fun x _ => if x =? 0 then 10 else 5)) 0) - 1).
Proof.
  apply (gray_edge_strength_bounded exact falling_pair
           (gray_rows 2 1 (fun x _ => if x =? 0 then 10 else 5)) 0).
  - reflexivity.
  - cbn. lia.
Defined.

Lemma rising_diff_sum : forall vs x acc,
  rising (x :: vs) = true ->
  Forall (fun v => 0 <= v < 256) (x :: vs) ->
  0 <= acc -> acc + 255 - x < 2 ^ 64 ->
  fold_left (fun acc v => (acc + v) mod 2 ^ 64) (np_diff_u8 (x :: vs)) acc
  = acc + (List.last (x :: vs) 0 - x).
Proof.
  induction vs as [| y vs IH]; intros x acc Hr Hv Hacc Hbig.
  - cbn. lia.
  - change (np_diff_u8 (x :: y :: vs)) with (((y - x) mod 256) :: np_diff_u8 (y :: vs)).
    cbn [fold_left].
    change (rising (x :: y :: vs)) with ((x <=? y) && rising (y :: vs)) in Hr.
    apply andb_true_iff in Hr. destruct Hr as [Hxy Hr]. apply Z.leb_le in Hxy.
    inversion Hv as [| ? ? Hx Hv']; subst.
    pose proof Hv' as Hv''. inversion Hv'' as [| ? ? Hy _]; subst.
    rewrite (Z.mod_small (y - x) 256) by lia.
    rewrite (Z.mod_small (acc + (y - x))) by lia.
    rewrite IH by (assumption || lia).
    change (List.last (x :: y :: vs) 0) with (List.last (y :: vs) 0). lia.
Qed.

Lemma luminance_gray v : (luminance [v] == inject_Z v)%Q.
Proof.
  unfold luminance. change (Z.of_nat (length [v])) with 1. cbn [fold_left].
  unfold Qdiv, Qinv, Qmult, Qeq, inject_Z. cbn. lia.
Qed.

Lemma adjacent_differences_cons a b l :
  adjacent_differences (a :: b :: l) = Qabs (b - a) :: adjacent_differences (b :: l).
Proof. reflexivity. Qed.

Lemma spec_rising_sum : forall vs x,
  rising (x :: vs) = true ->
  (fold_right Qplus 0
     (adjacent_differences (map luminance (map (fun v => [v]) (x :: vs))))
   == inject_Z (List.last (x :: vs) 0%Z - x)%Z)%Q.
Proof.
  induction vs as [| y vs IH]; intros x Hr.
  - cbn [map adjacent_differences fold_right List.last]. rewrite Z.sub_diag. reflexivity.
  - change (rising (x :: y :: vs)) with ((x <=? y) && rising (y :: vs)) in Hr.
    apply andb_true_iff in Hr. destruct Hr as [Hxy Hr]. apply Z.leb_le in Hxy.
    specialize (IH y Hr).
    change (List.last (x :: y :: vs) 0) with (List.last (y :: vs) 0).
    cbn [map] in IH |- *. rewrite adjacent_differences_cons. cbn [fold_right].
    rewrite IH, !luminance_gray. unfold Qminus.
    rewrite <- inject_Z_opp, <- inject_Z_plus.
    rewrite Qabs_pos by (change 0%Q with (inject_Z 0); rewrite <- Zle_Qle; lia).
    rewrite <- inject_Z_plus. apply inject_Z_injective. lia.
Qed.

(** X3. The wrap-around only hurts on falling edges: on a row of a one-band
    image whose values never fall from left to right, the script returns
    exactly the rise from the first pixel to the last, which is the sum of
    absolute differences of the specification. *)
Theorem rising_gray_row_is_exact fl img px y vs :
  pixels img = Some px ->
  (bands img <= 1)%nat ->
  row_at img px y = map (fun v => [v]) vs ->
  Forall (fun v => 0 <= v < 256) vs ->
  rising vs = true ->
  compute_edge_strength fl img y = Ok (inject_Z (List.last vs 0 - hd 0 vs)) /\
  (inject_Z (List.last vs 0%Z - hd 0%Z vs)%Z == spec_edge_strength img px y)%Q.
Proof.
  intros Hpx Hb Hrow Hv Hr.
  unfold compute_edge_strength, spec_edge_strength, load. rewrite Hpx, Hrow.
  cbn [bind ret Result_Monad].
  destruct (Nat.ltb_spec 1 (bands img)) as [? | _]; [lia |].
  rewrite ?Hrow.
  assert (map (fun p => hd 0 p) (map (fun v => [v]) vs) = vs) as ->
    by (rewrite map_map; exact (map_id vs)).
  destruct vs as [| x vs]; [split; reflexivity |].
  split.
  - unfold np_sum_u64, np_abs_u8. do 2 f_equal.
    rewrite (rising_diff_sum vs x 0 Hr Hv) by (inversion Hv; lia). cbn [hd]. lia.
  - symmetry. apply (spec_rising_sum vs x Hr).
Qed.

Lemma rising_gray_row_is_exact_witness :
  compute_edge_strength exact strip 2 = Ok (inject_Z (List.last [0; 2; 4] 0 - hd 0 [0; 2; 4])) /\
  (inject_Z (List.last [0; 2; 4] 0 - hd 0 [0; 2; 4])%Z
   == spec_edge_strength strip (gray_rows 3 10 strip_fn) 2)%Q.
Proof.
  apply (rising_gray_row_is_exact exact strip (gray_rows 3 10 strip_fn) 2 [0; 2; 4]).
  - reflexivity.
  - cbn. lia.
  - reflexivity.
  - repeat constructor; lia.
  - reflexivity.
Defined.

(** ** [find_safe_split_point] *)

(** X4. When every row of a non-empty window has the same edge strength (a
    solid-colour stretch, say) the cut is put at the top of the window,
    [max(0, target_y - search_range)], not at the target. *)
Theorem tied_window_cuts_at_its_top fl img px target_y search_range :
  pixels img = Some px ->
  Z.max 0 (target_y - search_range) < Z.min (height img) (target_y + search_range) ->
  (forall y,
     Z.max 0 (target_y - search_range) <= y
       < Z.min (height img) (target_y + search_range) ->
     exists e e0,
       compute_edge_strength fl img y = Ok e /\
       compute_edge_strength fl img (Z.max 0 (target_y - search_range)) = Ok e0 /\
       (e == e0)%Q) ->
  find_safe_split_point fl img target_y search_range
  = Ok (Z.max 0 (target_y - search_range)).
Proof.
  intros Hpx Hw Htie.
  destruct (find_scanned fl img px Hpx target_y search_range) as ([m best] & Hf & Hst).
  rewrite Hf. cbn [snd]. f_equal.
  unfold scanned, start_of, end_of in Hst. cbn [fst snd] in Hst.
  destruct m as [m |]; [| lia].
  destruct Hst as (Hm & Hb & _ & Hfirst).
  destruct (Z.eq_dec best (Z.max 0 (target_y - search_range))) as [-> | Hne];
    [reflexivity | exfalso].
  specialize (Hfirst (Z.max 0 (target_y - search_range)) ltac:(lia)).
  destruct (Htie best ltac:(lia)) as (e & e0 & He & He0 & Heq).
  rewrite (compute_edge_strength_ok fl img px Hpx) in He, He0.
  inversion He; inversion He0; subst.
  rewrite Heq in Hfirst. exact (Qlt_irrefl _ Hfirst).
Qed.

Lemma tied_window_cuts_at_its_top_witness :
  find_safe_split_point exact (gray_image 2 10 (fun _ _ => 7)) 5 3
  = Ok (Z.max 0 (5 - 3)).
Proof.
  apply (tied_window_cuts_at_its_top exact (gray_image 2 10 (fun _ _ => 7))
           (gray_rows 2 10 (fun _ _ => 7)) 5 3).
  - reflexivity.
  - cbn. lia.
  - intros y Hy. cbn in Hy.
    assert (y = 2 \/ y = 3 \/ y = 4 \/ y = 5 \/ y = 6 \/ y = 7)
      as [-> | [-> | [-> | [-> | [-> | ->]]]]] by lia;
      exists 0%Q, 0%Q; repeat split; reflexivity.
Defined.

(** X5. On an image whose pixel data cannot be decoded the search raises as
    soon as it has a row to look at; with an empty window (a search range
    of 0 or less, or a target too far outside the image) it returns the
    target without touching the pixels. *)
Theorem search_on_damaged_image fl img target_y search_range :
  pixels img = None ->
  find_safe_split_point fl img target_y search_range
  = if Z.max 0 (target_y - search_range) <? Z.min (height img) (target_y + search_range)
    then Raise LoadFailed
    else Ok target_y.
Proof.
  intros Hpx. unfold find_safe_split_point.
  destruct (Z.ltb_spec (Z.max 0 (target_y - search_range))
                       (Z.min (height img) (target_y + search_range))) as [Hw | Hw].
  - rewrite py_range_cons by exact Hw. cbn [scan].
    unfold compute_edge_strength, load. rewrite Hpx. reflexivity.
  - rewrite py_range_nil by exact Hw. reflexivity.
Qed.

Lemma search_on_damaged_image_witness :
  find_safe_split_point exact tall_damaged 3000 0
  = if Z.max 0 (3000 - 0) <? Z.min (height tall_damaged) (3000 + 0)
    then Raise LoadFailed
    else Ok 3000.
Proof.
  apply (search_on_damaged_image exact tall_damaged 3000 0). reflexivity.
Defined.

(** ** The plan of [split_long_image] *)

(** X6. Cuts never cross: when the search range is at most half the
    segment height, the cuts found for two targets [SPLIT_HEIGHT * i] and
    [SPLIT_HEIGHT * j], [i < j], of a decodable image are in the same
    order, lie strictly inside the image, and each is no farther from its
    own target than the search range, however the earlier cuts fell. *)
Theorem cuts_never_cross fl cfg img px i j a b :
  pixels img = Some px ->
  0 < SPLIT_HEIGHT cfg ->
  2 * SEARCH_RANGE cfg <= SPLIT_HEIGHT cfg ->
  1 <= i < j ->
  SPLIT_HEIGHT cfg * j < height img ->
  find_safe_split_point fl img (SPLIT_HEIGHT cfg * i) (SEARCH_RANGE cfg) = Ok a ->
  find_safe_split_point fl img (SPLIT_HEIGHT cfg * j) (SEARCH_RANGE cfg) = Ok b ->
  0 < a < b /\ b < height img /\
  Z.abs (a - SPLIT_HEIGHT cfg * i) <= Z.max (SEARCH_RANGE cfg) 0 /\
  Z.abs (b - SPLIT_HEIGHT cfg * j) <= Z.max (SEARCH_RANGE cfg) 0.
Proof.
  intros Hpx HS Hr Hij Hj Ha Hb.
  destruct (find_in_window fl img px Hpx (SPLIT_HEIGHT cfg * i) (SEARCH_RANGE cfg))
    as (a' & Ha' & Hain & Haout).
  destruct (find_in_window fl img px Hpx (SPLIT_HEIGHT cfg * j) (SEARCH_RANGE cfg))
    as (b' & Hb' & Hbin & Hbout).
  rewrite Ha in Ha'. rewrite Hb in Hb'. inversion Ha'; inversion Hb'; subst a' b'.
  unfold start_of, end_of in *.
  assert (SPLIT_HEIGHT cfg * i + SPLIT_HEIGHT cfg <= SPLIT_HEIGHT cfg * j) by nia.
  assert (SPLIT_HEIGHT cfg <= SPLIT_HEIGHT cfg * i) by nia.
  destruct (Z_lt_le_dec 0 (SEARCH_RANGE cfg)) as [Hpos | Hneg].
  - specialize (Hain ltac:(lia)). specialize (Hbin ltac:(lia)). lia.
  - rewrite (Haout ltac:(lia)), (Hbout ltac:(lia)). lia.
Qed.

Lemma cuts_never_cross_witness :
  0 < 2 < 6 /\ 6 < height strip /\
  Z.abs (2 - SPLIT_HEIGHT {| MAX_HEIGHT := 4; SPLIT_HEIGHT := 3;
                             SEARCH_RANGE := 1; OVERLAP := 0 |} * 1)
    <= Z.max (SEARCH_RANGE {| MAX_HEIGHT := 4; SPLIT_HEIGHT := 3;
                              SEARCH_RANGE := 1; OVERLAP := 0 |}) 0 /\
  Z.abs (6 - SPLIT_HEIGHT {| MAX_HEIGHT := 4; SPLIT_HEIGHT := 3;
                             SEARCH_RANGE := 1; OVERLAP := 0 |} * 2)
    <= Z.max (SEARCH_RANGE {| MAX_HEIGHT := 4; SPLIT_HEIGHT := 3;
                              SEARCH_RANGE := 1; OVERLAP := 0 |}) 0.
Proof.
  apply (cuts_never_cross exact
           {| MAX_HEIGHT := 4; SPLIT_HEIGHT := 3; SEARCH_RANGE := 1; OVERLAP := 0 |}
           strip (gray_rows 3 10 strip_fn) 1 2 2 6).
  - reflexivity.
  - cbn. lia.
  - cbn. lia.
  - lia.
  - cbn. lia.
  - reflexivity.
  - reflexivity.
Defined.

Section DefaultPlan.

Variable fl : Q -> Q.
Variable img : Image.
Variable px : list (list Pixel).
Hypothesis decoded : pixels img = Some px.
Hypothesis tall_enough : MAX_HEIGHT module_constants < height img.

Let n := n_splits_of module_constants (height img).
Let box := box_of fl module_constants img.
Let bs := boundaries_of fl module_constants img.

Lemma default_n_splits : 2 <= n /\ 3000 * (n - 1) < height img <= 3000 * n.
Proof.
  pose proof (n_splits_spec module_constants (height img) ltac:(cbn; lia)) as H.
  fold n in H. cbn [SPLIT_HEIGHT MAX_HEIGHT module_constants] in H, tall_enough. lia.
Qed.

Lemma default_cut j :
  1 <= j < n ->
  0 <= nth (Z.to_nat j) bs 0 < height img /\
  3000 * j - 100 <= nth (Z.to_nat j) bs 0 <= 3000 * j + 100.
Proof.
  intros Hj.
  pose proof (boundary_bounds fl module_constants img px j decoded
                ltac:(cbn; lia) Hj) as H.
  cbv zeta in H. cbn [SPLIT_HEIGHT SEARCH_RANGE module_constants] in H.
  fold bs in H. lia.
Qed.

Lemma default_box_height i :
  0 <= i < n -> 51 <= snd (box i) - fst (box i) <= 3300.
Proof.
  intros Hi. destruct default_n_splits as (Hn & Hlo & Hhi).
  unfold box, box_of. cbn [fst snd OVERLAP module_constants]. fold n bs.
  destruct (Z.eqb_spec i 0) as [Hi0 | Hi0];
    destruct (Z.eqb_spec i (n - 1)) as [Hin | Hin].
  - lia.
  - pose proof (default_cut (i + 1) ltac:(lia)). lia.
  - pose proof (default_cut i ltac:(lia)). lia.
  - pose proof (default_cut i ltac:(lia)).
    pose proof (default_cut (i + 1) ltac:(lia)). lia.
Qed.

Lemma default_box_overlap i :
  0 <= i -> i + 1 < n ->
  51 <= snd (box i) - fst (box (i + 1)) <= 100 /\
  (snd (box i) - fst (box (i + 1)) = 100 \/ snd (box i) = height img).
Proof.
  intros Hi Hn. unfold box, box_of. cbn [fst snd OVERLAP module_constants]. fold n bs.
  destruct (Z.eqb_spec (i + 1) 0); [lia |].
  destruct (Z.eqb_spec i (n - 1)); [lia |].
  pose proof (default_cut (i + 1) ltac:(lia)). lia.
Qed.

End DefaultPlan.

(** X7. With the constants of the script no part is taller than 3300 rows
    (segment height, plus the drift of two cuts, plus two overlaps) and none
    is shorter than 51: every part reported and every image saved by a run
    on a decodable image taller than [MAX_HEIGHT] has a height in that
    range and the full width. *)
Theorem default_parts_are_bounded fl env input_path output_dir img px :
  cooperative env input_path output_dir img ->
  pixels img = Some px ->
  MAX_HEIGHT module_constants < height img ->
  exists w',
    split_long_image fl module_constants env input_path output_dir empty_world
    = (Ok tt, w') /\
    Forall (fun b : Z * Z => 51 <= snd b - fst b <= 3300) (part_boxes (stdout w')) /\
    Forall (fun part => 51 <= height part <= 3300 /\ width part = width img)
           (saved_parts (fs_log w')).
Proof.
  intros (Himg & Hmk & Hsave) Hpx Hh.
  assert (well_configured module_constants) as Hcfg by (unfold well_configured; cbn; lia).
  assert (0 < height img) as Hpos by (cbn in Hh; lia).
  eexists. split.
  { apply (split_run fl module_constants env input_path output_dir img px);
      assumption. }
  cbn [emit stdout fs_log empty_world app].
  rewrite report_part_boxes, effects_saved_parts.
  rewrite <- (map_map (part_box module_constants _ (height img)) (rows_of img px)).
  rewrite (plan_boxes fl module_constants img Hcfg Hpos).
  split.
  - apply List.Forall_forall. intros b Hb. apply in_map_iff in Hb.
    destruct Hb as (i & <- & Hi). apply py_range_In in Hi.
    apply (default_box_height fl img px Hpx Hh). lia.
  - apply List.Forall_forall. intros part Hp. apply in_map_iff in Hp.
    destruct Hp as (b & <- & Hb). apply in_map_iff in Hb.
    destruct Hb as (i & <- & Hi). apply py_range_In in Hi.
    cbn [rows_of height width]. split; [| reflexivity].
    apply (default_box_height fl img px Hpx Hh). lia.
Qed.

Lemma default_parts_are_bounded_witness :
  exists w',
    split_long_image exact module_constants (friendly tall) sample_path "output" empty_world
    = (Ok tt, w') /\
    Forall (fun b : Z * Z => 51 <= snd b - fst b <= 3300) (part_boxes (stdout w')) /\
    Forall (fun part => 51 <= height part <= 3300 /\ width part = width tall)
           (saved_parts (fs_log w')).
Proof.
  apply (default_parts_are_bounded exact (friendly tall) sample_path "output" tall
           (gray_rows 2 3600 tall_fn)).
  - split; [reflexivity |]. split; [reflexivity |]. intros q part. reflexivity.
  - reflexivity.
  - reflexivity.
Defined.

(** X8. With the constants of the script two consecutive parts share
    [2 * OVERLAP = 100] rows, the 50 above and the 50 below the cut; they
    share fewer, but at least 51, only when the cut is so near the bottom
    that the upper part is clipped at the last row of the image. *)
Theorem default_parts_overlap fl env input_path output_dir img px :
  cooperative env input_path output_dir img ->
  pixels img = Some px ->
  MAX_HEIGHT module_constants < height img ->
  exists w',
    split_long_image fl module_constants env input_path output_dir empty_world
    = (Ok tt, w') /\
    forall k, (S k < length (part_boxes (stdout w')))%nat ->
      51 <= snd (nth k (part_boxes (stdout w')) (0, 0))
            - fst (nth (S k) (part_boxes (stdout w')) (0, 0)) <= 100 /\
      (snd (nth k (part_boxes (stdout w')) (0, 0))
       - fst (nth (S k) (part_boxes (stdout w')) (0, 0)) = 100 \/
       snd (nth k (part_boxes (stdout w')) (0, 0)) = height img).
Proof.
  intros (Himg & Hmk & Hsave) Hpx Hh.
  assert (well_configured module_constants) as Hcfg by (unfold well_configured; cbn; lia).
  assert (0 < height img) as Hpos by (cbn in Hh; lia).
  eexists. split.
  { apply (split_run fl module_constants env input_path output_dir img px);
      assumption. }
  cbn [emit stdout fs_log empty_world app].
  rewrite report_part_boxes, (plan_boxes fl module_constants img Hcfg Hpos).
  intros k Hk. rewrite length_map, py_range_length in Hk.
  rewrite !nth_map_range by lia.
  replace (Z.of_nat (S k)) with (Z.of_nat k + 1) by lia.
  apply (default_box_overlap fl img px Hpx); lia.
Qed.

Lemma default_parts_overlap_witness :
  exists w',
    split_long_image exact module_constants (friendly tall) sample_path "output" empty_world
    = (Ok tt, w') /\
    forall k, (S k < length (part_boxes (stdout w')))%nat ->
      51 <= snd (nth k (part_boxes (stdout w')) (0, 0))
            - fst (nth (S k) (part_boxes (stdout w')) (0, 0)) <= 100 /\
      (snd (nth k (part_boxes (stdout w')) (0, 0))
       - fst (nth (S k) (part_boxes (stdout w')) (0, 0)) = 100 \/
       snd (nth k (part_boxes (stdout w')) (0, 0)) = height tall).
Proof.
  apply (default_parts_overlap exact (friendly tall) sample_path "output" tall
           (gray_rows 2 3600 tall_fn)).
  - split; [reflexivity |]. split; [reflexivity |]. intros q part. reflexivity.
  - reflexivity.
  - reflexivity.
Defined.

(** ** Failures while writing *)

Section Writing.

Variable fl : Q -> Q.
Variable cfg : Config.
Variable env : Env.

(** The writing loop stops at the first part that cannot be saved. *)
Lemma write_parts_stop img px input_path output_dir boundaries k l2 :
  pixels img = Some px ->
  forall l1 w,
    (forall i, In i (l1 ++ [k]) ->
       fst (part_box cfg boundaries (height img) i)
       <= snd (part_box cfg boundaries (height img) i)) ->
    (forall i, In i l1 ->
       save_ok env (part_path input_path output_dir i)
               (rows_of img px (part_box cfg boundaries (height img) i)) = true) ->
    save_ok env (part_path input_path output_dir k)
            (rows_of img px (part_box cfg boundaries (height img) k)) = false ->
    forM_ (write_part cfg env img input_path output_dir boundaries) (l1 ++ k :: l2) w
    = (Raise SaveFailed,
       emit (map (part_line cfg input_path boundaries (height img)) l1)
            (map (part_effect cfg img px input_path output_dir boundaries) l1) w).
Proof.
  intros Hpx. induction l1 as [| i l1 IH]; intros w Hbox Hok Hfail; cbn [app forM_ map].
  - rewrite bind_run. unfold write_part at 1.
    specialize (Hbox k (or_introl eq_refl)) as Hk.
    unfold part_path, part_filename, rows_of in Hfail.
    destruct (part_box cfg boundaries (height img) k) as [y_start y_end] eqn:Eb.
    cbn [fst snd] in Hk, Hfail.
    rewrite bind_run, lift_run, (crop_ok img px Hpx) by exact Hk.
    cbv beta iota. rewrite bind_run. unfold save. rewrite Hfail.
    unfold raise. rewrite lift_run, emit_nil. reflexivity.
  - rewrite bind_run. unfold write_part at 1, part_line at 1, part_effect at 1.
    specialize (Hbox i (or_introl eq_refl)) as Hi.
    specialize (Hok i (or_introl eq_refl)) as Hs.
    unfold part_path, part_filename, rows_of in Hs |- *.
    destruct (part_box cfg boundaries (height img) i) as [y_start y_end] eqn:Eb.
    cbn [fst snd] in Hi, Hs |- *.
    rewrite bind_run, lift_run, (crop_ok img px Hpx) by exact Hi.
    cbv beta iota. rewrite bind_run. unfold save. rewrite Hs.
    rewrite fs_do_run. cbv beta iota. rewrite print_run, emit_emit.
    rewrite IH; [rewrite emit_emit; reflexivity | | | exact Hfail].
    + intros j Hj. apply Hbox. now right.
    + intros j Hj. apply Hok. now right.
Qed.

Lemma py_range_split a k b :
  a <= k < b -> py_range a b = py_range a k ++ k :: py_range (k + 1) b.
Proof.
  intros H. remember (Z.to_nat (k - a)) as m eqn:Hm. revert a H Hm.
  induction m as [| m IH]; intros a H Hm.
  - replace a with k by lia. rewrite (py_range_nil k k) by lia.
    rewrite py_range_cons by lia. reflexivity.
  - rewrite (py_range_cons a b), (py_range_cons a k) by lia.
    cbn [app]. f_equal. apply IH; lia.
Qed.

Lemma split_lines_no_done m ts : forall actual k,
  ~ In (Done m) (split_lines k ts actual).
Proof.
  induction ts as [| t ts IH]; intros [| a actual] k Hin; cbn in Hin; try contradiction.
  destruct Hin as [Hin | Hin]; [discriminate | exact (IH _ _ Hin)].
Qed.

(** The lines of the analysis and the split points they report. *)
Lemma analysis_split_points input_path img (g : Z -> Z) n :
  split_points
    ([LoadingImage (path_name input_path); ImageSize (width img) (height img);
      SplittingInto n; FindingPoints]
     ++ split_lines 1 (map (fun i => SPLIT_HEIGHT cfg * i) (py_range 1 n))
          (map g (map (fun i => SPLIT_HEIGHT cfg * i) (py_range 1 n))))
  = map (fun i => (i, SPLIT_HEIGHT cfg * i, g (SPLIT_HEIGHT cfg * i))) (py_range 1 n).
Proof.
  rewrite split_points_app. cbn [split_points flat_map app].
  fold (split_points
          (split_lines 1 (map (fun i => SPLIT_HEIGHT cfg * i) (py_range 1 n))
             (map g (map (fun i => SPLIT_HEIGHT cfg * i) (py_range 1 n))))).
  rewrite split_points_split_lines, enumerate_map_range, map_map. reflexivity.
Qed.

End Writing.

(** X9. When a part cannot be saved the run stops there with the error:
    the directory has been made and the parts before it, and only those,
    have been written and stay; nothing reports the run as done. *)
Theorem failed_save_keeps_earlier_parts fl cfg env input_path output_dir img px k w :
  image_at env (path_name input_path) = Some img ->
  pixels img = Some px ->
  mkdir_ok env output_dir = true ->
  well_configured cfg ->
  MAX_HEIGHT cfg < height img ->
  0 <= k < n_splits_of cfg (height img) ->
  (forall i, 0 <= i < k ->
     save_ok env (part_path input_path output_dir i)
             (rows_of img px (part_box cfg (boundaries_of fl cfg img) (height img) i))
     = true) ->
  save_ok env (part_path input_path output_dir k)
          (rows_of img px (part_box cfg (boundaries_of fl cfg img) (height img) k))
  = false ->
  exists ls es,
    split_long_image fl cfg env input_path output_dir w
    = (Raise SaveFailed, emit ls (Mkdir output_dir :: es) w) /\
    saved_parts es
    = map (fun i => rows_of img px
                      (part_box cfg (boundaries_of fl cfg img) (height img) i))
          (py_range 0 k) /\
    part_boxes ls
    = map (part_box cfg (boundaries_of fl cfg img) (height img)) (py_range 0 k) /\
    (forall m, ~ In (Done m) ls).
Proof.
  intros Himg Hpx Hmk Hcfg Hh Hk Hok Hfail.
  pose proof Hcfg as (HM & HS & Hov & Hr).
  assert (0 < height img) as Hpos by lia.
  pose proof (n_splits_pos cfg (height img) HS Hpos) as Hn.
  rewrite (run_tall fl cfg env input_path output_dir img (n_splits_of cfg (height img)))
    by (assumption || (apply py_ceil_div_n_splits; lia)).
  rewrite bind_run.
  rewrite (resolve_all_ok fl cfg img (targets_of cfg (height img)) (actual_of fl cfg img))
    by (apply Forall2_map_ok; intros t; apply (find_ok fl img px Hpx)).
  cbv beta iota. unfold write_phase. rewrite bind_run. unfold mkdir.
  rewrite Hmk, fs_do_run. cbv beta iota zeta. step_with print_run.
  fold (boundaries_of fl cfg img). rewrite boundaries_length by exact Hn.
  replace (n_splits_of cfg (height img) + 1 - 1) with (n_splits_of cfg (height img)) by lia.
  rewrite bind_run, (py_range_split 0 k) by lia.
  rewrite (write_parts_stop cfg env img px input_path output_dir
             (boundaries_of fl cfg img) k _ Hpx).
  - rewrite !emit_emit. eexists. eexists. split; [reflexivity |].
    split; [apply saved_parts_effects |]. split.
    + rewrite !part_boxes_app, part_boxes_split_lines.
      cbn [part_boxes flat_map app].
      apply (part_boxes_part_lines cfg).
    + intros m Hin. rewrite !in_app_iff in Hin.
      destruct Hin as [Hin | [Hin | [Hin | [Hin | Hin]]]].
      * cbn in Hin. intuition discriminate.
      * exact (split_lines_no_done _ _ _ _ Hin).
      * destruct Hin.
      * cbn in Hin. intuition discriminate.
      * apply in_map_iff in Hin. destruct Hin as (i & Hi & _).
        unfold part_line in Hi. destruct (part_box cfg _ _ i). discriminate.
  - intros i Hi. rewrite in_app_iff in Hi.
    assert (0 <= i <= k) as Hik.
    { destruct Hi as [Hi | [<- | []]]; [apply py_range_In in Hi |]; lia. }
    rewrite part_box_plan by (assumption || lia).
    apply (box_of_valid fl cfg img px i Hpx Hcfg Hpos). lia.
  - intros i Hi. apply py_range_In in Hi. apply Hok. lia.
  - exact Hfail.
Qed.

Lemma failed_save_keeps_earlier_parts_witness :
  exists ls es,
    split_long_image exact module_constants
      (disk_refusing tall "output/shot_part02.png") sample_path "output" empty_world
    = (Raise SaveFailed, emit ls (Mkdir "output" :: es) empty_world) /\
    saved_parts es
    = map (fun i => rows_of tall (gray_rows 2 3600 tall_fn)
                      (part_box module_constants
                         (boundaries_of exact module_constants tall) (height tall) i))
          (py_range 0 1) /\
    part_boxes ls
    = map (part_box module_constants (boundaries_of exact module_constants tall)
             (height tall)) (py_range 0 1) /\
    (forall m, ~ In (Done m) ls).
Proof.
  apply (failed_save_keeps_earlier_parts exact module_constants
           (disk_refusing tall "output/shot_part02.png") sample_path "output" tall
           (gray_rows 2 3600 tall_fn) 1 empty_world).
  - reflexivity.
  - reflexivity.
  - reflexivity.
  - unfold well_configured. cbn. lia.
  - reflexivity.
  - vm_compute. split; [discriminate | reflexivity].
  - intros i Hi. replace i with 0 by lia. reflexivity.
  - reflexivity.
Defined.

(** X10. The output directory is made only after the whole analysis: when
    it cannot be made, the run still searches and reports every split
    point, then stops with the error, and the file system is as it was. *)
Theorem failed_mkdir_comes_after_analysis fl cfg env input_path output_dir img px w :
  image_at env (path_name input_path) = Some img ->
  pixels img = Some px ->
  MAX_HEIGHT cfg < height img ->
  SPLIT_HEIGHT cfg <> 0 ->
  mkdir_ok env output_dir = false ->
  exists ls n,
    split_long_image fl cfg env input_path output_dir w
    = (Raise MkdirFailed, emit ls [] w) /\
    py_ceil_div (height img) (SPLIT_HEIGHT cfg) = Some n /\
    map (fun s : Z * Z * Z => (fst (fst s), snd (fst s))) (split_points ls)
    = map (fun i => (i, SPLIT_HEIGHT cfg * i)) (py_range 1 n) /\
    forall i target_y safe_y,
      In (i, target_y, safe_y) (split_points ls) ->
      find_safe_split_point fl img target_y (SEARCH_RANGE cfg) = Ok safe_y.
Proof.
  intros Himg Hpx Hh HS Hmk.
  rewrite (run_tall fl cfg env input_path output_dir img (n_splits_of cfg (height img)))
    by (assumption || (apply py_ceil_div_n_splits; exact HS)).
  rewrite bind_run.
  rewrite (resolve_all_ok fl cfg img (targets_of cfg (height img)) (actual_of fl cfg img))
    by (apply Forall2_map_ok; intros t; apply (find_ok fl img px Hpx)).
  cbv beta iota. unfold write_phase. rewrite bind_run. unfold mkdir.
  rewrite Hmk. unfold raise. rewrite lift_run, emit_emit.
  eexists. exists (n_splits_of cfg (height img)).
  split; [reflexivity |]. split; [apply py_ceil_div_n_splits; exact HS |].
  unfold actual_of, targets_of.
  rewrite (analysis_split_points cfg input_path img
             (fun t => safe_of fl img t (SEARCH_RANGE cfg))).
  rewrite map_map. cbn [fst snd]. split; [reflexivity |].
  intros i t a Hin. apply in_map_iff in Hin. destruct Hin as (j & Hj & _).
  inversion Hj; subst. apply (find_ok fl img px Hpx).
Qed.

Lemma failed_mkdir_comes_after_analysis_witness :
  exists ls n,
    split_long_image exact module_constants (no_mkdir tall) sample_path "output"
                     empty_world
    = (Raise MkdirFailed, emit ls [] empty_world) /\
    py_ceil_div (height tall) (SPLIT_HEIGHT module_constants) = Some n /\
    map (fun s : Z * Z * Z => (fst (fst s), snd (fst s))) (split_points ls)
    = map (fun i => (i, SPLIT_HEIGHT module_constants * i)) (py_range 1 n) /\
    forall i target_y safe_y,
      In (i, target_y, safe_y) (split_points ls) ->
      find_safe_split_point exact tall target_y (SEARCH_RANGE module_constants)
      = Ok safe_y.
Proof.
  apply (failed_mkdir_comes_after_analysis exact module_constants (no_mkdir tall)
           sample_path "output" tall (gray_rows 2 3600 tall_fn) empty_world).
  - reflexivity.
  - reflexivity.
  - reflexivity.
  - cbn. lia.
  - reflexivity.
Defined.

(** ** File names of the parts *)

Lemma parse_decimal_from_app s1 : forall s2 acc,
  parse_decimal_from acc (s1 ++ s2)%string
  = parse_decimal_from (parse_decimal_from acc s1) s2.
Proof. induction s1 as [| c s1 IH]; intros s2 acc; cbn; auto. Qed.

Lemma parse_decimal_from_digit acc d :
  0 <= d < 10 -> parse_decimal_from acc (digit d) = acc * 10 + d.
Proof.
  intros Hd. unfold digit. cbn [parse_decimal_from]. unfold digit_value.
  rewrite Ascii.nat_ascii_embedding by lia. lia.
Qed.

Lemma parse_decimal_decimal fuel : forall n,
  0 <= n <= Z.of_nat fuel -> parse_decimal (decimal fuel n) = n.
Proof.
  unfold parse_decimal. induction fuel as [| fuel IH]; intros n Hn.
  - cbn. lia.
  - cbn [decimal]. destruct (Z.ltb_spec n 10) as [Hlt | Hge].
    + rewrite parse_decimal_from_digit by lia. lia.
    + rewrite parse_decimal_from_app, IH.
      * rewrite parse_decimal_from_digit by (apply Z.mod_pos_bound; lia).
        pose proof (Z.div_mod n 10 ltac:(lia)). lia.
      * pose proof (Z.div_pos n 10 ltac:(lia) ltac:(lia)).
        pose proof (Z.div_lt n 10 ltac:(lia) ltac:(lia)). lia.
Qed.

Lemma parse_decimal_format_02d n : 0 <= n -> parse_decimal (format_02d n) = n.
Proof.
  intros Hn. unfold format_02d.
  destruct (Z.ltb_spec n 0) as [? | _]; [lia |].
  destruct (Z.ltb_spec n 10) as [Hlt | Hge].
  - unfold parse_decimal.
    change ("0" ++ digit n)%string with (digit 0 ++ digit n)%string.
    rewrite parse_decimal_from_app, !parse_decimal_from_digit by lia. lia.
  - apply parse_decimal_decimal. lia.
Qed.

Lemma append_cancel_l (s a b : string) : (s ++ a = s ++ b)%string -> a = b.
Proof. induction s as [| c s IH]; cbn; intros H; [exact H | inversion H; auto]. Qed.

Lemma append_length (a b : string) :
  String.length (a ++ b) = (String.length a + String.length b)%nat.
Proof. induction a as [| c a IH]; cbn; [reflexivity | now rewrite IH]. Qed.

Lemma append_cancel_r (e : string) : forall a b : string,
  (a ++ e = b ++ e)%string -> a = b.
Proof.
  induction a as [| c a IH]; intros [| d b] H.
  - reflexivity.
  - apply (f_equal String.length) in H. cbn [String.append] in H.
    cbn [String.length] in H. rewrite append_length in H. lia.
  - apply (f_equal String.length) in H. cbn [String.append] in H.
    cbn [String.length] in H. rewrite append_length in H. lia.
  - cbn [String.append] in H. inversion H; subst. f_equal. now apply IH.
Qed.

(** X11. The two digits (or more) in the name of a part read back as its
    1-based number, so two different parts of one run never get the same
    file name, nor the same path: no part overwrites another. *)
Theorem part_names_are_distinct input_path output_dir i j :
  0 <= i -> 0 <= j ->
  parse_decimal (format_02d (i + 1)) = i + 1 /\
  (part_filename input_path i = part_filename input_path j -> i = j) /\
  (part_path input_path output_dir i = part_path input_path output_dir j -> i = j).
Proof.
  intros Hi Hj.
  assert (part_filename input_path i = part_filename input_path j -> i = j) as Hname.
  { unfold part_filename. intros H.
    apply append_cancel_l, append_cancel_l, append_cancel_r in H.
    apply (f_equal parse_decimal) in H.
    rewrite !parse_decimal_format_02d in H by lia. lia. }
  split; [apply parse_decimal_format_02d; lia |]. split; [exact Hname |].
  unfold part_path. intros H. apply append_cancel_l, append_cancel_l in H. auto.
Qed.

Lemma part_names_are_distinct_witness :
  parse_decimal (format_02d (11 + 1)) = 11 + 1 /\
  (part_filename sample_path 11 = part_filename sample_path 0 -> 11 = 0) /\
  (part_path sample_path "output" 11 = part_path sample_path "output" 0 -> 11 = 0).
Proof.
  apply (part_names_are_distinct sample_path "output" 11 0); lia.
Defined.

(** * Properties of [geocode.py] *)

Module GeocodeFacts.

Import Geocode.

Local Open Scope string_scope.
Local Open Scope list_scope.
Local Open Scope Z_scope.

(** ** Running [IO] programs *)

Lemma geo_bind_run {A B} (c : IO A) (k : A -> IO B) w :
  bind c k w =
  match c w with
  | (Ok a, w') => k a w'
  | (Raise e, w') => (Raise e, w')
  end.
Proof. reflexivity. Qed.

Lemma geo_bind_lift {A B} (r : Result A) (k : A -> IO B) w :
  bind (lift r) k w =
  match r with
  | Ok a => k a w
  | Raise e => (Raise e, w)
  end.
Proof. destruct r; reflexivity. Qed.

Lemma silent_ret {A} (a : A) : silent (ret a : IO A).
Proof. intros w r w' H. now inversion H. Qed.

Lemma silent_lift {A} (r : Result A) : silent (lift r).
Proof. intros w r' w' H. now inversion H. Qed.

Lemma silent_raise {A} (e : exn) : silent (raise e : IO A).
Proof. apply silent_lift. Qed.

Lemma silent_bind {A B} (c : IO A) (k : A -> IO B) :
  silent c -> (forall a, silent (k a)) -> silent (bind c k).
Proof.
  intros Hc Hk w r w'. rewrite geo_bind_run.
  destruct (c w) as [[a | e] w1] eqn:E; intros H.
  - rewrite (Hk a _ _ _ H). exact (Hc _ _ _ E).
  - inversion H; subst. exact (Hc _ _ _ E).
Qed.

Lemma silent_if {A} (b : bool) (c1 c2 : IO A) :
  silent c1 -> silent c2 -> silent (if b then c1 else c2).
Proof. destruct b; auto. Qed.

Create HintDb silent.
#[local] Hint Resolve silent_ret silent_lift silent_raise silent_bind silent_if : silent.

Section Facts.

Variable env : Env.

(** ** [search_hotel] *)

Lemma digest_silent name city response : silent (digest name city response).
Proof.
  unfold digest.
  repeat first [ apply silent_bind; [apply silent_lift | intros ?]
               | apply silent_if
               | apply silent_raise
               | apply silent_ret ].
Qed.

Lemma lookup_digest url params timeout name city w :
  lookup env url params timeout name city w
  = match http_get env w url params timeout with
    | GetRaises e => (Raise e, w ++ [Get url params timeout])
    | Response status_code body =>
        digest name city (status_code, body) (w ++ [Get url params timeout])
    end.
Proof.
  unfold lookup. rewrite geo_bind_run. unfold requests_get.
  destruct (http_get env w url params timeout); reflexivity.
Qed.

Lemma lookup_trace url params timeout name city w r w' :
  lookup env url params timeout name city w = (r, w') ->
  w' = w ++ [Get url params timeout].
Proof.
  rewrite lookup_digest.
  destruct (http_get env w url params timeout) as [e | code body].
  - intros E. now inversion E.
  - intros E. exact (digest_silent _ _ _ _ _ _ E).
Qed.

(** [search_hotel] either stops at a bad [REQUEST_TIMEOUT], before any
    request, or makes exactly one request. *)
Lemma search_hotel_cases name city w r w' :
  search_hotel env name city w = (r, w') ->
  (w' = w /\ exists s,
     py_float env (get_config env "REQUEST_TIMEOUT" "10") = Raise (BadFloat s) /\
     r = Raise (BadFloat s)) \/
  (exists timeout r0,
     py_float env (get_config env "REQUEST_TIMEOUT" "10") = Ok timeout /\
     lookup env (url_of env) (params_of env name city) timeout name city w = (r0, w') /\
     w' = w ++ [Get (url_of env) (params_of env name city) timeout] /\
     r = wrapped r0).
Proof.
  unfold search_hotel. rewrite geo_bind_lift.
  destruct (py_float env (get_config env "REQUEST_TIMEOUT" "10")) as [timeout | e] eqn:Et.
  2:{ intros H. inversion H; subst. left. split; [reflexivity |].
      unfold py_float in *. destruct (parse_float env _); [discriminate |].
      inversion Et. eauto. }
  fold (url_of env). fold (params_of env name city). intros H. right. exists timeout.
  destruct (lookup env (url_of env) (params_of env name city) timeout name city w)
    as [r0 w0] eqn:El.
  pose proof (lookup_trace _ _ _ _ _ _ _ _ El) as Hw.
  exists r0. split; [reflexivity |].
  destruct r0 as [rec | e]; [| destruct (is_request_exception e) eqn:Ee];
    inversion H; subst; (split; [reflexivity |]); (split; [reflexivity |]);
    cbn [wrapped]; rewrite ?Ee; reflexivity.
Qed.

Ltac step_lift H :=
  rewrite geo_bind_lift in H;
  match type of H with
  | context [match ?r with Ok _ => _ | Raise _ => _ end] =>
      let E := fresh "E" in
      destruct r eqn:E; [| discriminate H]
  end.

(** X12. [search_hotel] returns a record only after exactly one request
    that was answered without an HTTP error status by a JSON object whose
    [status] equals 0 and whose [results] is not empty; the record has its
    ten keys in order, its name is that of the first result (the name asked
    for when the result has none) and its city is the city asked for. *)
Theorem search_hotel_returns_only_hits name city w rec w' :
  search_hotel env name city w = (Ok rec, w') ->
  exists timeout code data status results poi poi_name,
    w' = w ++ [Get (url_of env) (params_of env name city) timeout] /\
    http_get env w (url_of env) (params_of env name city) timeout = Response code (Some data) /\
    ~ 400 <= code < 600 /\
    py_get data "status" JNull = Ok status /\ ne_zero status = false /\
    py_get data "results" JNull = Ok results /\ truthy results = true /\
    py_index0 results = Ok poi /\
    py_get poi "name" (JStr name) = Ok poi_name /\
    map fst rec = ["uid"; "name"; "city"; "province"; "area"; "address";
                   "lng"; "lat"; "telephone"; "detail_info"] /\
    assoc rec "name" = Some poi_name /\
    assoc rec "city" = Some (JStr city).
Proof.
  intros H. destruct (search_hotel_cases _ _ _ _ _ H) as [[_ [s [_ Hs]]] | Hc];
    [discriminate |].
  destruct Hc as (timeout & r0 & _ & Hl & Hw & Hr).
  destruct r0 as [rec0 | e0]; cbn [wrapped] in Hr;
    [| destruct (is_request_exception e0); discriminate].
  inversion Hr; subst rec0. clear Hr.
  rewrite lookup_digest in Hl.
  destruct (http_get env w (url_of env) (params_of env name city) timeout) as [e | code body] eqn:Eg;
    [discriminate |].
  unfold digest in Hl. rewrite geo_bind_lift in Hl. unfold raise_for_status in Hl.
  cbn [fst snd] in Hl.
  destruct ((400 <=? code) && (code <? 600)) eqn:Ecode; [discriminate |].
  rewrite geo_bind_lift in Hl. unfold response_json in Hl. cbn [snd] in Hl.
  destruct body as [data |]; [| discriminate].
  step_lift Hl. rename a into status.
  destruct (ne_zero status) eqn:Est.
  { rewrite geo_bind_lift in Hl. destruct (py_get data "message" _); discriminate. }
  step_lift Hl. rename a into results.
  destruct (truthy results) eqn:Etr; cbn [negb] in Hl; [| discriminate].
  step_lift Hl. rename a into poi.
  do 10 step_lift Hl.
  inversion Hl; subst.
  exists timeout, code, data, status, results, poi, a1.
  repeat split; try assumption; try reflexivity.
  intros Hcode. apply andb_false_iff in Ecode.
  destruct Ecode as [Ec | Ec]; [apply Z.leb_gt in Ec | apply Z.ltb_ge in Ec]; lia.
Qed.

(** X13. No exception of the [requests] library escapes [search_hotel]: a
    connection failure, an HTTP error status and a body that is not JSON
    all come out wrapped in the [RuntimeError] for a failed request; and a
    call that raises has made one request at most. *)
Theorem search_hotel_wraps_request_errors name city w e w' :
  search_hotel env name city w = (Raise e, w') ->
  is_request_exception e = false /\
  (exists evs, w' = w ++ evs /\ (requests_in evs <= 1)%nat) /\
  forall timeout,
    py_float env (get_config env "REQUEST_TIMEOUT" "10") = Ok timeout ->
    match http_get env w (url_of env) (params_of env name city) timeout with
    | GetRaises e0 =>
        e = if is_request_exception e0 then NetworkFailed e0 else e0
    | Response code body =>
        (400 <= code < 600 -> e = NetworkFailed (HTTPError code)) /\
        (~ 400 <= code < 600 -> body = None -> e = NetworkFailed JSONDecodeError)
    end.
Proof.
  intros H. destruct (search_hotel_cases _ _ _ _ _ H) as [[Hw [s [Hf Hs]]] | Hc].
  - inversion Hs; subst. split; [reflexivity |]. split.
    + exists []. rewrite app_nil_r. split; [reflexivity | cbn; lia].
    + intros timeout Ht. rewrite Ht in Hf. discriminate.
  - destruct Hc as (timeout & r0 & Ht & Hl & Hw & Hr).
    destruct r0 as [rec0 | e0]; cbn [wrapped] in Hr; [discriminate |].
    split; [| split].
    + destruct (is_request_exception e0) eqn:Ee; inversion Hr; subst; [reflexivity | exact Ee].
    + eexists. split; [exact Hw | cbn; lia].
    + intros timeout' Ht'. rewrite Ht in Ht'. inversion Ht'; subst timeout'.
      rewrite lookup_digest in Hl.
      destruct (http_get env w (url_of env) (params_of env name city) timeout) as [e1 | code body].
      * inversion Hl; subst e1.
        destruct (is_request_exception e0); inversion Hr; reflexivity.
      * unfold digest in Hl. rewrite geo_bind_lift in Hl. unfold raise_for_status in Hl.
        cbn [fst snd] in Hl. split.
        -- intros Hcode.
           destruct (Z.leb_spec 400 code); [| lia].
           destruct (Z.ltb_spec code 600); [| lia].
           cbn [andb] in Hl. inversion Hl; subst e0. cbn in Hr. now inversion Hr.
        -- intros Hcode ->.
           destruct ((400 <=? code) && (code <? 600)) eqn:Ecode.
           ++ apply andb_true_iff in Ecode. destruct Ecode as [E1 E2].
              apply Z.leb_le in E1. apply Z.ltb_lt in E2. lia.
           ++ cbn in Hl. inversion Hl; subst e0. cbn in Hr. now inversion Hr.
Qed.

(** ** [process_csv] *)

Lemma throttle_app evs1 : forall p evs2,
  throttle p (evs1 ++ evs2)
  = match throttle p evs1 with
    | Some p' => throttle p' evs2
    | None => None
    end.
Proof.
  induction evs1 as [| e evs1 IH]; intros p evs2; [reflexivity |].
  destruct e; cbn [app throttle]; try apply IH.
  destruct p; [reflexivity | apply IH].
Qed.

Lemma requests_in_app evs1 evs2 :
  requests_in (evs1 ++ evs2) = (requests_in evs1 + requests_in evs2)%nat.
Proof. unfold requests_in. now rewrite List.filter_app, length_app. Qed.

Lemma sleeps_in_app evs1 evs2 :
  sleeps_in (evs1 ++ evs2) = (sleeps_in evs1 + sleeps_in evs2)%nat.
Proof. unfold sleeps_in. now rewrite List.filter_app, length_app. Qed.

Lemma writes_in_app evs1 evs2 :
  writes_in (evs1 ++ evs2) = writes_in evs1 ++ writes_in evs2.
Proof. unfold writes_in. apply flat_map_app. Qed.

Lemma geo_print_run l w : print l w = (Ok tt, w ++ [Print l]).
Proof. reflexivity. Qed.

Lemma sleep_run delay w :
  sleep env delay w
  = if sleep_ok env delay then (Ok tt, w ++ [Sleep delay]) else (Raise SleepRefused, w).
Proof. unfold sleep. destruct (sleep_ok env delay); reflexivity. Qed.

Lemma record_failure_run delay i name city e results failed w :
  record_failure env delay i name city e results failed w
  = if sleep_ok env delay
    then (Ok (results,
              failed ++ [{| row := i; reason := Raised e; name := name; city := city |}]),
          w ++ [Print (NotFound e); Sleep delay])
    else (Raise SleepRefused, w ++ [Print (NotFound e)]).
Proof.
  unfold record_failure. rewrite geo_bind_run, geo_print_run, geo_bind_run, sleep_run.
  destruct (sleep_ok env delay); [| reflexivity].
  cbn [ret IO_Monad]. now rewrite <- app_assoc.
Qed.

(** [report_found] ends in one of three ways: the line is printed and the
    pause made; a coordinate cannot be shown and nothing is printed; the
    line is printed and the pause refused. *)
Lemma report_found_cases delay result w r w' :
  report_found env delay result w = (r, w') ->
  (exists lng lat,
     sleep_ok env delay = true /\ r = Ok tt /\
     w' = w ++ [Print (Found lng lat); Sleep delay]) \/
  (exists e, r = Raise e /\ w' = w /\ e <> SleepRefused) \/
  (exists lng lat,
     sleep_ok env delay = false /\ r = Raise SleepRefused /\
     w' = w ++ [Print (Found lng lat)]).
Proof.
  unfold report_found. intros H.
  rewrite geo_bind_lift in H.
  destruct (item result "lng") as [lng | e] eqn:E1.
  2:{ inversion H; subst. right; left. exists e. repeat split.
      unfold item in E1. destruct (assoc result "lng"); [discriminate |].
      inversion E1. discriminate. }
  rewrite geo_bind_lift in H.
  destruct (format_6f lng) as [[] | e] eqn:E2.
  2:{ inversion H; subst. right; left. exists e. repeat split.
      destruct lng; cbn in E2; try discriminate; inversion E2; try discriminate.
      destruct (Z.abs n <? _); inversion E2. discriminate. }
  rewrite geo_bind_lift in H.
  destruct (item result "lat") as [lat | e] eqn:E3.
  2:{ inversion H; subst. right; left. exists e. repeat split.
      unfold item in E3. destruct (assoc result "lat"); [discriminate |].
      inversion E3. discriminate. }
  rewrite geo_bind_lift in H.
  destruct (format_6f lat) as [[] | e] eqn:E4.
  2:{ inversion H; subst. right; left. exists e. repeat split.
      destruct lat; cbn in E4; try discriminate; inversion E4; try discriminate.
      destruct (Z.abs n <? _); inversion E4. discriminate. }
  rewrite geo_bind_run, geo_print_run, sleep_run in H.
  destruct (sleep_ok env delay) eqn:Es; inversion H; subst.
  - left. exists lng, lat. repeat split. now rewrite <- app_assoc.
  - right; right. exists lng, lat. repeat split.
Qed.

Lemma process_row_ok total delay results failed i r w results' failed' w' :
  process_row env total delay (results, failed) (i, r) w = (Ok (results', failed'), w') ->
  exists rs fs evs,
    results' = results ++ rs /\ failed' = failed ++ fs /\ w' = w ++ evs /\
    turn_ok i rs fs evs.
Proof.
  unfold process_row. intros H.
  rewrite geo_bind_lift in H. destruct (field env r "name") as [name |]; [| discriminate].
  rewrite geo_bind_lift in H. destruct (field env r "city") as [city |]; [| discriminate].
  destruct ((name =? "")%string || (city =? "")%string).
  { rewrite geo_bind_run, geo_print_run in H. inversion H; subst.
    exists [], [{| row := i; reason := Incomplete; name := name; city := city |}],
           [Print (Skipping i name city)].
    rewrite app_nil_r. repeat split; cbn; auto; lia. }
  rewrite geo_bind_run, geo_print_run in H.
  set (w0 := w ++ [Print (Searching i total name city)]) in H.
  destruct (search_hotel env name city w0) as [[result | e] w1] eqn:Es.
  - destruct (search_hotel_cases _ _ _ _ _ Es) as [[_ [s [_ Hs]]] | Hc]; [discriminate |].
    destruct Hc as (timeout & r0 & _ & _ & Hw1 & _).
    destruct (report_found env delay result w1) as [[[] | e] w2] eqn:Er.
    + inversion H; subst results' failed' w'.
      destruct (report_found_cases _ _ _ _ _ Er)
        as [(lng & lat & _ & _ & Hw2) | [(e & He & _) | (lng & lat & _ & He & _)]];
        try discriminate.
      exists [result], [], [Print (Searching i total name city);
                            Get (url_of env) (params_of env name city) timeout;
                            Print (Found lng lat); Sleep delay].
      rewrite app_nil_r. split; [reflexivity |]. split; [reflexivity |]. split.
      * rewrite Hw2, Hw1. unfold w0. now rewrite <- !app_assoc.
      * repeat split; cbn; auto; lia.
    + rewrite record_failure_run in H.
      destruct (sleep_ok env delay) eqn:Esl; [| discriminate].
      inversion H; subst results' failed' w'.
      destruct (report_found_cases _ _ _ _ _ Er)
        as [(lng & lat & _ & He & _) | [(e' & He & Hw2 & _) | (lng & lat & Hs & _)]];
        try discriminate; [| congruence].
      exists [result], [{| row := i; reason := Raised e; name := name; city := city |}],
             [Print (Searching i total name city);
              Get (url_of env) (params_of env name city) timeout;
              Print (NotFound e); Sleep delay].
      split; [reflexivity |]. split; [reflexivity |]. split.
      * rewrite Hw2, Hw1. unfold w0. now rewrite <- !app_assoc.
      * repeat split; cbn; auto; lia.
  - rewrite record_failure_run in H.
    destruct (sleep_ok env delay) eqn:Esl; [| discriminate].
    inversion H; subst results' failed' w'.
    exists [], [{| row := i; reason := Raised e; name := name; city := city |}].
    destruct (search_hotel_cases _ _ _ _ _ Es) as [[Hw1 _] | Hc].
    + exists [Print (Searching i total name city); Print (NotFound e); Sleep delay].
      rewrite app_nil_r. split; [reflexivity |]. split; [reflexivity |]. split.
      * rewrite Hw1. unfold w0. now rewrite <- !app_assoc.
      * repeat split; cbn; auto; lia.
    + destruct Hc as (timeout & r0 & _ & _ & Hw1 & _).
      exists [Print (Searching i total name city);
              Get (url_of env) (params_of env name city) timeout;
              Print (NotFound e); Sleep delay].
      rewrite app_nil_r. split; [reflexivity |]. split; [reflexivity |]. split.
      * rewrite Hw1. unfold w0. now rewrite <- !app_assoc.
      * repeat split; cbn; auto; lia.
Qed.

(** A turn that raises has written nothing and sent one request at most. *)
Lemma process_row_raise total delay st it w e w' :
  process_row env total delay st it w = (Raise e, w') ->
  exists evs, w' = w ++ evs /\ writes_in evs = [] /\ throttle false evs <> None.
Proof.
  destruct st as [results failed], it as [i r].
  unfold process_row. intros H.
  rewrite geo_bind_lift in H. destruct (field env r "name") as [name |].
  2:{ inversion H; subst. exists []. rewrite app_nil_r. repeat split. discriminate. }
  rewrite geo_bind_lift in H. destruct (field env r "city") as [city |].
  2:{ inversion H; subst. exists []. rewrite app_nil_r. repeat split. discriminate. }
  destruct ((name =? "")%string || (city =? "")%string).
  { rewrite geo_bind_run, geo_print_run in H. discriminate. }
  rewrite geo_bind_run, geo_print_run in H.
  set (w0 := w ++ [Print (Searching i total name city)]) in H.
  assert (Hfinish : forall g e0 tail,
            (g = [] \/ exists u p t, g = [Get u p t]) ->
            (tail = [] \/ exists a b, tail = [Print (Found a b)]) ->
            exists evs,
              ((w0 ++ g) ++ tail) ++ [Print (NotFound e0)] = w ++ evs /\
              writes_in evs = [] /\ throttle false evs <> None).
  { intros g e0 tail Hg Ht.
    exists (([Print (Searching i total name city)] ++ g) ++ tail ++ [Print (NotFound e0)]).
    unfold w0. split; [now rewrite <- !app_assoc |].
    destruct Hg as [-> | (u & p & t & ->)], Ht as [-> | (a & b & ->)];
      cbn; split; try reflexivity; discriminate. }
  destruct (search_hotel env name city w0) as [[result | e1] w1] eqn:Es.
  - destruct (search_hotel_cases _ _ _ _ _ Es) as [[_ [s [_ Hs]]] | Hc]; [discriminate |].
    destruct Hc as (timeout & r0 & _ & _ & Hw1 & _).
    destruct (report_found env delay result w1) as [[[] | e2] w2] eqn:Er; [discriminate |].
    rewrite record_failure_run in H.
    destruct (sleep_ok env delay) eqn:Esl; [discriminate |].
    inversion H; subst e w'.
    destruct (report_found_cases _ _ _ _ _ Er)
      as [(lng & lat & _ & He & _) | [(e' & _ & Hw2 & _) | (lng & lat & _ & _ & Hw2)]];
      try discriminate; rewrite Hw2, Hw1.
    + rewrite <- (app_nil_r (w0 ++ _)). apply Hfinish; eauto.
    + apply Hfinish; eauto.
  - rewrite record_failure_run in H.
    destruct (sleep_ok env delay) eqn:Esl; [discriminate |].
    inversion H; subst e w'.
    destruct (search_hotel_cases _ _ _ _ _ Es) as [[Hw1 _] | Hc].
    + rewrite Hw1. rewrite <- (app_nil_r w0), <- (app_nil_r (w0 ++ [])).
      apply Hfinish; eauto.
    + destruct Hc as (timeout & r0 & _ & _ & Hw1 & _). rewrite Hw1.
      rewrite <- (app_nil_r (w0 ++ _)). apply Hfinish; eauto.
Qed.

Lemma foldM_cons {S A} (f : S -> A -> IO S) x l s w :
  foldM f (x :: l) s w
  = match f s x w with
    | (Ok s', w') => foldM f l s' w'
    | (Raise e, w') => (Raise e, w')
    end.
Proof. reflexivity. Qed.

Lemma loop_run total delay rows : forall k results failed w results' failed' w',
  foldM (process_row env total delay) (enumerate rows k) (results, failed) w
  = (Ok (results', failed'), w') ->
  exists rs fs evs,
    results' = results ++ rs /\ failed' = failed ++ fs /\ w' = w ++ evs /\
    loop_ok k (length rows) rs fs evs.
Proof.
  induction rows as [| r rows IH]; intros k results failed w results' failed' w' H.
  - inversion H; subst. exists [], [], []. rewrite !app_nil_r.
    repeat split; cbn; auto; try lia; constructor.
  - cbn [enumerate] in H. rewrite foldM_cons in H.
    destruct (process_row env total delay (results, failed) (k, r) w)
      as [[[results1 failed1] | e] w1] eqn:E1; [| discriminate].
    destruct (process_row_ok _ _ _ _ _ _ _ _ _ _ E1)
      as (rs1 & fs1 & evs1 & -> & -> & -> & T).
    destruct (IH _ _ _ _ _ _ _ H) as (rs2 & fs2 & evs2 & -> & -> & -> & L).
    exists (rs1 ++ rs2), (fs1 ++ fs2), (evs1 ++ evs2).
    rewrite <- !app_assoc. do 3 (split; [reflexivity |]).
    destruct T as (T1 & T2 & T3 & T4 & T5 & T6 & T7 & T8 & T9).
    destruct L as (L1 & L2 & L3 & L4 & L5 & L6 & L7 & L8 & L9).
    unfold loop_ok.
    rewrite !length_app, requests_in_app, sleeps_in_app, writes_in_app, throttle_app,
      T8, L8, T9.
    cbn [length]. repeat split; try lia; try assumption.
    + apply Forall_app. split.
      * eapply List.Forall_impl; [| exact T4]. cbn. intros f Hf. lia.
      * eapply List.Forall_impl; [| exact L6]. cbn. intros f Hf. lia.
    + destruct fs1 as [| f1 [| f1' fs1]]; [exact L7 | | cbn in T2; lia].
      cbn [app map]. constructor; [exact L7 |].
      inversion T4; subst. apply Forall_map.
      eapply List.Forall_impl; [| exact L6]. cbn. intros f Hf. lia.
Qed.

Lemma loop_raise total delay rows : forall k st w e w',
  foldM (process_row env total delay) (enumerate rows k) st w = (Raise e, w') ->
  exists evs, w' = w ++ evs /\ writes_in evs = [] /\ throttle false evs <> None.
Proof.
  induction rows as [| r rows IH]; intros k st w e w' H; [discriminate |].
  cbn [enumerate] in H. rewrite foldM_cons in H.
  destruct (process_row env total delay st (k, r) w) as [[st1 | e1] w1] eqn:E1.
  - destruct st as [results failed], st1 as [results1 failed1].
    destruct (process_row_ok _ _ _ _ _ _ _ _ _ _ E1)
      as (rs1 & fs1 & evs1 & _ & _ & -> & T).
    destruct (IH _ _ _ _ _ H) as (evs2 & -> & W & Th).
    exists (evs1 ++ evs2). rewrite <- app_assoc. split; [reflexivity |].
    destruct T as (_ & _ & _ & _ & _ & _ & _ & T8 & T9).
    rewrite writes_in_app, throttle_app, T8, T9, W. split; [reflexivity | exact Th].
  - inversion H; subst. exact (process_row_raise _ _ _ _ _ _ _ E1).
Qed.

Lemma print_failed_run failed : forall w,
  forM_ (fun it => print (FailedItem it)) failed w
  = (Ok tt, w ++ map (fun it => Print (FailedItem it)) failed).
Proof.
  induction failed as [| f failed IH]; intros w; cbn [forM_ map].
  - cbn. now rewrite app_nil_r.
  - rewrite geo_bind_run, geo_print_run, IH. now rewrite <- app_assoc.
Qed.

Lemma mkdir_run dir w :
  mkdir env dir w = if mkdir_ok env dir then (Ok tt, w ++ [Mkdir dir]) else (Raise OSError, w).
Proof. unfold mkdir. destruct (mkdir_ok env dir); reflexivity. Qed.

Lemma write_json_run output_file results w :
  write_json env output_file results w
  = if write_ok env output_file
    then (Ok tt, w ++ [WriteJson output_file results])
    else (Raise OSError, w).
Proof. unfold write_json. destruct (write_ok env output_file); reflexivity. Qed.

Lemma summary_quiet output_file results failed :
  writes_in (summary output_file results failed) = [] /\
  requests_in (summary output_file results failed) = 0%nat /\
  sleeps_in (summary output_file results failed) = 0%nat /\
  forall p, throttle p (summary output_file results failed) = Some p.
Proof.
  assert (H : forall l : list Failure,
             writes_in (map (fun it => Print (FailedItem it)) l) = [] /\
             requests_in (map (fun it => Print (FailedItem it)) l) = 0%nat /\
             sleeps_in (map (fun it => Print (FailedItem it)) l) = 0%nat /\
             forall p, throttle p (map (fun it => Print (FailedItem it)) l) = Some p).
  { induction l as [| f l (I1 & I2 & I3 & I4)]; cbn; auto. }
  unfold summary.
  set (tail := match failed with
               | [] => []
               | _ => Print FailedHeader :: map (fun it => Print (FailedItem it)) failed
               end).
  assert (T : writes_in tail = [] /\ requests_in tail = 0%nat /\ sleeps_in tail = 0%nat /\
              forall p, throttle p tail = Some p).
  { subst tail. destruct failed as [| f failed]; [cbn; auto |].
    destruct (H (f :: failed)) as (I1 & I2 & I3 & I4).
    repeat split; [exact I1 | exact I2 | exact I3 | intros p; apply I4]. }
  destruct T as (T1 & T2 & T3 & T4).
  rewrite writes_in_app, requests_in_app, sleeps_in_app, T1, T2, T3.
  repeat split. intros p. rewrite throttle_app. cbn [throttle]. apply T4.
Qed.

(** The whole trace of a batch that returns. *)
Lemma process_csv_ok input_file output_file w results failed w' :
  process_csv env input_file output_file w = (Ok (results, failed), w') ->
  exists rows delay evs,
    file_exists env input_file = true /\
    csv_rows env input_file = Some rows /\ rows <> [] /\
    py_float env (get_config env "REQUEST_DELAY" "0.1") = Ok delay /\
    mkdir_ok env (path_parent env output_file) = true /\
    write_ok env output_file = true /\
    loop_ok 1 (length rows) results failed evs /\
    w' = w ++ [Print (ReadingCsv input_file); Print (RowCount (Z.of_nat (length rows)))]
           ++ evs
           ++ [Mkdir (path_parent env output_file); WriteJson output_file results]
           ++ summary output_file results failed.
Proof.
  unfold process_csv. intros H.
  destruct (file_exists env input_file) eqn:Ef; cbn [negb] in H; [| discriminate].
  rewrite geo_bind_run, geo_print_run, geo_bind_run in H.
  destruct (csv_rows env input_file) as [rows |] eqn:Ec; [| discriminate].
  cbn [ret IO_Monad] in H.
  destruct rows as [| r0 rows0]; [discriminate |].
  set (rows := r0 :: rows0) in *.
  assert (Hne : rows <> []) by (subst rows; discriminate).
  rewrite geo_bind_run, geo_print_run, geo_bind_lift in H.
  destruct (py_float env (get_config env "REQUEST_DELAY" "0.1")) as [delay |] eqn:Ed;
    [| discriminate].
  rewrite geo_bind_run in H.
  destruct (foldM (process_row env (Z.of_nat (length rows)) delay) (enumerate rows 1)
              ([], []) ((w ++ [Print (ReadingCsv input_file)])
                          ++ [Print (RowCount (Z.of_nat (length rows)))]))
    as [[[results1 failed1] | e] w1] eqn:El; [| discriminate].
  destruct (loop_run _ _ _ _ _ _ _ _ _ _ El) as (rs & fs & evs & Hr & Hf & Hw & L).
  cbn [app] in Hr, Hf. subst results1 failed1.
  rewrite geo_bind_run, mkdir_run in H.
  destruct (mkdir_ok env (path_parent env output_file)) eqn:Em; [| discriminate].
  rewrite geo_bind_run, write_json_run in H.
  destruct (write_ok env output_file) eqn:Ew; [| discriminate].
  do 5 rewrite geo_bind_run, geo_print_run in H.
  rewrite geo_bind_run in H.
  exists rows, delay, evs.
  assert (Hfin : forall w2,
    (match fs with
     | [] => ret tt
     | _ => run print FailedHeader; forM_ (fun it => print (FailedItem it)) fs
     end) w2
    = (Ok tt, w2 ++ match fs with
                    | [] => []
                    | _ => Print FailedHeader :: map (fun it => Print (FailedItem it)) fs
                    end)).
  { intros w2. destruct fs as [| f fs'].
    - cbn. now rewrite app_nil_r.
    - rewrite geo_bind_run, geo_print_run, print_failed_run. now rewrite <- app_assoc. }
  rewrite Hfin in H. cbn [ret IO_Monad] in H.
  apply pair_equal_spec in H. destruct H as [HR HW].
  inversion HR; subst rs fs. subst w'. clear HR El.
  do 6 (split; [assumption || reflexivity |]). split; [exact L |].
  rewrite Hw. unfold summary. rewrite <- !app_assoc. reflexivity.
Qed.

(** A batch that raises stopped before it had written anything. *)
Lemma process_csv_raise input_file output_file w e w' :
  process_csv env input_file output_file w = (Raise e, w') ->
  exists evs, w' = w ++ evs /\ writes_in evs = [] /\ throttle false evs <> None.
Proof.
  unfold process_csv. intros H.
  destruct (file_exists env input_file) eqn:Ef; cbn [negb] in H.
  2:{ inversion H; subst. exists []. rewrite app_nil_r. repeat split. discriminate. }
  rewrite geo_bind_run, geo_print_run, geo_bind_run in H.
  destruct (csv_rows env input_file) as [rows |] eqn:Ec.
  2:{ inversion H; subst. eexists. split; [reflexivity |]. split; [reflexivity | discriminate]. }
  cbn [ret IO_Monad] in H.
  destruct rows as [| r0 rows0].
  { inversion H; subst. eexists. split; [reflexivity |]. split; [reflexivity | discriminate]. }
  set (rows := r0 :: rows0) in *.
  rewrite geo_bind_run, geo_print_run, geo_bind_lift in H.
  destruct (py_float env (get_config env "REQUEST_DELAY" "0.1")) as [delay |] eqn:Ed.
  2:{ inversion H; subst. rewrite <- app_assoc. eexists. split; [reflexivity |].
      split; [reflexivity | discriminate]. }
  rewrite geo_bind_run in H.
  destruct (foldM (process_row env (Z.of_nat (length rows)) delay) (enumerate rows 1)
              ([], []) ((w ++ [Print (ReadingCsv input_file)])
                          ++ [Print (RowCount (Z.of_nat (length rows)))]))
    as [[[results1 failed1] | e1] w1] eqn:El.
  2:{ inversion H; subst.
      destruct (loop_raise _ _ _ _ _ _ _ _ El) as (evs & -> & W & T).
      rewrite <- !app_assoc. eexists. split; [reflexivity |].
      rewrite writes_in_app, throttle_app. cbn. split; assumption. }
  destruct (loop_run _ _ _ _ _ _ _ _ _ _ El) as (rs & fs & evs & Hr & Hf & Hw & L).
  destruct L as (_ & _ & _ & _ & _ & _ & _ & L8 & L9).
  assert (Hpre : forall tail, writes_in tail = [] -> (forall p, throttle p tail = Some p) ->
            exists evs0, w1 ++ tail = w ++ evs0 /\ writes_in evs0 = [] /\
                         throttle false evs0 <> None).
  { intros tail Wt Tt. subst w1. rewrite <- !app_assoc. eexists. split; [reflexivity |].
    change (writes_in (evs ++ tail) = [] /\ throttle false (evs ++ tail) <> None).
    rewrite writes_in_app, throttle_app, L8, L9, Wt, Tt. split; [reflexivity | discriminate]. }
  rewrite geo_bind_run, mkdir_run in H.
  destruct (mkdir_ok env (path_parent env output_file)) eqn:Em.
  2:{ inversion H; subst w'. rewrite <- (app_nil_r w1). apply Hpre; reflexivity. }
  rewrite geo_bind_run, write_json_run in H.
  destruct (write_ok env output_file) eqn:Ew.
  2:{ inversion H; subst w'. apply Hpre; reflexivity. }
  do 5 rewrite geo_bind_run, geo_print_run in H.
  rewrite geo_bind_run in H.
  destruct fs as [| f fs'].
  - subst failed1. cbn in H. discriminate.
  - subst failed1. rewrite app_nil_l in H.
    rewrite geo_bind_run, geo_print_run, print_failed_run in H. discriminate.
Qed.

(** ** Properties of every trace

    For a [Q] that holds of no event at all, of one event that is not a
    request, and of two traces put end to end, a program is traced by [Q]
    as soon as its requests are. *)

Section Traces.

Variable Q : list Event -> Prop.
Hypothesis Q_nil : Q [].
Hypothesis Q_app : forall evs1 evs2, Q evs1 -> Q evs2 -> Q (evs1 ++ evs2).
Hypothesis Q_other : forall e,
  match e with Get _ _ _ => False | _ => True end -> Q [e].

Lemma traced_ret {A} (a : A) : traced Q (ret a : IO A).
Proof. intros w r w' H. inversion H; subst. exists []. now rewrite app_nil_r. Qed.

Lemma traced_lift {A} (r : Result A) : traced Q (lift r).
Proof. intros w r' w' H. inversion H; subst. exists []. now rewrite app_nil_r. Qed.

Lemma traced_bind {A B} (c : IO A) (k : A -> IO B) :
  traced Q c -> (forall a, traced Q (k a)) -> traced Q (bind c k).
Proof.
  intros Hc Hk w r w'. rewrite geo_bind_run.
  destruct (c w) as [[a | e] w1] eqn:E; intros H.
  - destruct (Hc _ _ _ E) as (evs1 & -> & Q1).
    destruct (Hk a _ _ _ H) as (evs2 & -> & Q2).
    exists (evs1 ++ evs2). rewrite <- app_assoc. auto.
  - inversion H; subst. exact (Hc _ _ _ E).
Qed.

Lemma traced_ret_bind {A B} (a : A) (k : A -> IO B) :
  traced Q (k a) -> traced Q (bind (ret a) k).
Proof. intros H w r w' E. exact (H w r w' E). Qed.

Lemma traced_emit e :
  match e with Get _ _ _ => False | _ => True end -> traced Q (emit e).
Proof. intros He w r w' H. inversion H; subst. exists [e]. auto. Qed.

Lemma traced_print l : traced Q (print l).
Proof. now apply traced_emit. Qed.

Lemma traced_sleep delay : traced Q (sleep env delay).
Proof.
  unfold sleep. destruct (sleep_ok env delay);
    [now apply traced_emit | apply traced_lift].
Qed.

Lemma traced_mkdir dir : traced Q (mkdir env dir).
Proof.
  unfold mkdir. destruct (mkdir_ok env dir);
    [now apply traced_emit | apply traced_lift].
Qed.

Lemma traced_write_json output_file results :
  traced Q (write_json env output_file results).
Proof.
  unfold write_json. destruct (write_ok env output_file);
    [now apply traced_emit | apply traced_lift].
Qed.

Lemma traced_forM_ {A} (f : A -> IO unit) l :
  (forall x, traced Q (f x)) -> traced Q (forM_ f l).
Proof.
  intros Hf. induction l as [| x l IH]; cbn [forM_].
  - apply traced_ret.
  - apply traced_bind; [apply Hf | intros _; exact IH].
Qed.

Lemma traced_foldM {S A} (f : S -> A -> IO S) l :
  (forall s x, In x l -> traced Q (f s x)) -> forall s, traced Q (foldM f l s).
Proof.
  induction l as [| x l IH]; intros Hf s; cbn [foldM].
  - apply traced_ret.
  - apply traced_bind; [apply Hf; now left |].
    intros s'. apply IH. intros s0 y Hy. apply Hf. now right.
Qed.

Lemma In_enumerate {A} (l : list A) : forall k i x,
  In (i, x) (enumerate l k) -> In x l.
Proof.
  induction l as [| y l IH]; intros k i x H; [contradiction |].
  cbn [enumerate] in H. destruct H as [H | H].
  - inversion H. now left.
  - right. exact (IH _ _ _ H).
Qed.

Lemma traced_record_failure delay i name city e results failed :
  traced Q (record_failure env delay i name city e results failed).
Proof.
  unfold record_failure.
  apply traced_bind; [apply traced_print | intros _].
  apply traced_bind; [apply traced_sleep | intros _]. apply traced_ret.
Qed.

Lemma traced_report_found delay result : traced Q (report_found env delay result).
Proof.
  unfold report_found.
  repeat (apply traced_bind; [apply traced_lift | intros ?]).
  apply traced_bind; [apply traced_print | intros _]. apply traced_sleep.
Qed.

Lemma eqb_empty_false (s : string) : (s =? "")%string = false -> s <> "".
Proof. intros H ->. discriminate. Qed.

(** A turn of the loop is traced when the search for its row is. *)
Lemma traced_process_row total delay st i r :
  (forall name city,
     field env r "name" = Ok name -> field env r "city" = Ok city ->
     name <> "" -> city <> "" -> traced Q (search_hotel env name city)) ->
  traced Q (process_row env total delay st (i, r)).
Proof.
  intros Hs. destruct st as [results failed]. intros w r0 w' H.
  unfold process_row in H.
  rewrite geo_bind_lift in H. destruct (field env r "name") as [name | e] eqn:En.
  2:{ exact (traced_lift (Raise e) _ _ _ H). }
  rewrite geo_bind_lift in H. destruct (field env r "city") as [city | e] eqn:Ec.
  2:{ exact (traced_lift (Raise e) _ _ _ H). }
  destruct ((name =? "")%string || (city =? "")%string) eqn:Eb.
  { refine (traced_bind _ _ _ _ _ _ _ H); [apply traced_print | intros _; apply traced_ret]. }
  apply orb_false_iff in Eb. destruct Eb as [E1 E2].
  apply eqb_empty_false in E1, E2.
  refine (traced_bind _ _ _ _ _ _ _ H); [apply traced_print | intros _].
  clear H. intros w1 r1 w1' H.
  destruct (search_hotel env name city w1) as [[result | e] w2] eqn:Es;
    destruct (Hs name city eq_refl eq_refl E1 E2 _ _ _ Es) as (evs1 & -> & Q1).
  - destruct (report_found env delay result (w1 ++ evs1)) as [[[] | e] w3] eqn:Er;
      destruct (traced_report_found _ _ _ _ _ Er) as (evs2 & -> & Q2).
    + inversion H; subst. exists (evs1 ++ evs2). rewrite <- app_assoc. auto.
    + destruct (traced_record_failure _ _ _ _ _ _ _ _ _ _ H) as (evs3 & -> & Q3).
      exists (evs1 ++ evs2 ++ evs3). rewrite <- !app_assoc. auto.
  - destruct (traced_record_failure _ _ _ _ _ _ _ _ _ _ H) as (evs3 & -> & Q3).
    exists (evs1 ++ evs3). rewrite <- !app_assoc. auto.
Qed.

(** The batch is traced when the search for each complete row of the
    file is. *)
Lemma traced_process_csv input_file output_file :
  (forall rows r name city,
     csv_rows env input_file = Some rows -> In r rows ->
     field env r "name" = Ok name -> field env r "city" = Ok city ->
     name <> "" -> city <> "" -> traced Q (search_hotel env name city)) ->
  traced Q (process_csv env input_file output_file).
Proof.
  intros Hs. unfold process_csv.
  destruct (negb (file_exists env input_file)); [apply traced_lift |].
  apply traced_bind; [apply traced_print | intros _].
  destruct (csv_rows env input_file) as [rows |] eqn:Ec.
  2:{ intros w r0 w' H. rewrite geo_bind_run in H.
      exact (traced_lift (Raise OSError) _ _ _ H). }
  assert (Hrows : forall r name city, In r rows ->
            field env r "name" = Ok name -> field env r "city" = Ok city ->
            name <> "" -> city <> "" -> traced Q (search_hotel env name city)).
  { intros r name city Hin. exact (Hs rows r name city eq_refl Hin). }
  clear Hs. apply traced_ret_bind.
  destruct rows as [| r1 rows1]; [apply traced_lift |].
  set (rows := r1 :: rows1) in *.
  apply traced_bind; [apply traced_print | intros _].
  apply traced_bind; [apply traced_lift | intros delay].
  apply traced_bind.
  { apply traced_foldM. intros s [i r] Hin. apply traced_process_row.
    intros name city. apply Hrows. exact (In_enumerate _ _ _ _ Hin). }
  intros [results failed].
  apply traced_bind; [apply traced_mkdir | intros _].
  apply traced_bind; [apply traced_write_json | intros _].
  do 5 (apply traced_bind; [apply traced_print | intros _]).
  apply traced_bind; [| intros _; apply traced_ret].
  destruct failed as [| f failed]; [apply traced_ret |].
  apply traced_bind; [apply traced_print | intros _].
  apply traced_forM_. intros x. apply traced_print.
Qed.

End Traces.

Lemma gets_in_app evs1 evs2 : gets_in (evs1 ++ evs2) = gets_in evs1 ++ gets_in evs2.
Proof. unfold gets_in. apply flat_map_app. Qed.

(** ** The batch as a whole *)

Lemma process_row_short total delay st i r w :
  short r ->
  exists e w', process_row env total delay st (i, r) w = (Raise e, w').
Proof.
  intros Hr. destruct st as [results failed]. unfold process_row.
  rewrite geo_bind_lift. unfold field at 1.
  destruct Hr as [Hr | Hr].
  - rewrite Hr. eauto.
  - destruct (assoc r "name") as [[v |] |]; try (now eauto);
      rewrite geo_bind_lift; unfold field; rewrite Hr; eauto.
Qed.

Lemma loop_short total delay rows r : In r rows -> short r -> forall k st w,
  exists e w',
    foldM (process_row env total delay) (enumerate rows k) st w = (Raise e, w').
Proof.
  intros Hin Hr. induction rows as [| r0 rows IH]; [contradiction |].
  intros k st w. cbn [enumerate]. rewrite foldM_cons.
  destruct (process_row env total delay st (k, r0) w) as [[st1 | e1] w1] eqn:E1;
    [| now eauto].
  destruct Hin as [-> | Hin].
  - destruct (process_row_short total delay st k r w Hr) as (e & w' & E).
    rewrite E in E1. discriminate.
  - apply IH. exact Hin.
Qed.

(** X14. A batch that returns has accounted for every row of the file: a
    row gave a result, a failure, or both.  It sent at most one request a
    row and at least one for every result, paused at least once for every
    request, and its failures carry the numbers of their rows, counted
    from 1, in increasing order. *)
Theorem batch_accounts_for_every_row input_file output_file w results failed w' :
  process_csv env input_file output_file w = (Ok (results, failed), w') ->
  exists rows evs,
    csv_rows env input_file = Some rows /\ rows <> [] /\ w' = w ++ evs /\
    (length rows <= length results + length failed)%nat /\
    (length results <= requests_in evs)%nat /\
    (requests_in evs <= sleeps_in evs)%nat /\
    (sleeps_in evs <= length rows)%nat /\
    (length failed <= length rows)%nat /\
    Forall (fun f => 1 <= row f <= Z.of_nat (length rows)) failed /\
    StronglySorted Z.lt (map row failed).
Proof.
  intros H.
  destruct (process_csv_ok _ _ _ _ _ _ H)
    as (rows & delay & evs & _ & Hc & Hne & _ & _ & _ & L & Hw).
  destruct L as (L1 & L2 & L3 & L4 & L5 & L6 & L7 & _ & _).
  destruct (summary_quiet output_file results failed) as (_ & S2 & S3 & _).
  eexists rows, _. split; [exact Hc |]. split; [exact Hne |].
  split; [exact Hw |].
  rewrite !requests_in_app, !sleeps_in_app, S2, S3.
  change (requests_in [Print (ReadingCsv input_file);
                       Print (RowCount (Z.of_nat (length rows)))]) with 0%nat.
  change (sleeps_in [Print (ReadingCsv input_file);
                     Print (RowCount (Z.of_nat (length rows)))]) with 0%nat.
  change (requests_in [Mkdir (path_parent env output_file);
                       WriteJson output_file results]) with 0%nat.
  change (sleeps_in [Mkdir (path_parent env output_file);
                     WriteJson output_file results]) with 0%nat.
  repeat split; try lia; [| exact L7].
  eapply List.Forall_impl; [| exact L6]. cbn. intros f Hf. lia.
Qed.

(** X15. Rate limiting holds on every run of the batch, also one that
    ends in an exception: no request is sent before the one before it has
    been followed by a pause; and when the batch returns, the last request
    has had its pause too. *)
Theorem batch_pauses_between_requests input_file output_file w :
  exists evs,
    snd (process_csv env input_file output_file w) = w ++ evs /\
    throttle false evs <> None /\
    (forall st, fst (process_csv env input_file output_file w) = Ok st ->
                throttle false evs = Some false).
Proof.
  destruct (process_csv env input_file output_file w) as [[[results failed] | e] w'] eqn:E.
  - destruct (process_csv_ok _ _ _ _ _ _ E)
      as (rows & delay & evs & _ & _ & _ & _ & _ & _ & L & Hw).
    destruct L as (_ & _ & _ & _ & _ & _ & _ & _ & L9).
    destruct (summary_quiet output_file results failed) as (_ & _ & _ & S4).
    eexists. split; [exact Hw |].
    assert (T : throttle false
                  ([Print (ReadingCsv input_file); Print (RowCount (Z.of_nat (length rows)))]
                   ++ evs
                   ++ [Mkdir (path_parent env output_file); WriteJson output_file results]
                   ++ summary output_file results failed) = Some false).
    { change (throttle false
                (evs ++ [Mkdir (path_parent env output_file); WriteJson output_file results]
                     ++ summary output_file results failed) = Some false).
      rewrite throttle_app, L9. cbn [app throttle]. apply S4. }
    rewrite T. split; [discriminate | reflexivity].
  - destruct (process_csv_raise _ _ _ _ _ E) as (evs & Hw & _ & T).
    exists evs. split; [exact Hw |]. split; [exact T | discriminate].
Qed.



(** X17. One row with a field the file did not give ends the whole batch
    in an exception, whatever the rows before it gave: nothing is
    written. *)
Theorem short_row_aborts_batch input_file output_file w rows r :
  file_exists env input_file = true ->
  csv_rows env input_file = Some rows ->
  In r rows -> short r ->
  exists e evs,
    process_csv env input_file output_file w = (Raise e, w ++ evs) /\
    writes_in evs = [].
Proof.
  intros Hf Hc Hin Hr.
  assert (H : exists e w', process_csv env input_file output_file w = (Raise e, w')).
  { unfold process_csv. rewrite Hf. cbn [negb]. rewrite geo_bind_run, geo_print_run, geo_bind_run, Hc.
    cbn [ret IO_Monad].
    destruct rows as [| r0 rows0]; [contradiction |].
    set (rows := r0 :: rows0) in *.
    rewrite geo_bind_run, geo_print_run, geo_bind_lift.
    destruct (py_float env (get_config env "REQUEST_DELAY" "0.1")) as [delay | e];
      [| now eauto].
    rewrite geo_bind_run.
    destruct (loop_short (Z.of_nat (length rows)) delay rows r Hin Hr 1 ([], [])
                ((w ++ [Print (ReadingCsv input_file)])
                 ++ [Print (RowCount (Z.of_nat (length rows)))])) as (e & w' & ->).
    eauto. }
  destruct H as (e & w' & H).
  destruct (process_csv_raise _ _ _ _ _ H) as (evs & -> & W & _).
  exists e, evs. split; [exact H | exact W].
Qed.

(** X18. A hotel that was found but whose longitude cannot be shown with
    six decimals is kept among the results and listed among the failures
    as well: the record is appended before the line is formatted. *)
Theorem unshowable_hit_counts_twice total delay results failed i r w
    name city result w1 lng e :
  field env r "name" = Ok name -> field env r "city" = Ok city ->
  name <> "" -> city <> "" ->
  search_hotel env name city (w ++ [Print (Searching i total name city)])
  = (Ok result, w1) ->
  assoc result "lng" = Some lng -> format_6f lng = Raise e ->
  sleep_ok env delay = true ->
  process_row env total delay (results, failed) (i, r) w
  = (Ok (results ++ [result],
         failed ++ [{| row := i; reason := Raised e; name := name; city := city |}]),
     w1 ++ [Print (NotFound e); Sleep delay]).
Proof.
  intros Hn Hc Hne Hce Hs Hl Hfmt Hsl.
  unfold process_row. rewrite geo_bind_lift, Hn, geo_bind_lift, Hc.
  apply String.eqb_neq in Hne, Hce. rewrite Hne, Hce. cbn [orb].
  rewrite geo_bind_run, geo_print_run, Hs.
  unfold report_found at 1. rewrite geo_bind_lift. unfold item at 1. rewrite Hl.
  rewrite geo_bind_lift, Hfmt, record_failure_run, Hsl. reflexivity.
Qed.


(** X20. Every request of the batch is for a row of the file whose name
    and city are both there and not empty once stripped, goes to the
    configured address and carries the configured key: no request is sent
    for an incomplete row, and none when the batch stops early. *)
Theorem requests_are_for_complete_rows input_file output_file w :
  exists evs,
    snd (process_csv env input_file output_file w) = w ++ evs /\
    Forall (fun request =>
              exists rows r,
                csv_rows env input_file = Some rows /\ In r rows /\
                asks_for env r request)
           (gets_in evs).
Proof.
  destruct (process_csv env input_file output_file w) as [res w'] eqn:E.
  refine (traced_process_csv
            (fun evs => Forall (fun request =>
                                  exists rows r,
                                    csv_rows env input_file = Some rows /\ In r rows /\
                                    asks_for env r request) (gets_in evs))
            _ _ _ input_file output_file _ w res w' E).
  - constructor.
  - intros evs1 evs2 H1 H2. rewrite gets_in_app. apply Forall_app. now split.
  - intros e He. destruct e; try contradiction; cbn; constructor.
  - intros rows r name city Hc Hin Hn Hci Hne Hce w0 r0 w0' Hs.
    destruct (search_hotel_cases _ _ _ _ _ Hs) as [[-> _] | (timeout & _ & _ & _ & -> & _)].
    + exists []. rewrite app_nil_r. split; [reflexivity | constructor].
    + eexists. split; [reflexivity |]. cbn. constructor; [| constructor].
      exists rows, r. split; [exact Hc |]. split; [exact Hin |].
      exists name, city. auto.
Qed.

End Facts.

(** ** The theorems at work on sample surroundings *)

Lemma search_hotel_returns_only_hits_witness :
  search_hotel (online (Response 200 (Some hit)) [grand_row]) "Grand" "Beijing" []
  = (Ok hit_record,
     [] ++ [Get (url_of (online (Response 200 (Some hit)) [grand_row]))
              (params_of (online (Response 200 (Some hit)) [grand_row]) "Grand" "Beijing")
              (Finite 10)]) /\
  exists timeout code data status results poi poi_name,
    [] ++ [Get (url_of (online (Response 200 (Some hit)) [grand_row]))
             (params_of (online (Response 200 (Some hit)) [grand_row]) "Grand" "Beijing")
             (Finite 10)]
    = [] ++ [Get (url_of (online (Response 200 (Some hit)) [grand_row]))
               (params_of (online (Response 200 (Some hit)) [grand_row]) "Grand" "Beijing")
               timeout] /\
    http_get (online (Response 200 (Some hit)) [grand_row]) []
      (url_of (online (Response 200 (Some hit)) [grand_row]))
      (params_of (online (Response 200 (Some hit)) [grand_row]) "Grand" "Beijing") timeout
    = Response code (Some data) /\
    ~ 400 <= code < 600 /\
    py_get data "status" JNull = Ok status /\ ne_zero status = false /\
    py_get data "results" JNull = Ok results /\ truthy results = true /\
    py_index0 results = Ok poi /\
    py_get poi "name" (JStr "Grand") = Ok poi_name /\
    map fst hit_record = ["uid"; "name"; "city"; "province"; "area"; "address";
                          "lng"; "lat"; "telephone"; "detail_info"] /\
    assoc hit_record "name" = Some poi_name /\
    assoc hit_record "city" = Some (JStr "Beijing").
Proof.
  split; [reflexivity |].
  apply (search_hotel_returns_only_hits
           (online (Response 200 (Some hit)) [grand_row]) "Grand" "Beijing" []).
  reflexivity.
Defined.

Lemma search_hotel_wraps_request_errors_witness :
  search_hotel (online (GetRaises ConnectionFailed) [grand_row]) "Grand" "Beijing" []
  = (Raise (NetworkFailed ConnectionFailed),
     [Get (url_of (online (GetRaises ConnectionFailed) [grand_row]))
        (params_of (online (GetRaises ConnectionFailed) [grand_row]) "Grand" "Beijing")
        (Finite 10)]) /\
  is_request_exception (NetworkFailed ConnectionFailed) = false /\
  (exists evs,
     [Get (url_of (online (GetRaises ConnectionFailed) [grand_row]))
        (params_of (online (GetRaises ConnectionFailed) [grand_row]) "Grand" "Beijing")
        (Finite 10)] = [] ++ evs /\ (requests_in evs <= 1)%nat) /\
  forall timeout,
    py_float (online (GetRaises ConnectionFailed) [grand_row])
      (get_config (online (GetRaises ConnectionFailed) [grand_row]) "REQUEST_TIMEOUT" "10")
    = Ok timeout ->
    match http_get (online (GetRaises ConnectionFailed) [grand_row]) []
            (url_of (online (GetRaises ConnectionFailed) [grand_row]))
            (params_of (online (GetRaises ConnectionFailed) [grand_row]) "Grand" "Beijing")
            timeout with
    | GetRaises e0 =>
        NetworkFailed ConnectionFailed
        = if is_request_exception e0 then NetworkFailed e0 else e0
    | Response code body =>
        (400 <= code < 600 -> NetworkFailed ConnectionFailed = NetworkFailed (HTTPError code)) /\
        (~ 400 <= code < 600 -> body = None ->
         NetworkFailed ConnectionFailed = NetworkFailed JSONDecodeError)
    end.
Proof.
  split; [reflexivity |].
  apply (search_hotel_wraps_request_errors
           (online (GetRaises ConnectionFailed) [grand_row]) "Grand" "Beijing" []).
  reflexivity.
Defined.

Lemma batch_accounts_for_every_row_witness :
  exists w',
    process_csv (online (Response 200 (Some hit)) [grand_row; nameless_row])
      "data/hotels.csv" "output/hotels.json" []
    = (Ok ([hit_record],
           [{| row := 2; reason := Incomplete; name := ""; city := "Beijing" |}]), w') /\
    exists rows evs,
      csv_rows (online (Response 200 (Some hit)) [grand_row; nameless_row]) "data/hotels.csv"
      = Some rows /\ rows <> [] /\ w' = [] ++ evs /\
      (length rows
       <= length [hit_record]
          + length [{| row := 2; reason := Incomplete; name := ""; city := "Beijing" |}])%nat /\
      (length [hit_record] <= requests_in evs)%nat /\
      (requests_in evs <= sleeps_in evs)%nat /\
      (sleeps_in evs <= length rows)%nat /\
      (length [{| row := 2; reason := Incomplete; name := ""; city := "Beijing" |}]
       <= length rows)%nat /\
      Forall (fun f => 1 <= row f <= Z.of_nat (length rows))
        [{| row := 2; reason := Incomplete; name := ""; city := "Beijing" |}] /\
      StronglySorted Z.lt
        (map row [{| row := 2; reason := Incomplete; name := ""; city := "Beijing" |}]).
Proof.
  eexists. split; [reflexivity |].
  apply (batch_accounts_for_every_row
           (online (Response 200 (Some hit)) [grand_row; nameless_row])
           "data/hotels.csv" "output/hotels.json" []).
  reflexivity.
Defined.

Lemma short_row_aborts_batch_witness :
  exists e evs,
    process_csv (online (Response 200 (Some hit)) [grand_row; short_row])
      "data/hotels.csv" "output/hotels.json" []
    = (Raise e, [] ++ evs) /\
    writes_in evs = [].
Proof.
  apply (short_row_aborts_batch
           (online (Response 200 (Some hit)) [grand_row; short_row])
           "data/hotels.csv" "output/hotels.json" [] [grand_row; short_row] short_row).
  - reflexivity.
  - reflexivity.
  - right. left. reflexivity.
  - right. reflexivity.
Defined.

Lemma unshowable_hit_counts_twice_witness :
  process_row (online (Response 200 (Some hit_without_location)) [grand_row])
    1 (Finite (1 # 10)) ([], []) (1, grand_row) []
  = (Ok ([] ++ [lost_record],
         [] ++ [{| row := 1; reason := Raised TypeError;
                   name := "Grand"; city := "Beijing" |}]),
     [Print (Searching 1 1 "Grand" "Beijing");
      Get (url_of (online (Response 200 (Some hit_without_location)) [grand_row]))
        (params_of (online (Response 200 (Some hit_without_location)) [grand_row])
           "Grand" "Beijing")
        (Finite 10)]
     ++ [Print (NotFound TypeError); Sleep (Finite (1 # 10))]).
Proof.
  apply (unshowable_hit_counts_twice
           (online (Response 200 (Some hit_without_location)) [grand_row])
           1 (Finite (1 # 10)) [] [] 1 grand_row [] "Grand" "Beijing" lost_record _ JNull
           TypeError).
  - reflexivity.
  - reflexivity.
  - discriminate.
  - discriminate.
  - reflexivity.
  - reflexivity.
  - reflexivity.
  - reflexivity.
Defined.


End GeocodeFacts.


(** * Properties of [render_map.py] *)

Module RenderMapFacts.

Import RenderMap.

Local Open Scope string_scope.
Local Open Scope list_scope.
Local Open Scope Z_scope.

(** ** [str.replace] *)

Lemma prefix_self_app (old post : string) :
  String.prefix old (old ++ post)%string = true.
Proof.
  induction old as [| c old IH]; cbn; [now destruct post |].
  destruct (Ascii.ascii_dec c c); [exact IH | contradiction].
Qed.

Lemma prefix_other_head c0 old c s :
  c0 <> c -> String.prefix (String c0 old) (String c s) = false.
Proof. intros H. cbn. destruct (Ascii.ascii_dec c0 c); [contradiction | reflexivity]. Qed.

Lemma replace_absent old new : forall s,
  occurs old s = false -> replace_from old new 0 s = s.
Proof.
  induction s as [| c s IH]; intros H; [reflexivity |].
  cbn [occurs] in H. apply orb_false_iff in H. destruct H as [Hp Ho].
  cbn [replace_from]. rewrite Hp, (IH Ho). reflexivity.
Qed.

Lemma replace_skip old new post : forall t,
  replace_from old new (String.length t) (t ++ post)%string
  = replace_from old new 0 post.
Proof.
  induction t as [| c t IH]; [reflexivity |].
  cbn [String.length String.append replace_from]. exact IH.
Qed.

Lemma replace_first c0 old new post : forall pre,
  lacks c0 pre = true ->
  replace_from (String c0 old) new 0 (pre ++ String c0 old ++ post)%string
  = (pre ++ new ++ replace_from (String c0 old) new 0 post)%string.
Proof.
  induction pre as [| c pre IH]; intros H.
  - change ("" ++ String c0 old ++ post)%string with (String c0 (old ++ post)%string).
    cbn [replace_from].
    change (String c0 (old ++ post)%string) with (String c0 old ++ post)%string.
    rewrite prefix_self_app. cbn [String.length].
    replace (S (String.length old) - 1)%nat with (String.length old) by lia.
    rewrite replace_skip. reflexivity.
  - cbn [lacks] in H. apply andb_true_iff in H. destruct H as [Hc Hl].
    apply negb_true_iff in Hc. apply Ascii.eqb_neq in Hc.
    change (String c pre ++ String c0 old ++ post)%string
      with (String c (pre ++ String c0 old ++ post)%string).
    cbn [replace_from]. rewrite (prefix_other_head c0 old c _ Hc), (IH Hl).
    reflexivity.
Qed.

(** ** Running the script *)

Section Facts.

Variable env : Env.

(** What [render_map_template] does, case by case. *)
Lemma render_run w :
  render_map_template env w
  = if negb (configured env)
    then (Raise (SystemExit 1), w ++ [Print MissingKey; Print KeyAddress])
    else if negb (path_exists env "web/map_template.html")
    then (Raise (SystemExit 1), w ++ [Print (MissingTemplate "web/map_template.html")])
    else
      match read_text env "web/map_template.html" with
      | None => (Raise ReadError, w ++ [Print (ReadingTemplate "web/map_template.html")])
      | Some template =>
          if negb (mkdir_ok env "web")
          then (Raise OSError, w ++ [Print (ReadingTemplate "web/map_template.html")])
          else if negb (write_ok env "web/map.html")
          then (Raise OSError,
                w ++ [Print (ReadingTemplate "web/map_template.html"); Mkdir "web"])
          else (Ok tt,
                w ++ [Print (ReadingTemplate "web/map_template.html"); Mkdir "web";
                      WriteText "web/map.html"
                        (str_replace template placeholder
                           (getenv env "BAIDU_BROWSER_AK" ""));
                      Print (Generated "web/map.html");
                      Print (UsedKey (String.substring 0 20
                                        (getenv env "BAIDU_BROWSER_AK" "")))])
      end.
Proof.
  unfold render_map_template, configured.
  destruct (_ || _); cbn [negb].
  { cbn. now rewrite <- app_assoc. }
  destruct (path_exists env "web/map_template.html"); cbn [negb]; [| reflexivity].
  unfold read. destruct (read_text env "web/map_template.html") as [template |];
    [| reflexivity].
  unfold mkdir, write.
  destruct (mkdir_ok env "web"); cbn [negb]; [| reflexivity].
  destruct (write_ok env "web/map.html"); cbn [negb].
  - cbn. unfold print, emit, placeholder. now rewrite <- !app_assoc.
  - cbn. now rewrite <- !app_assoc.
Qed.


(** X22. A template in which the placeholder does not occur is copied to
    [web/map.html] as it is, and the run still reports success. *)
Theorem template_without_placeholder_is_copied w w' template :
  main env w = (Returns, w') ->
  read_text env "web/map_template.html" = Some template ->
  occurs placeholder template = false ->
  exists evs,
    w' = w ++ evs /\ writes_in evs = [("web/map.html", template)] /\
    In (Generated "web/map.html") (printed evs).
Proof.
  unfold main. rewrite render_run. intros H Hr Ho. rewrite Hr in H.
  destruct (negb (configured env)); [discriminate |].
  destruct (negb (path_exists env "web/map_template.html")); [discriminate |].
  destruct (negb (mkdir_ok env "web")); [discriminate |].
  destruct (negb (write_ok env "web/map.html")); [discriminate |].
  inversion H; subst w'. eexists. split; [reflexivity |].
  unfold str_replace. rewrite (replace_absent _ _ _ Ho).
  split; [reflexivity |]. cbn. auto.
Qed.

(** X23. The first placeholder of the template is replaced by the key:
    for a template that has no brace before it, the page written is what
    precedes the placeholder, the key, and the rendering of what follows
    it. *)
Theorem first_placeholder_gets_the_key w w' pre post :
  main env w = (Returns, w') ->
  read_text env "web/map_template.html" = Some (pre ++ placeholder ++ post)%string ->
  lacks brace pre = true ->
  exists evs,
    w' = w ++ evs /\
    writes_in evs
    = [("web/map.html",
        (pre ++ getenv env "BAIDU_BROWSER_AK" ""
             ++ str_replace post placeholder (getenv env "BAIDU_BROWSER_AK" ""))%string)] /\
    getenv env "BAIDU_BROWSER_AK" "" <> "" /\
    getenv env "BAIDU_BROWSER_AK" "" <> "YOUR_BROWSER_AK_HERE".
Proof.
  unfold main. rewrite render_run. intros H Hr Hl. rewrite Hr in H.
  destruct (configured env) eqn:Ec; cbn [negb] in H; [| discriminate].
  destruct (negb (path_exists env "web/map_template.html")); [discriminate |].
  destruct (negb (mkdir_ok env "web")); [discriminate |].
  destruct (negb (write_ok env "web/map.html")); [discriminate |].
  apply pair_equal_spec in H. destruct H as [_ <-]. eexists. split; [reflexivity |].
  unfold str_replace. change placeholder with (String brace "{BROWSER_AK}}").
  rewrite (replace_first _ _ _ _ _ Hl).
  split; [reflexivity |].
  unfold configured in Ec. apply negb_true_iff, orb_false_iff in Ec.
  destruct Ec as [E1 E2]. split; intros E; rewrite E in *; discriminate.
Qed.

End Facts.

(** ** The theorems at work on a sample site *)

Lemma template_without_placeholder_is_copied_witness :
  exists evs,
    [Print (ReadingTemplate "web/map_template.html"); Mkdir "web";
     WriteText "web/map.html" "<html></html>";
     Print (Generated "web/map.html"); Print (UsedKey "bk-1")]
    = [] ++ evs /\
    writes_in evs = [("web/map.html", "<html></html>")] /\
    In (Generated "web/map.html") (printed evs).
Proof.
  apply (template_without_placeholder_is_copied
           (site (Some "bk-1") (Some "<html></html>")) [] _ "<html></html>").
  - reflexivity.
  - reflexivity.
  - reflexivity.
Defined.

Lemma first_placeholder_gets_the_key_witness :
  exists evs,
    [Print (ReadingTemplate "web/map_template.html"); Mkdir "web";
     WriteText "web/map.html" "<script src='api?ak=bk-1'></script>";
     Print (Generated "web/map.html"); Print (UsedKey "bk-1")]
    = [] ++ evs /\
    writes_in evs
    = [("web/map.html",
        ("<script src='api?ak="
         ++ getenv (site (Some "bk-1") (Some page_template)) "BAIDU_BROWSER_AK" ""
         ++ str_replace "'></script>" placeholder
              (getenv (site (Some "bk-1") (Some page_template)) "BAIDU_BROWSER_AK" ""))%string)]
    /\
    getenv (site (Some "bk-1") (Some page_template)) "BAIDU_BROWSER_AK" "" <> "" /\
    getenv (site (Some "bk-1") (Some page_template)) "BAIDU_BROWSER_AK" ""
    <> "YOUR_BROWSER_AK_HERE".
Proof.
  apply (first_placeholder_gets_the_key
           (site (Some "bk-1") (Some page_template)) [] _
           "<script src='api?ak=" "'></script>").
  - reflexivity.
  - reflexivity.
  - reflexivity.
Defined.

End RenderMapFacts.
